(** * Road segments report pipeline (streamlit_app.py)

    A shallow embedding of [download_and_save_csv] and [process_data] and of
    the pandas operations they call, followed by the properties of the
    extraction, join, metric, sort, filter and road roll-up steps. *)

From Stdlib Require Import Floats ZArith String Ascii Lia.
From stdpp Require Import base option list gmap strings sorting.

Set Warnings "-register-all".
Open Scope string_scope.

(** ** JSON values

    What [json.loads] and [response.json()] return.  A Python [dict] keeps
    its insertion order, so an object is an association list; its keys are
    pairwise distinct. *)

Inductive json : Type :=
  | JNull
  | JBool (b : bool)
  | JInt (z : Z)
  | JFloat (f : float)
  | JStr (s : string)
  | JArr (l : list json)
  | JObj (d : list (string * json)).

Abbreviation pydict := (list (string * json)).

(** ** Exceptions and the error monad *)

Inductive exn : Type :=
  | KeyError (k : string)
  | IndexError
  | TypeError
  | AttributeError
  | ValueError
  | JSONDecodeError
  | ZeroDivisionError
  | OverflowError
  | NotImplementedError
  | EmptyDataError
  | FileNotFoundError (path : string)
  | OSError (path : string)
  | RequestException.

Inductive res (A : Type) : Type :=
  | Ok (a : A)
  | Raise (e : exn).
Arguments Ok {A} a.
Arguments Raise {A} e.

#[global] Instance res_ret : MRet res := @Ok.
#[global] Instance res_bind : MBind res := fun A B f m =>
  match m with Ok a => f a | Raise e => Raise e end.
#[global] Instance res_fmap : FMap res := fun A B f m =>
  match m with Ok a => Ok (f a) | Raise e => Raise e end.

Definition is_ok {A} (m : res A) : bool :=
  match m with Ok _ => true | Raise _ => false end.

(** ** Python dictionaries *)

Fixpoint dict_get (k : string) (d : pydict) : option json :=
  match d with
  | [] => None
  | (k', v) :: d' => if String.eqb k k' then Some v else dict_get k d'
  end.

(** [d[k] = v]: an existing key keeps its position, a new one goes last. *)
Fixpoint dict_set (k : string) (v : json) (d : pydict) : pydict :=
  match d with
  | [] => [(k, v)]
  | (k', v') :: d' =>
      if String.eqb k k' then (k', v) :: d' else (k', v') :: dict_set k v d'
  end.

(** [a | b]: a copy of [a] updated with the pairs of [b], the right operand
    winning on a shared key. *)
Definition dict_or (a b : pydict) : pydict :=
  fold_left (fun acc kv => dict_set kv.1 kv.2 acc) b a.

Definition dict_of_pairs (l : pydict) : pydict := dict_or [] l.

(** ** Subscripts, [in], [.get] and iteration on JSON values *)

(** [v[k]] with a string key. *)
Definition getitem (v : json) (k : string) : res json :=
  match v with
  | JObj d => match dict_get k d with
              | Some x => Ok x
              | None => Raise (KeyError k)
              end
  | _ => Raise TypeError
  end.

(** [v[0]]. *)
Definition getitem0 (v : json) : res json :=
  match v with
  | JArr (x :: _) => Ok x
  | JArr [] => Raise IndexError
  | JStr (String c _) => Ok (JStr (String c EmptyString))
  | JStr EmptyString => Raise IndexError
  | JObj _ => Raise (KeyError "0")
  | _ => Raise TypeError
  end.

(** [v.get(k, dflt)], a method of dictionaries only. *)
Definition get_method (v : json) (k : string) (dflt : json) : res json :=
  match v with
  | JObj d => Ok (default dflt (dict_get k d))
  | _ => Raise AttributeError
  end.

Definition is_infix (sub s : string) : bool :=
  match String.index 0 sub s with Some _ => true | None => false end.

Definition json_is_str (v : json) (s : string) : bool :=
  match v with JStr s' => String.eqb s' s | _ => false end.

(** [k in v] for a string [k]. *)
Definition py_in (k : string) (v : json) : res bool :=
  match v with
  | JObj d => Ok (bool_decide (is_Some (dict_get k d)))
  | JArr l => Ok (existsb (fun x => json_is_str x k) l)
  | JStr s => Ok (is_infix k s)
  | _ => Raise TypeError
  end.

Fixpoint chars (s : string) : list json :=
  match s with
  | EmptyString => []
  | String c s' => JStr (String c EmptyString) :: chars s'
  end.

(** [for x in v]. *)
Definition py_iter (v : json) : res (list json) :=
  match v with
  | JArr l => Ok l
  | JObj d => Ok (map (fun kv => JStr kv.1) d)
  | JStr s => Ok (chars s)
  | _ => Raise TypeError
  end.

(** [dict(v)].  A dictionary is copied.  A list is read as a sequence of
    pairs, each of them an iterable of length two: a [[key, value]] list, a
    string of two characters, or a dictionary with two keys, which gives its
    two keys.  An element that cannot be iterated and a key that cannot be
    hashed are a [TypeError], an element of another length a [ValueError].
    Field names are strings throughout the embedding: a [[key, value]] list
    whose key is a number, a boolean or [None] is not covered and is
    reported as a [ValueError] too. *)
Definition pair_of (x : json) : res (string * json) :=
  match x with
  | JArr [JStr k; v] => Ok (k, v)
  | JArr [JArr _; _] | JArr [JObj _; _] => Raise TypeError
  | JArr _ => Raise ValueError
  | JStr (String a (String b EmptyString)) =>
      Ok (String a EmptyString, JStr (String b EmptyString))
  | JStr _ => Raise ValueError
  | JObj [(k1, _); (k2, _)] => Ok (k1, JStr k2)
  | JObj _ => Raise ValueError
  | _ => Raise TypeError
  end.

Definition pairs_of (l : list json) : res pydict := mapM pair_of l.

Definition py_dict (v : json) : res pydict :=
  match v with
  | JObj d => Ok d
  | JArr l => d ← pairs_of l; Ok (dict_of_pairs d)
  | JStr EmptyString => Ok []
  | JStr _ => Raise ValueError
  | _ => Raise TypeError
  end.

(** ** The Record Extractor (lines 113-118)

    [[w['data']['items'] for w in widgets if w['name'] == name]] *)

Fixpoint widget_items (name : string) (ws : list json) : res (list json) :=
  match ws with
  | [] => Ok []
  | w :: ws' =>
      n ← getitem w "name";
      if json_is_str n name
      then d ← getitem w "data";
           it ← getitem d "items";
           rest ← widget_items name ws';
           Ok (it :: rest)
      else widget_items name ws'
  end.

(** [dict([... for w in data['widgets'] if w['name'] == name][0])] *)
Definition widget_dict (name : string) (data : json) : res pydict :=
  wj ← getitem data "widgets";
  ws ← py_iter wj;
  its ← widget_items name ws;
  match its with
  | [] => Raise IndexError
  | it :: _ => py_dict it
  end.

(** The body of the loop over the statistics rows: the record [j]. *)
Definition extract_record (data : json) : res pydict :=
  m ← getitem data "meta";
  li ← getitem m "location_info";
  id ← getitem li "road_segment_id";
  m' ← getitem data "meta";
  li' ← getitem m' "location_info";
  nm ← getitem li' "road_segment_name";
  acc ← widget_dict "accident_count_by_severity" data;
  inj ← widget_dict "injured_count_by_severity" data;
  Ok (dict_or (dict_or [("road_segment_id", id); ("road_segment_name", nm)] acc) inj).

(** [all_list]: one record per statistics row, the first failure ending the
    loop. *)
Definition extract_all (datas : list json) : res (list pydict) :=
  mapM extract_record datas.

(** ** Cells, column types and arithmetic

    A table cell holds a JSON scalar.  The type of a column is the one pandas
    infers from its cells: [int64] when all are integers of 64 bits,
    [bool_] when all are booleans, [float64] when all are numbers or
    missing and not all [None], and [object] otherwise.  In a [float64]
    column an integer is read as the binary64 nearest to it and [None] as
    [NaN].  (An integer from 2^63 up to 2^64, which pandas can store
    unsigned, makes the column an [object] column here.) *)

Inductive dtype : Type := int64 | float64 | bool_ | object.

Definition in_int64 (z : Z) : bool := ((- 2 ^ 63 <=? z) && (z <? 2 ^ 63))%Z.

(** Two's complement wrap-around of 64-bit integer arithmetic. *)
Definition wrap64 (z : Z) : Z := ((z + 2 ^ 63) mod 2 ^ 64 - 2 ^ 63)%Z.

Definition Z2float (z : Z) : float :=
  SF2Prim (binary_normalize prec emax z 0 false).

Definition NaN : json := JFloat nan.

Definition to_float (v : json) : res float :=
  match v with
  | JInt z => Ok (Z2float z)
  | JFloat f => Ok f
  | JNull => Ok nan
  | _ => Raise TypeError
  end.

Definition is_missing (v : json) : bool :=
  match v with
  | JNull => true
  | JFloat f => is_nan f
  | _ => false
  end.

Definition is_int64 (v : json) : bool :=
  match v with JInt z => in_int64 z | _ => false end.

Definition is_bool (v : json) : bool :=
  match v with JBool _ => true | _ => false end.

Definition is_number (v : json) : bool :=
  match v with
  | JInt z => in_int64 z
  | JFloat _ | JNull => true
  | _ => false
  end.

Definition is_null (v : json) : bool :=
  match v with JNull => true | _ => false end.

Definition dtype_of (vs : list json) : dtype :=
  if forallb is_null vs then object
  else if forallb is_int64 vs then int64
  else if forallb is_bool vs then bool_
  else if forallb is_number vs then float64
  else object.

(** A zero of either sign, as a divisor. *)
Definition is_zero (v : json) : bool :=
  match to_float v with
  | Ok y => PrimFloat.eqb y 0
  | Raise _ => false
  end.

(** *** Python arithmetic, on the cells of an [object] column

    Integers are unbounded and a boolean counts as 0 or 1; an integer
    meeting a float is converted first, which raises [OverflowError] when
    it is too large; a division by zero raises [ZeroDivisionError]. *)

Definition int_of (v : json) : option Z :=
  match v with
  | JInt z => Some z
  | JBool b => Some (if b then 1 else 0)%Z
  | _ => None
  end.

Definition py_float (z : Z) : res float :=
  let f := Z2float z in
  if is_infinity f then Raise OverflowError else Ok f.

(** [x / y] on integers: the binary64 nearest to the exact quotient.  The
    quotient is taken with 63 bits or more and one more bit that records a
    remainder, which rounds as the exact value does. *)
Definition int_true_div (x y : Z) : res float :=
  let s := xorb (x <? 0)%Z (y <? 0)%Z in
  let ax := Z.abs x in
  let ay := Z.abs y in
  let k := Z.max 0 (64 + Z.log2 ay - Z.log2 ax) in
  let q := (ax * 2 ^ k / ay)%Z in
  let r := (ax * 2 ^ k mod ay)%Z in
  let m := (2 * q + (if (r =? 0)%Z then 0 else 1))%Z in
  let f := SF2Prim (binary_normalize prec emax (if s then - m else m) (- k - 1) s) in
  if is_infinity f then Raise OverflowError else Ok f.

Definition py_add (a b : json) : res json :=
  match a, b with
  | JStr s, JStr t => Ok (JStr (s ++ t))
  | JArr l, JArr k => Ok (JArr (l ++ k))
  | JFloat x, JFloat y => Ok (JFloat (x + y))
  | JFloat x, _ =>
      match int_of b with
      | Some z => y ← py_float z; Ok (JFloat (x + y))
      | None => Raise TypeError
      end
  | _, JFloat y =>
      match int_of a with
      | Some z => x ← py_float z; Ok (JFloat (x + y))
      | None => Raise TypeError
      end
  | _, _ =>
      match int_of a, int_of b with
      | Some x, Some y => Ok (JInt (x + y))
      | _, _ => Raise TypeError
      end
  end.

Definition py_sub (a b : json) : res json :=
  match a, b with
  | JFloat x, JFloat y => Ok (JFloat (x - y))
  | JFloat x, _ =>
      match int_of b with
      | Some z => y ← py_float z; Ok (JFloat (x - y))
      | None => Raise TypeError
      end
  | _, JFloat y =>
      match int_of a with
      | Some z => x ← py_float z; Ok (JFloat (x - y))
      | None => Raise TypeError
      end
  | _, _ =>
      match int_of a, int_of b with
      | Some x, Some y => Ok (JInt (x - y))
      | _, _ => Raise TypeError
      end
  end.

Definition py_div (a b : json) : res json :=
  match a, b with
  | JFloat x, JFloat y =>
      if is_zero b then Raise ZeroDivisionError else Ok (JFloat (x / y))
  | JFloat x, _ =>
      match int_of b with
      | Some z => y ← py_float z;
                  if PrimFloat.eqb y 0 then Raise ZeroDivisionError
                  else Ok (JFloat (x / y))
      | None => Raise TypeError
      end
  | _, JFloat y =>
      match int_of a with
      | Some z => x ← py_float z;
                  if is_zero b then Raise ZeroDivisionError else Ok (JFloat (x / y))
      | None => Raise TypeError
      end
  | _, _ =>
      match int_of a, int_of b with
      | Some x, Some y =>
          if PrimFloat.eqb (Z2float y) 0 then Raise ZeroDivisionError
          else q ← int_true_div x y; Ok (JFloat q)
      | _, _ => Raise TypeError
      end
  end.

(** An operation between two columns one of which is an [object] column:
    where either cell is missing the result is [NaN], elsewhere Python
    computes it. *)
Definition masked (op : json -> json -> res json) (a b : json) : res json :=
  if is_missing a || is_missing b then Ok NaN else op a b.

(** *** Arithmetic between two columns, cell by cell

    The first two arguments are the types of the columns the cells [a] and
    [b] come from. *)

(** The value of a cell of a numeric or boolean column as a binary64. *)
Definition num_float (v : json) : res float :=
  match v with
  | JBool b => Ok (if b then 1 else 0)%float
  | _ => to_float v
  end.

Definition int_op (f : Z -> Z -> Z) (a b : json) : res json :=
  match int_of a, int_of b with
  | Some x, Some y => Ok (JInt (wrap64 (f x y)))
  | _, _ => Raise TypeError
  end.

Definition float_op (f : float -> float -> float) (a b : json) : res json :=
  x ← num_float a; y ← num_float b; Ok (JFloat (f x y)).

(** [a + b]: booleans are joined by [or]; integer columns add with
    wrap-around. *)
Definition col_add (ta tb : dtype) (a b : json) : res json :=
  match ta, tb with
  | object, _ | _, object => masked py_add a b
  | bool_, bool_ =>
      match a, b with
      | JBool x, JBool y => Ok (JBool (x || y))
      | _, _ => Raise TypeError
      end
  | float64, _ | _, float64 => float_op PrimFloat.add a b
  | _, _ => int_op Z.add a b
  end.

(** [a - b]: numpy has no subtraction of booleans. *)
Definition col_sub (ta tb : dtype) (a b : json) : res json :=
  match ta, tb with
  | object, _ | _, object => masked py_sub a b
  | bool_, bool_ => Raise TypeError
  | float64, _ | _, float64 => float_op PrimFloat.sub a b
  | _, _ => int_op Z.sub a b
  end.

(** [a / b]: true division of numeric columns, always a float; a zero
    divisor gives an infinity or [NaN], never an exception. *)
Definition cell_div (a b : json) : res json :=
  x ← to_float a; y ← to_float b; Ok (JFloat (PrimFloat.div x y)).

(** pandas refuses to divide a boolean column by a boolean column. *)
Definition col_div (ta tb : dtype) (a b : json) : res json :=
  match ta, tb with
  | object, _ | _, object => masked py_div a b
  | bool_, bool_ => Raise NotImplementedError
  | bool_, _ | _, bool_ => float_op PrimFloat.div a b
  | _, _ => cell_div a b
  end.

(** [v >= 1] *)
Definition ge1 (v : json) : res bool :=
  x ← to_float v; Ok (PrimFloat.leb 1 x).

(** Lists and dictionaries cannot be merge or group keys: pandas hashes the
    keys, and hashing one of these is a [TypeError]. *)
Definition hashable (v : json) : bool :=
  match v with
  | JArr _ | JObj _ => false
  | _ => true
  end.

(** Equality of two merge or group keys, as Python compares and hashes
    them: numbers by exact value (so [1], [1.0] and [True] are one key),
    strings by content, and a missing key matches a missing key. *)
Definition float_int (f : float) : option Z :=
  match Prim2SF f with
  | S754_zero _ => Some 0%Z
  | S754_finite s m e =>
      let z := if (0 <=? e)%Z then Some (Z.pos m * 2 ^ e)%Z
               else if (Z.pos m mod 2 ^ (- e) =? 0)%Z
                    then Some (Z.pos m / 2 ^ (- e))%Z
                    else None in
      (if s then Z.opp else id) <$> z
  | _ => None
  end.

Definition key_norm (v : json) : json :=
  match v with
  | JFloat f => match float_int f with
                | Some z => JInt z
                | None => v
                end
  | JBool b => JInt (if b then 1 else 0)
  | JNull => NaN
  | _ => v
  end.

Definition norm_eqb (a b : json) : bool :=
  match a, b with
  | JInt x, JInt y => Z.eqb x y
  | JFloat f, JFloat g => PrimFloat.eqb f g || (is_nan f && is_nan g)
  | JStr s, JStr t => String.eqb s t
  | JBool x, JBool y => Bool.eqb x y
  | _, _ => false
  end.

Definition key_eqb (a b : json) : bool := norm_eqb (key_norm a) (key_norm b).

(** ** Data frames

    The column names in order and the rows in order, each row a finite map
    from column name to cell; a cell a row does not hold is [NaN]. *)

Record DataFrame : Type := mkDF {
  columns : list string;
  rows : list (gmap string json)
}.

Definition cell (r : gmap string json) (c : string) : json :=
  default NaN (r !! c).

Definition has_col (c : string) (df : DataFrame) : bool :=
  bool_decide (c ∈ columns df).

Definition add_col (c : string) (cols : list string) : list string :=
  if bool_decide (c ∈ cols) then cols else cols ++ [c].

(** [df[c]] *)
Definition get_col (c : string) (df : DataFrame) : res (list json) :=
  if has_col c df then Ok (map (fun r => cell r c) (rows df))
  else Raise (KeyError c).

(** The cells of a column, and the type of the column. *)
Definition column (c : string) (rs : list (gmap string json)) : list json :=
  map (fun r => cell r c) rs.

Definition col_dtype (c : string) (rs : list (gmap string json)) : dtype :=
  dtype_of (column c rs).

(** [df[c] = df[a] op df[b]] *)
Definition assign (c : string) (op : dtype -> dtype -> json -> json -> res json)
    (a b : string) (df : DataFrame) : res DataFrame :=
  if negb (has_col a df) then Raise (KeyError a)
  else if negb (has_col b df) then Raise (KeyError b)
  else
    let ta := col_dtype a (rows df) in
    let tb := col_dtype b (rows df) in
    rs ← mapM (fun r => v ← op ta tb (cell r a) (cell r b); Ok (<[c := v]> r)) (rows df);
    Ok (mkDF (add_col c (columns df)) rs).

Definition restrict (cols : list string) (r : gmap string json) : gmap string json :=
  filter (fun kv => kv.1 ∈ cols) r.

(** [df[cols]] *)
Definition select (cols : list string) (df : DataFrame) : res DataFrame :=
  match list_find (fun c => c ∉ columns df) cols with
  | Some (_, c) => Raise (KeyError c)
  | None => Ok (mkDF cols (map (restrict cols) (rows df)))
  end.

(** [pd.DataFrame(records)]: the columns are the keys in order of first
    appearance.  Each column gets the type inferred from its values, so the
    integers and the [None]s of a [float64] column become floats. *)
Definition keys_union (recs : list pydict) : list string :=
  fold_left (fun acc d => fold_left (fun acc' kv => add_col kv.1 acc') d acc) recs [].

Definition as_float64 (v : json) : json :=
  match to_float v with
  | Ok f => JFloat f
  | Raise _ => v
  end.

Definition typed (rs : list (gmap string json)) (c : string) (v : json) : json :=
  match col_dtype c rs with
  | float64 => as_float64 v
  | _ => v
  end.

Definition DataFrame_of (recs : list pydict) : DataFrame :=
  let raw : list (gmap string json) := map (fun d => list_to_map d) recs in
  mkDF (keys_union recs) (map (fun r => map_imap (fun c v => Some (typed raw c v)) r) raw).

(** [pd.merge(left, right, left_on=.., right_on=..)], an inner join: the
    left rows in order, each with its matching right rows in order.  A
    column name the two sides share gets the suffixes [_x] and [_y]. *)
Definition suffixed (ov : list string) (sfx c : string) : string :=
  if bool_decide (c ∈ ov) then c ++ sfx else c.

Definition rename_row (ov : list string) (sfx : string) (cols : list string)
    (r : gmap string json) : gmap string json :=
  list_to_map (map (fun c => (suffixed ov sfx c, cell r c)) cols).

Definition overlap (left right : DataFrame) : list string :=
  filter (fun c => c ∈ columns right) (columns left).

Definition merge_row (left right : DataFrame) (l r : gmap string json)
    : gmap string json :=
  rename_row (overlap left right) "_x" (columns left) l
  ∪ rename_row (overlap left right) "_y" (columns right) r.

(** What [pd.merge] checks of the two key columns before it joins: an
    [object] column that holds strings only, or a mix without any integer,
    or nothing but [None], is refused against a numeric column.  Nothing is
    checked when a side has no row. *)
Definition stringlike (vs : list json) : bool :=
  match filter (fun v => is_missing v = false) vs with
  | JInt _ :: _ => false
  | JStr _ :: _ =>
      forallb (fun v => match v with JStr _ => true | _ => false end) vs
      || negb (existsb (fun v => match v with JInt _ => true | _ => false end) vs)
  | _ :: _ => negb (existsb (fun v => match v with JInt _ => true | _ => false end) vs)
  | [] => true
  end.

Definition keys_compatible (lk rk : list json) : bool :=
  match lk, rk with
  | [], _ | _, [] => true
  | _, _ =>
      match dtype_of lk, dtype_of rk with
      | object, (int64 | float64) => negb (stringlike lk)
      | (int64 | float64), object => negb (stringlike rk)
      | _, _ => true
      end
  end.

Definition merge (left right : DataFrame) (left_on right_on : string) : res DataFrame :=
  if negb (has_col left_on left) then Raise (KeyError left_on)
  else if negb (has_col right_on right) then Raise (KeyError right_on)
  else if negb (keys_compatible (column left_on (rows left)) (column right_on (rows right)))
  then Raise ValueError
  else if negb (forallb (fun l => hashable (cell l left_on)) (rows left)
                && forallb (fun r => hashable (cell r right_on)) (rows right))
  then Raise TypeError
  else
    let ov := overlap left right in
    Ok (mkDF (map (suffixed ov "_x") (columns left) ++ map (suffixed ov "_y") (columns right))
          (flat_map (fun l =>
             map (merge_row left right l)
                 (filter (fun r => key_eqb (cell l left_on) (cell r right_on) = true)
                         (rows right)))
             (rows left))).

(** [df.loc[df[c] >= 1]] *)
Definition ge1b (v : json) : bool :=
  match ge1 v with Ok true => true | _ => false end.

Definition loc_ge1 (c : string) (df : DataFrame) : res DataFrame :=
  if negb (has_col c df) then Raise (KeyError c)
  else
    _ ← mapM (fun r => ge1 (cell r c)) (rows df);
    Ok (mkDF (columns df) (filter (fun r => ge1b (cell r c) = true) (rows df))).

(** ** Grouping

    The group keys of [groupby]: the distinct values that are not missing,
    in sorted order. *)
Definition key_rank (v : json) : nat :=
  match v with
  | JBool _ => 0
  | JInt _ | JFloat _ | JNull => 1
  | JStr _ => 2
  | _ => 3
  end.

Definition key_leb (a b : json) : bool :=
  match a, b with
  | JBool x, JBool y => implb x y
  | JInt x, JInt y => Z.leb x y
  | JStr s, JStr t => String.leb s t
  | _, _ =>
      if Nat.eqb (key_rank a) (key_rank b)
      then match to_float a, to_float b with
           | Ok x, Ok y => PrimFloat.leb x y
           | _, _ => true
           end
      else Nat.ltb (key_rank a) (key_rank b)
  end.

Definition key_le (a b : json) : Prop := key_leb a b = true.

#[global] Instance key_le_dec : RelDecision key_le.
Proof. intros a b. unfold key_le. apply _. Defined.

Fixpoint dedup_keys (l : list json) : list json :=
  match l with
  | [] => []
  | k :: l' => k :: filter (fun k' => key_eqb k k' = false) (dedup_keys l')
  end.

Definition group_keys (key : string) (df : DataFrame) : res (list json) :=
  let ks := map (fun r => cell r key) (rows df) in
  if forallb hashable ks
  then Ok (merge_sort key_le (dedup_keys (filter (fun k => is_missing k = false) ks)))
  else Raise TypeError.

Definition members (key : string) (k : json) (df : DataFrame) : list (gmap string json) :=
  filter (fun r => key_eqb (cell r key) k = true) (rows df).

(** *** The sum of a column within a group

    What [groupby(...).sum()] computes for a group depends on the type of
    the column: 64-bit integers add with wrap-around; floats are added with
    a running compensation (Kahan), the missing ones skipped; booleans are
    counted; the values of an [object] column are added by Python, the
    first one that is not missing as it is. *)

Fixpoint kahan (sumx comp : float) (vs : list float) : float :=
  match vs with
  | [] => sumx
  | v :: vs' =>
      let y := (v - comp)%float in
      let t := (sumx + y)%float in
      let c := (t - sumx - y)%float in
      kahan t (if is_nan c then 0%float else c) vs'
  end.

Fixpoint py_sum_from (acc : json) (vs : list json) : res json :=
  match vs with
  | [] => Ok acc
  | v :: vs' => acc' ← py_add acc v; py_sum_from acc' vs'
  end.

Definition group_sum (t : dtype) (vs : list json) : res json :=
  match t with
  | int64 | bool_ =>
      Ok (JInt (wrap64 (fold_left (fun s v => (s + default 0 (int_of v))%Z) vs 0%Z)))
  | float64 =>
      Ok (JFloat (kahan 0 0 (filter (fun x => is_nan x = false)
                               (omap (fun v => match to_float v with
                                               | Ok x => Some x
                                               | Raise _ => None
                                               end) vs))))
  | object =>
      match filter (fun v => is_missing v = false) vs with
      | [] => Ok (JInt 0)
      | v :: vs' => py_sum_from v vs'
      end
  end.

(** The sums of the columns [cs] over the rows [g] of a group of the
    table with rows [rs]. *)
Fixpoint sum_cols (rs : list (gmap string json)) (cs : list string)
    (g : list (gmap string json)) : res (gmap string json) :=
  match cs with
  | [] => Ok ∅
  | c :: cs' =>
      s ← group_sum (col_dtype c rs) (column c g);
      m ← sum_cols rs cs' g;
      Ok (<[c := s]> m)
  end.

(** [df.groupby([key]).sum()[cols]]: every column but the key is summed,
    then [cols] are selected; the group key, the index of the pandas
    result, is kept as the column [key]. *)
Definition groupby_sum (key : string) (cols : list string) (df : DataFrame) : res DataFrame :=
  if negb (has_col key df) then Raise (KeyError key)
  else
    ks ← group_keys key df;
    _ ← mapM (fun k => sum_cols (rows df) (filter (fun c => c ≠ key) (columns df))
                         (members key k df)) ks;
    rs ← mapM (fun k => m ← sum_cols (rows df) cols (members key k df);
                        Ok (<[key := k]> m)) ks;
    Ok (mkDF (key :: cols) rs).

(** [first()] and [last()] of a group: the first, or last, cell that is not
    missing. *)
Definition first_valid (vs : list json) : json :=
  default NaN (head (filter (fun v => is_missing v = false) vs)).

Definition last_valid (vs : list json) : json :=
  default NaN (last (filter (fun v => is_missing v = false) vs)).

(** [df.groupby([key])[c].first().to_frame()], and the same with [last]. *)
Definition groupby_pick (pick : list json -> json) (key c : string) (df : DataFrame)
    : res DataFrame :=
  if negb (has_col key df) then Raise (KeyError key)
  else if negb (has_col c df) then Raise (KeyError c)
  else
    ks ← group_keys key df;
    Ok (mkDF [key; c]
          (map (fun k => <[key := k]> {[ c := pick (map (fun r => cell r c) (members key k df)) ]})
               ks)).

(** [pd.merge(left, right, left_index=True, right_index=True)] on frames
    indexed by [key] whose other columns have different names. *)
Definition merge_index (key : string) (left right : DataFrame) : DataFrame :=
  mkDF (columns left ++ filter (fun c => c ≠ key) (columns right))
       (flat_map (fun l =>
          map (fun r => l ∪ r)
              (filter (fun r => key_eqb (cell l key) (cell r key) = true) (rows right)))
          (rows left)).

(** ** Sorting and the file store

    Four things the code takes from its environment are parameters of the
    embedding: the JSON decoder [json.loads], the index sort numpy runs for
    [sort_values] (the code passes no [kind], so it is numpy's default one,
    whose order among equal keys pandas does not specify), which output
    paths can be written, and the table [pd.DataFrame] builds from rows
    that are not a list of objects. *)

(** A data file holds the table written to it. *)
Abbreviation Files := (gmap string DataFrame).

Section Pipeline.

Variable json_loads : string -> option json.
Variable argsort : list float -> list nat.
Variable can_write : string -> bool.
Variable other_frame : json -> res DataFrame.

(** [l[idx]] *)
Definition take_rows {A} (idx : list nat) (l : list A) : list A :=
  omap (fun i => l !! i) idx.

(** The row order of [sort_values]: rows with a [NaN] key go last in their
    own order; the others are ordered by the index sort, and for a
    descending sort pandas reverses them, sorts ascending and reverses the
    outcome. *)
Definition sort_rows {A} (ascending : bool) (l : list (A * float)) : list (A * float) :=
  let non_nans := filter (fun p => is_nan p.2 = false) l in
  let nans := filter (fun p => is_nan p.2 = true) l in
  let items := if ascending then non_nans else reverse non_nans in
  let sorted := take_rows (argsort (items.*2)) items in
  (if ascending then sorted else reverse sorted) ++ nans.

(** [df.sort_values(key, ascending=..)] *)
Definition sort_values (key : string) (ascending : bool) (df : DataFrame) : res DataFrame :=
  keys ← get_col key df;
  fkeys ← mapM to_float keys;
  Ok (mkDF (columns df) ((sort_rows ascending (zip (rows df) fkeys)).*1)).

(** *** Files

    The store maps a path to the table [pd.read_csv] reads from the file:
    [to_csv] followed by [read_csv] gives the table back.  What the text of
    a CSV file loses on the way (a string such as [NA] or [1] is read back
    as a missing value or as a number, [None] as [NaN]) is not part of the
    embedding. *)

Definition io (A : Type) : Type := Files -> Files * res A.

#[global] Instance io_ret : MRet io := fun A a fs => (fs, Ok a).
#[global] Instance io_bind : MBind io := fun A B f m fs =>
  match m fs with
  | (fs', Ok a) => f a fs'
  | (fs', Raise e) => (fs', Raise e)
  end.

Definition lift {A} (m : res A) : io A := fun fs => (fs, m).

(** [df.to_csv(path, index=False)] *)
Definition to_csv (path : string) (df : DataFrame) : io unit := fun fs =>
  if can_write path then (<[path := df]> fs, Ok ())
  else (fs, Raise (OSError path)).

(** [pd.read_csv(path)] *)
Definition read_csv (path : string) : io DataFrame := fun fs =>
  (fs, match fs !! path with
       | None => Raise (FileNotFoundError path)
       | Some df => match columns df with
                    | [] => Raise EmptyDataError
                    | _ => Ok df
                    end
       end).

(** [json.loads(v)] *)
Definition custom_parser (v : json) : res json :=
  match v with
  | JStr s => match json_loads s with
              | Some j => Ok j
              | None => Raise JSONDecodeError
              end
  | _ => Raise TypeError
  end.

(** The [converters={c: custom_parser}] argument of [read_csv]. *)
Definition apply_converter (c : string) (df : DataFrame) : res DataFrame :=
  if has_col c df
  then rs ← mapM (fun r => v ← custom_parser (cell r c); Ok (<[c := v]> r)) (rows df);
       Ok (mkDF (columns df) rs)
  else Ok df.

(** ** The Fetcher: [download_and_save_csv] *)

Definition ROAD_SEGMENTS_CSV : string := "data/source_data/road_segments.csv".
Definition INFOGRAPHICS_CSV : string :=
  "data/source_data/infographics_data_cache_5_years.csv".
Definition ALL_SEGMENTS : string := "data/output_data/all_segments.csv".
Definition ALL_SEGMENTS_1KM : string :=
  "data/output_data/all_segments_1_km_and_above.csv".
Definition ALL_ROADS : string := "data/output_data/all_roads.csv".
Definition ALL_ROADS_1KM : string := "data/output_data/all_roads_1_km_and_above.csv".

Definition ascii_lower (c : ascii) : ascii :=
  let n := nat_of_ascii c in
  if Nat.leb 65 n && Nat.leb n 90 then ascii_of_nat (n + 32) else c.

Fixpoint lower (s : string) : string :=
  match s with
  | EmptyString => EmptyString
  | String c s' => String (ascii_lower c) (lower s')
  end.

(** Line 58: the rows when the response has the path
    [query_result -> data -> rows]. *)
Definition response_rows (data : json) : res (option json) :=
  c1 ← py_in "query_result" data;
  if c1 : bool then
    qr ← getitem data "query_result";
    c2 ← py_in "data" qr;
    if c2 : bool then
      d ← getitem qr "data";
      c3 ← py_in "rows" d;
      if c3 : bool then rs ← getitem d "rows"; Ok (Some rs) else Ok None
    else Ok None
  else Ok None.

(** Line 63: [json.loads(rows[0]['data']).get('meta')] *)
Definition first_row_meta (rs : json) : res json :=
  r0 ← getitem0 rs;
  d ← getitem r0 "data";
  j ← custom_parser d;
  get_method j "meta" JNull.

(** The rows of a Redash result are a list of objects. *)
Definition records_of (rs : json) : option (list pydict) :=
  match rs with
  | JArr l => mapM (fun x => match x with
                             | JObj d => Some d
                             | _ => None
                             end) l
  | _ => None
  end.

(** [pd.DataFrame(rows)].  What pandas builds from rows of another shape (a
    list of numbers, of lists, a dictionary of columns, ...) is left to
    [other_frame]. *)
Definition DataFrame_rows (rs : json) : res DataFrame :=
  match records_of rs with
  | Some recs => Ok (DataFrame_of recs)
  | None => other_frame rs
  end.

(** [response] is the outcome of lines 53-55: the decoded body, or the
    exception of the request.  The result is the success flag and the
    metadata; every exception is caught (lines 76-79). *)
Definition download_and_save_csv (response : res json) (output_file : string)
    (fs : Files) : Files * (bool * json) :=
  let metadata := JObj [] in
  match data ← response; response_rows data with
  | Raise _ | Ok None => (fs, (false, metadata))
  | Ok (Some rs) =>
      match (if is_infix "infographics" (lower output_file)
             then first_row_meta rs else Ok metadata) with
      | Raise _ => (fs, (false, metadata))
      | Ok metadata' =>
          match DataFrame_rows rs with
          | Raise _ => (fs, (false, metadata'))
          | Ok df =>
              match to_csv output_file df fs with
              | (fs', Ok _) => (fs', (true, metadata'))
              | (fs', Raise _) => (fs', (false, metadata'))
              end
          end
      end
  end.

(** ** The Segment Aggregator (lines 123-150) *)

Definition reference_columns : list string :=
  ["segment_id"; "road"; "from_km"; "from_name"; "to_km"; "to_name"].

Definition segment_columns : list string :=
  ["road_segment_id"; "road"; "road_segment_name"; "from_km"; "from_name"; "to_km";
   "to_name"; "total_km"; "severity_fatal_count"; "severity_severe_count";
   "severity_light_count"; "start_year"; "end_year"; "total_accidents_count";
   "killed_count"; "severe_injured_count"; "light_injured_count";
   "total_injured_count"; "segment_id"; "fatal_severe_accidents";
   "fatal_severe_accidents_per_km"; "fatal_accidents_per_km"].

(** Lines 126-131: the join. *)
Definition join_segments (all_list : list pydict) (road_segments : DataFrame)
    : res DataFrame :=
  right ← select reference_columns road_segments;
  merge (DataFrame_of all_list) right "road_segment_id" "segment_id".

(** Lines 135-138: the derived columns. *)
Definition add_metrics (df : DataFrame) : res DataFrame :=
  d1 ← assign "fatal_severe_accidents" col_add
         "severity_fatal_count" "severity_severe_count" df;
  d2 ← assign "fatal_severe_accidents_per_km" col_div
         "fatal_severe_accidents" "total_km" d1;
  assign "fatal_accidents_per_km" col_div "severity_fatal_count" "total_km" d2.

Definition segment_table (all_list : list pydict) (road_segments : DataFrame)
    : res DataFrame :=
  joined ← join_segments all_list road_segments;
  d0 ← assign "total_km" col_sub "to_km" "from_km" joined;
  d3 ← add_metrics d0;
  d4 ← sort_values "fatal_severe_accidents_per_km" false d3;
  select (filter (fun c => c ∈ columns d4) segment_columns) d4.

(** ** The Road Aggregator (lines 161-181) *)

Definition agg_columns : list string :=
  ["total_km"; "severity_fatal_count"; "severity_severe_count"; "severity_light_count";
   "total_accidents_count"; "killed_count"; "severe_injured_count";
   "light_injured_count"; "total_injured_count"].

Definition road_groups (df_total : DataFrame) : res DataFrame :=
  let agg := filter (fun c => c ∈ columns df_total) agg_columns in
  sums ← groupby_sum "road" agg df_total;
  by_from ← sort_values "from_km" true df_total;
  first_junction ← groupby_pick first_valid "road" "from_name" by_from;
  by_to ← sort_values "to_km" true df_total;
  last_junction ← groupby_pick last_valid "road" "to_name" by_to;
  Ok (merge_index "road" (merge_index "road" sums first_junction) last_junction).

Definition road_table (df_total : DataFrame) : res DataFrame :=
  groups ← road_groups df_total;
  d3 ← add_metrics groups;
  sort_values "fatal_severe_accidents_per_km" false d3.

(** ** [process_data] *)

Record summary : Type := mkSummary {
  n_segments : nat;
  n_segments_1km : nat;
  n_roads : nat;
  n_roads_1km : nat;
  date_range : json;
  last_update : json
}.

(** The result is [Ok] for the tuple that starts with [True], and the
    exception caught at line 195 otherwise. *)
Definition process_data (metadata : json) : io summary :=
  df0 ← read_csv INFOGRAPHICS_CSV;
  df ← lift (apply_converter "data" df0);
  dates_comment ← lift (get_method metadata "dates_comment" (JObj []));
  dr ← lift (get_method dates_comment "date_range" (JArr []));
  lu ← lift (get_method dates_comment "last_update" (JStr ""));
  _ ← lift (getitem0 dr);
  road_segments ← read_csv ROAD_SEGMENTS_CSV;
  datas ← lift (match rows df with [] => Ok [] | _ => get_col "data" df end);
  all_list ← lift (extract_all datas);
  df_total ← lift (segment_table all_list road_segments);
  _ ← to_csv ALL_SEGMENTS df_total;
  df_total_over_km ← lift (loc_ge1 "total_km" df_total);
  _ ← to_csv ALL_SEGMENTS_1KM df_total_over_km;
  df_roads ← lift (road_table df_total);
  _ ← to_csv ALL_ROADS df_roads;
  df_roads_over_km ← lift (loc_ge1 "total_km" df_roads);
  _ ← to_csv ALL_ROADS_1KM df_roads_over_km;
  mret (mkSummary (length (rows df_total)) (length (rows df_total_over_km))
                  (length (rows df_roads)) (length (rows df_roads_over_km)) dr lu).

(** ** The run (lines 245-262): both downloads, then the processing when
    both succeeded. *)
Inductive outcome : Type :=
  | DownloadFailed
  | Processed (r : res summary).

Definition run (segments_response statistics_response : res json) (fs : Files)
    : Files * outcome :=
  let '(fs1, (success1, _)) :=
    download_and_save_csv segments_response ROAD_SEGMENTS_CSV fs in
  let '(fs2, (success2, metadata)) :=
    download_and_save_csv statistics_response INFOGRAPHICS_CSV fs1 in
  if success1 && success2
  then let '(fs3, r) := process_data metadata fs2 in (fs3, Processed r)
  else (fs2, DownloadFailed).

End Pipeline.

(** ** The preview (lines 353-387)

    The last block of the script reads the two full tables back, sorts them
    again and shows each with a few key columns moved to the front. *)

Definition segment_key_cols : list string :=
  ["road"; "road_segment_name"; "total_km"; "fatal_severe_accidents_per_km";
   "fatal_accidents_per_km"].

Definition road_key_cols : list string :=
  ["road"; "from_name"; "to_name"; "total_km"; "fatal_severe_accidents_per_km";
   "fatal_accidents_per_km"].

Section Preview.

Variable argsort : list float -> list nat.

(** Lines 361-368 and 376-383: the table is read back, sorted again and
    shown with the key columns first. *)
Definition preview_table (path : string) (key_cols : list string) (fs : Files)
    : res DataFrame :=
  df ← (read_csv path fs).2;
  sorted ← sort_values argsort "fatal_severe_accidents_per_km" false df;
  let other_cols := filter (fun c => c ∉ key_cols) (columns sorted) in
  select (key_cols ++ other_cols) sorted.

(** Lines 353-387: nothing is shown unless [all_segments.csv] exists; each
    tab shows its table, or the error of the exception it caught. *)
Definition preview (fs : Files) : option (res DataFrame * res DataFrame) :=
  match fs !! ALL_SEGMENTS with
  | None => None
  | Some _ => Some (preview_table ALL_SEGMENTS segment_key_cols fs,
                    preview_table ALL_ROADS road_key_cols fs)
  end.

End Preview.

(** * Vocabulary of the properties

    The predicates the statements below are written with.  They are defined
    from the operations of the embedding above. *)

(** ** Widgets of a statistics row *)

(** The two widgets the Record Extractor looks up by name. *)
Definition widget_names : list string :=
  ["accident_count_by_severity"; "injured_count_by_severity"].

(** [data['widgets']] as a list, empty when the row has none. *)
Definition widgets_of (data : json) : list json :=
  match getitem data "widgets" ≫= py_iter with
  | Ok ws => ws
  | Raise _ => []
  end.

(** [w['name'] == name] *)
Definition is_named (name : string) (w : json) : bool :=
  match getitem w "name" with
  | Ok n => json_is_str n name
  | Raise _ => false
  end.

(** How many widgets of the row carry the name. *)
Definition occurrences (name : string) (data : json) : nat :=
  length (filter (fun w => is_named name w = true) (widgets_of data)).

(** [w['data']['items']] *)
Definition items_of (w : json) : res json :=
  d ← getitem w "data"; getitem d "items".

(** A widget the two lookups can read: it has a [name], and it has
    [data.items] when its name is one of the two looked up. *)
Definition readable (w : json) : Prop :=
  is_ok (getitem w "name") = true /\
  forall name, name ∈ widget_names -> is_named name w = true ->
    is_ok (items_of w) = true.

(** The first widget of the list that carries the name. *)
Definition first_named (name : string) (ws : list json) : option json :=
  head (filter (fun w => is_named name w = true) ws).

(** [data['meta']['location_info']] *)
Definition location_info (data : json) : res json :=
  m ← getitem data "meta"; getitem m "location_info".

(** ** Binary64 values as ranks

    [PrimFloat.leb] and [PrimFloat.eqb] are specified through [SFcompare];
    mapping a float that is not [NaN] to a triple of integers turns them
    into the lexicographic order, where linear arithmetic applies. *)

Definition sf_rank (f : spec_float) : Z * Z * Z :=
  match f with
  | S754_zero _ => (0, 0, 0)
  | S754_infinity s => (if s then -2 else 2, 0, 0)
  | S754_nan => (3, 0, 0)
  | S754_finite s m e => if s then (-1, - e, Z.neg m) else (1, e, Z.pos m)
  end%Z.

Definition lex_le (a b : Z * Z * Z) : Prop :=
  (a.1.1 < b.1.1 \/ (a.1.1 = b.1.1 /\ (a.1.2 < b.1.2 \/ (a.1.2 = b.1.2 /\ a.2 <= b.2))))%Z.

Definition not_nan (f : spec_float) : Prop :=
  match f with S754_nan => False | _ => True end.

(** ** Rows *)

(** The record has the field [k], an integer of 64 bits. *)
Definition int_field (k : string) (d : pydict) : Prop :=
  exists z, dict_get k d = Some (JInt z) /\ in_int64 z = true.

#[global] Instance int_field_dec k d : Decision (int_field k d).
Proof.
  unfold int_field.
  destruct (dict_get k d) as [v|] eqn:E; [|right; by intros (z & ? & _)].
  destruct v as [| |z| | | |]; try (right; by intros (z' & ? & _)).
  destruct (in_int64 z) eqn:Hz.
  - left. by exists z.
  - right. intros (z' & [= <-] & ?). congruence.
Defined.

(** The two severity counts of the row are integers [a] and [b] and its
    length a number [k]: [fatal_severe_accidents] is [a + b] in 64-bit
    arithmetic, which is [a + b] itself when that is in range, and the two
    ratios are the binary64 quotients by [k] of the binary64 nearest to
    [fatal_severe_accidents] and to [a]. *)
Definition metrics_hold (r : gmap string json) : Prop :=
  exists a b k,
    cell r "severity_fatal_count" = JInt a /\
    cell r "severity_severe_count" = JInt b /\
    to_float (cell r "total_km") = Ok k /\
    cell r "fatal_severe_accidents" = JInt (wrap64 (a + b)) /\
    (in_int64 (a + b) = true -> cell r "fatal_severe_accidents" = JInt (a + b)) /\
    cell r "fatal_severe_accidents_per_km" = JFloat (Z2float (wrap64 (a + b)) / k) /\
    cell r "fatal_accidents_per_km" = JFloat (Z2float a / k).

(** The columns the derived metrics read and write. *)
Definition metric_columns : list string :=
  ["severity_fatal_count"; "severity_severe_count"; "total_km";
   "fatal_severe_accidents"; "fatal_severe_accidents_per_km"; "fatal_accidents_per_km"].

(** The columns [add_metrics] writes. *)
Definition metric_targets : list string :=
  ["fatal_severe_accidents"; "fatal_severe_accidents_per_km"; "fatal_accidents_per_km"].

(** Every cell of the key column can be hashed, as [pd.merge] requires. *)
Definition keys_hashable (key : string) (df : DataFrame) : Prop :=
  Forall (fun r => hashable (cell r key) = true) (rows df).

Fixpoint last_char (s : string) : option ascii :=
  match s with
  | EmptyString => None
  | String c s' => match s' with
                   | EmptyString => Some c
                   | _ => last_char s'
                   end
  end.

(** An identifier: an integer of 64 bits. *)
Definition int_id (v : json) : Prop :=
  exists z, v = JInt z /\ in_int64 z = true.

#[global] Instance int_id_dec v : Decision (int_id v).
Proof.
  unfold int_id.
  destruct v as [| |z| | | |]; try (right; by intros (z' & ? & _)).
  destruct (in_int64 z) eqn:Hz.
  - left. by exists z.
  - right. intros (z' & [= <-] & ?). congruence.
Defined.

#[global] Instance float_cell_dec (v : json) : Decision (exists f, v = JFloat f).
Proof.
  destruct v as [| | |f| | |]; try (right; by intros (f' & ?)).
  left. by exists f.
Defined.

(** The column [c] of the table holds integers of 64 bits only, or floats
    only, as a numeric column read by pandas does. *)
Definition number_column (c : string) (df : DataFrame) : Prop :=
  Forall (fun r => int_id (cell r c)) (rows df) \/
  Forall (fun r => exists f, cell r c = JFloat f) (rows df).




(** [total_km] is a number, not [NaN], and at least 1. *)
Definition at_least_1km (r : gmap string json) : Prop :=
  exists x, to_float (cell r "total_km") = Ok x /\ is_nan x = false /\
            PrimFloat.leb 1 x = true.

#[global] Instance at_least_1km_dec r : Decision (at_least_1km r).
Proof.
  unfold at_least_1km.
  destruct (to_float (cell r "total_km")) as [x|e] eqn:E.
  - destruct (is_nan x) eqn:N.
    + right. intros (y & Hy & Hn & _). congruence.
    + destruct (PrimFloat.leb 1 x) eqn:L.
      * left. exists x. auto.
      * right. intros (y & Hy & _ & Hl). congruence.
  - right. intros (y & Hy & _). congruence.
Defined.

(** [part] holds the rows of [full] whose [total_km] is at least 1: the
    same columns, and those rows in the order of [full]. *)
Definition filtered_of (full part : DataFrame) : Prop :=
  columns part = columns full /\
  rows part = filter at_least_1km (rows full) /\
  rows part `sublist_of` rows full.

(** ** The index sort

    What numpy's [argsort] promises whatever its [kind]: the result is a
    permutation of the positions, and reading the keys in that order gives
    them in ascending order.  pandas passes it keys that are not [NaN]. *)

Definition argsort_perm (argsort : list float -> list nat) : Prop :=
  forall l, argsort l ≡ₚ seq 0 (length l).

Definition argsort_sorted (argsort : list float -> list nat) : Prop :=
  forall l, Forall (fun x => is_nan x = false) l ->
    StronglySorted (fun x y => PrimFloat.leb x y = true) (take_rows (argsort l) l).

(** The order of a sorted column: ascending or descending, [NaN] last. *)
Definition nan_last_le (x y : float) : bool := is_nan y || PrimFloat.leb x y.

Definition nan_last_ge (x y : float) : bool := is_nan y || PrimFloat.leb y x.

#[global] Instance float_inhabited : Inhabited float := populate 0%float.

Definition index_le (l : list float) (i j : nat) : Prop :=
  nan_last_le (l !!! i) (l !!! j) = true.

#[global] Instance index_le_dec l : RelDecision (index_le l).
Proof. intros i j. unfold index_le. apply _. Defined.

(** An index sort that meets the contract: the positions, merge-sorted by
    their keys. *)
Definition merge_argsort (l : list float) : list nat :=
  merge_sort (index_le l) (seq 0 (length l)).

(** ** numpy's quicksort

    The index sort numpy runs by default where it has no vectorised one:
    [aquicksort] of [npysort/quicksort.cpp], an introsort.  A slice of more
    than seventeen positions is partitioned around the median of its first,
    middle and last key; a shorter one is sorted by insertion; heap sort
    takes over when the partitioning goes deeper than twice the binary
    logarithm of the length.  Positions are counted from 0 in the list
    [t] of indices, and the loops run on fuel that the length bounds. *)

(** [a < b] on keys, a [NaN] above every number. *)
Definition flt (a b : float) : bool :=
  PrimFloat.ltb a b || (is_nan b && negb (is_nan a)).

Section Quicksort.

Variable v : list float.

(** [v[tosort[i]]] *)
Definition key_at (t : list nat) (i : nat) : float := v !!! (t !!! i).

(** [INTP_SWAP(tosort[i], tosort[j])] *)
Definition swap (t : list nat) (i j : nat) : list nat :=
  <[i := t !!! j]> (<[j := t !!! i]> t).

Definition swap_if_less (t : list nat) (i j : nat) : list nat :=
  if flt (key_at t i) (key_at t j) then swap t i j else t.

(** [do ++pi; while (v[*pi] < vp);] *)
Fixpoint scan_up (fuel : nat) (t : list nat) (vp : float) (pi : nat) : nat :=
  match fuel with
  | 0 => pi
  | S fuel' =>
      if flt (key_at t (S pi)) vp then scan_up fuel' t vp (S pi) else S pi
  end.

(** [do --pj; while (vp < v[*pj]);] *)
Fixpoint scan_down (fuel : nat) (t : list nat) (vp : float) (pj : nat) : nat :=
  match fuel with
  | 0 => pj
  | S fuel' =>
      if flt vp (key_at t (pred pj)) then scan_down fuel' t vp (pred pj) else pred pj
  end.

Fixpoint partition (fuel : nat) (t : list nat) (vp : float) (pi pj : nat)
    : list nat * nat :=
  match fuel with
  | 0 => (t, pi)
  | S fuel' =>
      let pi' := scan_up (length t) t vp pi in
      let pj' := scan_down (length t) t vp pj in
      if (pj' <=? pi')%nat then (t, pi')
      else partition fuel' (swap t pi' pj') vp pi' pj'
  end.

(** [while (pj > pl && vp < v[*pk]) *pj-- = *pk--;] *)
Fixpoint shift_up (fuel : nat) (t : list nat) (vp : float) (pl pj : nat)
    : list nat * nat :=
  match fuel with
  | 0 => (t, pj)
  | S fuel' =>
      if (pl <? pj)%nat && flt vp (key_at t (pred pj))
      then shift_up fuel' (<[pj := t !!! pred pj]> t) vp pl (pred pj)
      else (t, pj)
  end.

Fixpoint insertion (fuel : nat) (t : list nat) (pl pr pi : nat) : list nat :=
  match fuel with
  | 0 => t
  | S fuel' =>
      if (pi <=? pr)%nat then
        let vi := t !!! pi in
        let '(t', pj) := shift_up (length t) t (v !!! vi) pl pi in
        insertion fuel' (<[pj := vi]> t') pl pr (S pi)
      else t
  end.

(** The heap sort of the slice of [n] positions that starts at [pl]; [a i]
    is its position [i], counted from 1. *)
Fixpoint sift (fuel : nat) (t : list nat) (pl tmp n i j : nat) : list nat :=
  match fuel with
  | 0 => <[pl + i - 1 := tmp]> t
  | S fuel' =>
      if (j <=? n)%nat then
        let j' := if (j <? n)%nat && flt (key_at t (pl + j - 1)) (key_at t (pl + j))
                  then S j else j in
        if flt (v !!! tmp) (key_at t (pl + j' - 1))
        then sift fuel' (<[pl + i - 1 := t !!! (pl + j' - 1)]> t) pl tmp n j' (j' + j')
        else <[pl + i - 1 := tmp]> t
      else <[pl + i - 1 := tmp]> t
  end.

Fixpoint heapify (l : nat) (t : list nat) (pl n : nat) : list nat :=
  match l with
  | 0 => t
  | S l' => heapify l' (sift (length t) t pl (t !!! (pl + l - 1)) n l (l * 2)) pl n
  end.

Fixpoint heap_pop (fuel : nat) (t : list nat) (pl n : nat) : list nat :=
  match fuel with
  | 0 => t
  | S fuel' =>
      if (1 <? n)%nat then
        let tmp := t !!! (pl + n - 1) in
        let t1 := <[pl + n - 1 := t !!! pl]> t in
        heap_pop fuel' (sift (length t) t1 pl tmp (n - 1) 1 2) pl (n - 1)
      else t
  end.

Definition aheapsort (t : list nat) (pl n : nat) : list nat :=
  heap_pop n (heapify (n / 2) t pl n) pl n.

(** One pass of [while ((pr - pl) > SMALL_QUICKSORT)]: the median of three
    goes to [pr - 1], the slice is partitioned around it, the larger part
    is pushed on the stack and the smaller one is next. *)
Definition SMALL_QUICKSORT : nat := 16.

Fixpoint quick (fuel : nat) (t : list nat) (pl pr : nat) (cdepth : Z)
    (stack : list (nat * nat * Z)) : list nat * nat * nat * list (nat * nat * Z) :=
  match fuel with
  | 0 => (t, pl, pr, stack)
  | S fuel' =>
      if (SMALL_QUICKSORT <? pr - pl)%nat then
        let pm := pl + (pr - pl) / 2 in
        let t1 := swap_if_less t pm pl in
        let t2 := swap_if_less t1 pr pm in
        let t3 := swap_if_less t2 pm pl in
        let vp := key_at t3 pm in
        let t4 := swap t3 pm (pr - 1) in
        let '(t5, pi) := partition (length t) t4 vp pl (pr - 1) in
        let t6 := swap t5 pi (pr - 1) in
        if (pi - pl <? pr - pi)%nat
        then quick fuel' t6 pl (pi - 1) (cdepth - 1) ((S pi, pr, (cdepth - 1)%Z) :: stack)
        else quick fuel' t6 (S pi) pr (cdepth - 1) ((pl, pi - 1, (cdepth - 1)%Z) :: stack)
      else (t, pl, pr, stack)
  end.

Fixpoint aquicksort_loop (fuel : nat) (t : list nat) (pl pr : nat) (cdepth : Z)
    (stack : list (nat * nat * Z)) : list nat :=
  match fuel with
  | 0 => t
  | S fuel' =>
      let '(t', stack') :=
        if (cdepth <? 0)%Z then (aheapsort t pl (S pr - pl), stack)
        else
          let '(t1, pl1, pr1, stack1) := quick (length t) t pl pr cdepth stack in
          (insertion (length t) t1 pl1 pr1 (S pl1), stack1) in
      match stack' with
      | [] => t'
      | (pl2, pr2, d2) :: rest => aquicksort_loop fuel' t' pl2 pr2 d2 rest
      end
  end.

End Quicksort.

(** [np.argsort(v)]: the positions of [v], sorted by their keys. *)
Definition npy_argsort (v : list float) : list nat :=
  let n := length v in
  aquicksort_loop v (S n) (seq 0 n) 0 (n - 1) (2 * Z.log2 (Z.of_nat n)) [].

(** [r] comes no later than [r'] in ascending order of the column [key],
    missing keys last. *)
Definition km_le (key : string) (r r' : gmap string json) : Prop :=
  exists x y, to_float (cell r key) = Ok x /\ to_float (cell r' key) = Ok y /\
              nan_last_le x y = true.

(** The table is in descending order of [key], missing keys last. *)
Definition sorted_desc (key : string) (df : DataFrame) : Prop :=
  exists ks, mapM to_float (map (fun r => cell r key) (rows df)) = Ok ks /\
             StronglySorted (fun x y => nan_last_ge x y = true) ks.

(** ** Stages of the two aggregators *)

(** Lines 126-138: the joined table with its derived columns, before the
    sort. *)
Definition segment_metrics (all_list : list pydict) (road_segments : DataFrame)
    : res DataFrame :=
  joined ← join_segments all_list road_segments;
  d0 ← assign "total_km" col_sub "to_km" "from_km" joined;
  add_metrics d0.

(** Lines 169-178: the road rows with their derived columns, before the
    sort. *)
Definition road_metrics (argsort : list float -> list nat) (df_total : DataFrame)
    : res DataFrame :=
  groups ← road_groups argsort df_total; add_metrics groups.

(** ** Road rows *)

(** [v] is the name in column [c] of the first (or last) row of the group [g]
    in ascending order of [key], among the rows that have a name. *)
Definition boundary_name (c key : string) (lowest : bool)
    (g : list (gmap string json)) (v : json) : Prop :=
  (Forall (fun r => is_missing (cell r c) = true) g /\ v = NaN) \/
  (exists r, r ∈ g /\ is_missing (cell r c) = false /\ v = cell r c /\
     forall r', r' ∈ g -> is_missing (cell r' c) = false ->
       if lowest then km_le key r r' else km_le key r' r).

(** The sum of integers. *)
Definition int_sum (zs : list Z) : Z := foldr Z.add 0%Z zs.

(** Kahan's compensated sum of floats: next to the running sum goes the
    rounding error of the last addition, which is taken off the next
    term. *)
Definition compensated_step (st : float * float) (x : float) : float * float :=
  let y := (x - st.2)%float in
  let t := (st.1 + y)%float in
  let c := (t - st.1 - y)%float in
  (t, if is_nan c then 0%float else c).

Definition compensated_sum (xs : list float) : float :=
  (fold_left compensated_step xs (0%float, 0%float)).1.

(** [v] is the sum of the cells [part], which are cells of the column
    [whole].  A column of 64-bit integers is added in 64-bit arithmetic: the
    sum wraps around, and is the sum of the integers when that is in range.
    A column of floats is added by the compensated sum, the [NaN]s left
    out. *)
Definition summed (whole part : list json) (v : json) : Prop :=
  (forall zs, whole = JInt <$> zs -> Forall (fun z => in_int64 z = true) zs ->
     exists ps, part = JInt <$> ps /\
       v = JInt (wrap64 (int_sum ps)) /\
       (in_int64 (int_sum ps) = true -> v = JInt (int_sum ps))) /\
  (forall fs, whole = JFloat <$> fs ->
     exists ps, part = JFloat <$> ps /\
       v = JFloat (compensated_sum (filter (fun x => is_nan x = false) ps))).

(** What a road row holds: the sums over the segment rows of its road, and
    the two boundary names. *)
Definition road_row_ok (df_total : DataFrame) (ρ : gmap string json) : Prop :=
  let g := members "road" (cell ρ "road") df_total in
  g ≠ [] /\ is_missing (cell ρ "road") = false /\
  (forall c, c ∈ agg_columns -> c ∈ columns df_total ->
     summed (column c (rows df_total)) (column c g) (cell ρ c)) /\
  boundary_name "from_name" "from_km" true g (cell ρ "from_name") /\
  boundary_name "to_name" "to_km" false g (cell ρ "to_name").

(** ** The two halves of [process_data] *)

Section Stages.

Variable json_loads : string -> option json.
Variable argsort : list float -> list nat.
Variable can_write : string -> bool.

(** Lines 85-150 of [process_data]: everything before the first write. *)
Definition segments_stage (metadata : json) (fs : Files) : res (json * json * DataFrame) :=
  df0 ← (read_csv INFOGRAPHICS_CSV fs).2;
  df ← apply_converter json_loads "data" df0;
  dates_comment ← get_method metadata "dates_comment" (JObj []);
  dr ← get_method dates_comment "date_range" (JArr []);
  lu ← get_method dates_comment "last_update" (JStr "");
  _ ← getitem0 dr;
  road_segments ← (read_csv ROAD_SEGMENTS_CSV fs).2;
  datas ← match rows df with [] => Ok [] | _ => get_col "data" df end;
  all_list ← extract_all datas;
  df_total ← segment_table argsort all_list road_segments;
  Ok (dr, lu, df_total).

(** Lines 152-193: the four writes and what is computed between them. *)
Definition outputs_stage (dr lu : json) (df_total : DataFrame) : io summary :=
  _ ← to_csv can_write ALL_SEGMENTS df_total;
  df_total_over_km ← lift (loc_ge1 "total_km" df_total);
  _ ← to_csv can_write ALL_SEGMENTS_1KM df_total_over_km;
  df_roads ← lift (road_table argsort df_total);
  _ ← to_csv can_write ALL_ROADS df_roads;
  df_roads_over_km ← lift (loc_ge1 "total_km" df_roads);
  _ ← to_csv can_write ALL_ROADS_1KM df_roads_over_km;
  mret (mkSummary (length (rows df_total)) (length (rows df_total_over_km))
                  (length (rows df_roads)) (length (rows df_roads_over_km)) dr lu).

End Stages.

(** ** Files and outcomes of a run *)

(** The four tables [process_data] writes. *)
Definition output_paths : list string :=
  [ALL_SEGMENTS; ALL_SEGMENTS_1KM; ALL_ROADS; ALL_ROADS_1KM].

(** The run reached the report: both downloads and the processing
    succeeded. *)
Definition is_report (o : outcome) : bool :=
  match o with Processed (Ok _) => true | _ => false end.

(** The columns of the road table computed from the segment table
    [df_total]: the group key, the count columns the segment table has, the
    two names and the three derived columns. *)
Definition road_columns (df_total : DataFrame) : list string :=
  ("road" :: filter (fun c => c ∈ columns df_total) agg_columns
   ++ ["from_name"; "to_name"; "fatal_severe_accidents";
       "fatal_severe_accidents_per_km"; "fatal_accidents_per_km"])%list.

(** Every row has a cell in the column [key]. *)
Definition keyed (key : string) (df : DataFrame) : Prop :=
  Forall (fun r : gmap string json => is_Some (r !! key)) (rows df).

(** ** Fields of a record *)

(** The field [k] of [a | b | c]: that of the rightmost operand that has
    it. *)
Definition rightmost (k : string) (a b c : pydict) : option json :=
  match dict_get k c with
  | Some v => Some v
  | None => match dict_get k b with
            | Some v => Some v
            | None => dict_get k a
            end
  end.

(** ** What the preview shows *)

(** What a tab shows of the table [t]: all its columns, the key columns
    first and the others in the order of [t]; all its rows, in descending
    order of the ratio. *)
Definition shows (key_cols : list string) (t shown : DataFrame) : Prop :=
  columns shown = (key_cols ++ filter (fun c => c ∉ key_cols) (columns t))%list /\
  columns shown ≡ₚ columns t /\
  rows shown ≡ₚ restrict (columns shown) <$> rows t /\
  sorted_desc "fatal_severe_accidents_per_km" shown.

(** * Worked data

    Small inputs on which the pipeline is evaluated: the two-segment
    scenario of the specification and variations of it.  The statistics
    source gives each row's [data] field as a string; here the string is the
    name of a document and [table_loads] decodes it by looking the document
    up. *)

Definition table_loads (docs : pydict) (s : string) : option json := dict_get s docs.

Definition from_ok {A} (dflt : A) (m : res A) : A :=
  match m with Ok a => a | Raise _ => dflt end.

(** The cells of the named columns, row by row. *)
Definition view (cols : list string) (df : DataFrame) : list (list json) :=
  map (fun r => map (cell r) cols) (rows df).

Definition always (p : string) : bool := true.

(** The rows of the responses below are lists of objects, so the table of
    rows of another shape is never asked for. *)
Definition no_frame (rs : json) : res DataFrame := Raise ValueError.


(** ** Documents of the two sources *)

Definition widget (name : string) (items : pydict) : json :=
  JObj [("name", JStr name); ("data", JObj [("items", JObj items)])].

Definition accidents (fatal severe : Z) : json :=
  widget "accident_count_by_severity"
    [("severity_fatal_count", JInt fatal); ("severity_severe_count", JInt severe);
     ("start_year", JInt 2019); ("end_year", JInt 2023)].

Definition injured (killed : Z) : json :=
  widget "injured_count_by_severity"
    [("killed_count", JInt killed); ("start_year", JInt 2019); ("end_year", JInt 2023)].

Definition meta_of (id : Z) (name : string) : json :=
  JObj [("location_info",
         JObj [("road_segment_id", JInt id); ("road_segment_name", JStr name)]);
        ("dates_comment",
         JObj [("date_range", JArr [JInt 2019; JInt 2023]);
               ("last_update", JStr "2024-01-01T00:00:00Z")])].

Definition statistics (id : Z) (name : string) (fatal severe : Z) : json :=
  JObj [("meta", meta_of id name);
        ("widgets", JArr [accidents fatal severe; injured fatal])].

Definition reference (id : Z) (road : string) (from_km : float) (from_name : json)
    (to_km : float) (to_name : json) : json :=
  JObj [("segment_id", JInt id); ("road", JStr road); ("from_km", JFloat from_km);
        ("from_name", from_name); ("to_km", JFloat to_km); ("to_name", to_name)].

(** A Redash response with the given rows. *)
Definition redash (rs : list json) : res json :=
  Ok (JObj [("query_result", JObj [("data", JObj [("rows", JArr rs)])])]).

Definition stat_row (doc : string) : json := JObj [("data", JStr doc)].

(** The table [pd.DataFrame(rows)] of a Redash response. *)
Definition table_of (rs : res json) : DataFrame :=
  match rs with
  | Ok (JObj [(_, JObj [(_, JObj [(_, JArr l)])])]) =>
      DataFrame_of (omap (fun x => match x with JObj d => Some d | _ => None end) l)
  | _ => mkDF [] []
  end.

(** ** Two segments of road A1 *)

Definition demo_docs : pydict :=
  [("doc1", statistics 1 "X - Y" 1 1); ("doc2", statistics 2 "Y - Z" 0 2)].

Definition demo_loads : string -> option json := table_loads demo_docs.

Definition demo_segments : res json :=
  redash [reference 1 "A1" 0 (JStr "X") 2 (JStr "Y");
          reference 2 "A1" 2 (JStr "Y") 5 (JStr "Z")].

Definition demo_statistics : res json := redash [stat_row "doc1"; stat_row "doc2"].

Definition demo_metadata : json := meta_of 1 "X - Y".

(** The whole run, from the two responses and no file. *)
Definition demo_run (can_write : string -> bool) : Files * outcome :=
  run demo_loads merge_argsort can_write no_frame demo_segments demo_statistics ∅.

Definition demo_records : list pydict :=
  from_ok [] (extract_all (map snd demo_docs)).

Definition demo_reference : DataFrame := table_of demo_segments.

Definition demo_total : DataFrame :=
  from_ok (mkDF [] []) (segment_table merge_argsort demo_records demo_reference).

Definition demo_roads : DataFrame :=
  from_ok (mkDF [] []) (road_table merge_argsort demo_total).

(** The files after the two downloads, and the processing run on them. *)
Definition demo_sources : Files :=
  (download_and_save_csv demo_loads always no_frame demo_statistics INFOGRAPHICS_CSV
     (download_and_save_csv demo_loads always no_frame demo_segments ROAD_SEGMENTS_CSV ∅).1).1.

Definition demo_processed : Files * res summary :=
  process_data demo_loads merge_argsort always demo_metadata demo_sources.

Definition demo_summary : summary :=
  mkSummary 2 2 1 1 (JArr [JInt 2019; JInt 2023]) (JStr "2024-01-01T00:00:00Z").

(** ** Rows with a repeated and with a missing widget *)

Definition dup_row : json :=
  JObj [("meta", meta_of 7 "dup");
        ("widgets", JArr [accidents 1 1; accidents 9 9; injured 1])].

Definition no_injured_row : json :=
  JObj [("meta", meta_of 8 "short"); ("widgets", JArr [accidents 1 1])].

(** ** Thirty segments of one kilometre, with three ratios

    Segment [i + 1] goes from kilometre [i] to [i + 1] and has [i mod 3]
    fatal accidents. *)

Definition shuffle_size : nat := 30.

Definition shuffle_records : list pydict :=
  from_ok [] (extract_all
    (map (fun i => statistics (Z.of_nat i + 1) "s" (Z.of_nat i mod 3) 0)
         (seq 0 shuffle_size))).

Definition shuffle_reference : DataFrame :=
  table_of (redash
    (map (fun i => reference (Z.of_nat i + 1) "A1" (Z2float (Z.of_nat i)) (JStr "P")
                     (Z2float (Z.of_nat i + 1)) (JStr "Q"))
         (seq 0 shuffle_size))).

(** The table before the sort of line 141 and after it. *)
Definition shuffle_before : DataFrame :=
  from_ok (mkDF [] []) (segment_metrics shuffle_records shuffle_reference).

Definition shuffle_total : DataFrame :=
  from_ok (mkDF [] []) (segment_table npy_argsort shuffle_records shuffle_reference).

(** ** Counts whose sum does not fit 64 bits *)

Definition huge_records : list pydict :=
  from_ok [] (extract_all [statistics 1 "X - Y" (2 ^ 62) (2 ^ 62)]).

Definition huge_total : DataFrame :=
  from_ok (mkDF [] []) (segment_table merge_argsort huge_records demo_reference).

(** ** Identifiers that are strings in the statistics *)



(** ** A widget with a [segment_id] item of its own *)




(** ** A [killed_count] that is a number in one row and a string in the other *)



(** ** A statistics row whose document has no [meta] *)





(** ** A segment of length zero *)





(** ** A first segment without a [from_name] *)

Definition gap_reference : DataFrame :=
  table_of (redash [reference 1 "A1" 0 JNull 2 (JStr "Y");
                    reference 2 "A1" 2 (JStr "Y") 5 (JStr "Z")]).

(** ** Downloads *)

(** A response with the expected structure and no row. *)
Definition empty_response : json :=
  JObj [("query_result", JObj [("data", JObj [("rows", JArr [])])])].

Definition one_statistics_row : DataFrame := DataFrame_of [[("data", JStr "doc1")]].

Definition segments_download : Files * (bool * json) :=
  download_and_save_csv demo_loads always no_frame demo_segments ROAD_SEGMENTS_CSV ∅.

Definition statistics_download : Files * (bool * json) :=
  download_and_save_csv demo_loads always no_frame demo_statistics INFOGRAPHICS_CSV ∅.

Definition demo_record : pydict :=
  from_ok [] (extract_record (statistics 1 "X - Y" 1 1)).

(** * Proofs *)

(** A decidable closed proposition, and a closed equation, by evaluation. *)
Ltac by_compute := apply (bool_decide_unpack _); vm_compute; exact I.

Ltac computed := vm_compute; reflexivity.

(** ** The error monad and the Record Extractor *)

Lemma res_bind_Ok {A B} (m : res A) (f : A -> res B) b :
  m ≫= f = Ok b -> exists a, m = Ok a /\ f a = Ok b.
Proof. destruct m as [a|e]; simpl; [eauto | discriminate]. Qed.

Lemma is_ok_false {A} (m : res A) : is_ok m = false <-> exists e, m = Raise e.
Proof. destruct m; simpl; split; eauto; try discriminate. intros [? ?]; discriminate. Qed.

Lemma is_ok_true {A} (m : res A) : is_ok m = true <-> exists a, m = Ok a.
Proof. destruct m; simpl; split; eauto; try discriminate. intros [? ?]; discriminate. Qed.

Lemma mapM_Ok_inv {A B} (f : A -> res B) l k :
  mapM f l = Ok k -> Forall2 (fun x y => f x = Ok y) l k.
Proof.
  revert k. induction l as [|x l IH]; simpl; intros k H.
  - injection H as <-. constructor.
  - apply res_bind_Ok in H as (y & Hy & H).
    apply res_bind_Ok in H as (k' & Hk & H).
    injection H as <-. constructor; auto.
Qed.

Lemma mapM_Ok_intro {A B} (f : A -> res B) l k :
  Forall2 (fun x y => f x = Ok y) l k -> mapM f l = Ok k.
Proof.
  induction 1 as [|x y l k Hxy _ IH]; simpl; [done|].
  rewrite Hxy. simpl. rewrite IH. done.
Qed.

Lemma mapM_fails {A B} (f : A -> res B) l x :
  x ∈ l -> is_ok (f x) = false -> is_ok (mapM f l) = false.
Proof.
  intros Hin Hx. destruct (mapM f l) as [k|e] eqn:E; [|done].
  apply mapM_Ok_inv in E.
  apply list_elem_of_lookup in Hin as [i Hi].
  destruct (Forall2_lookup_l _ _ _ _ _ E Hi) as (y & _ & Hy).
  rewrite Hy in Hx. done.
Qed.

Lemma widget_items_none name ws its :
  widget_items name ws = Ok its ->
  filter (fun w => is_named name w = true) ws = [] -> its = [].
Proof.
  revert its. induction ws as [|w ws IH]; simpl; intros its H F.
  - congruence.
  - destruct (is_named name w) eqn:Ew.
    + rewrite filter_cons_True in F by done. done.
    + rewrite filter_cons_False in F by (rewrite Ew; done).
      unfold is_named in Ew.
      destruct (getitem w "name") as [n|e]; simpl in H; [|done].
      rewrite Ew in H. eauto.
Qed.

Lemma widget_items_first name ws its w :
  widget_items name ws = Ok its ->
  head (filter (fun w => is_named name w = true) ws) = Some w ->
  exists it rest, its = it :: rest /\ (getitem w "data" ≫= fun x => getitem x "items") = Ok it.
Proof.
  revert its. induction ws as [|w' ws IH]; simpl; intros its H F.
  - done.
  - destruct (is_named name w') eqn:Ew.
    + rewrite filter_cons_True in F by done. simpl in F. injection F as <-.
      unfold is_named in Ew.
      destruct (getitem w' "name") as [n|e]; simpl in H; [|done].
      rewrite Ew in H.
      apply res_bind_Ok in H as (d & Hd & H).
      apply res_bind_Ok in H as (it & Hit & H).
      apply res_bind_Ok in H as (rest & Hrest & H).
      injection H as <-. exists it, rest. split; [done|]. rewrite Hd. simpl. done.
    + rewrite filter_cons_False in F by (rewrite Ew; done).
      unfold is_named in Ew.
      destruct (getitem w' "name") as [n|e]; simpl in H; [|done].
      rewrite Ew in H. eauto.
Qed.

Lemma widget_dict_absent name data :
  occurrences name data = 0 -> is_ok (widget_dict name data) = false.
Proof.
  unfold occurrences, widgets_of, widget_dict. intros H.
  destruct (getitem data "widgets") as [wj|e]; simpl in *; [|done].
  destruct (py_iter wj) as [ws|e]; simpl in *; [|done].
  destruct (widget_items name ws) as [its|e] eqn:E; simpl; [|done].
  apply length_zero_iff_nil in H.
  rewrite (widget_items_none _ _ _ E H). done.
Qed.

Lemma widget_dict_first name data w d :
  widget_dict name data = Ok d ->
  head (filter (fun w => is_named name w = true) (widgets_of data)) = Some w ->
  exists items, (getitem w "data" ≫= fun x => getitem x "items") = Ok items
                /\ py_dict items = Ok d.
Proof.
  unfold widgets_of, widget_dict. intros H F.
  destruct (getitem data "widgets") as [wj|e]; simpl in *; [|done].
  destruct (py_iter wj) as [ws|e]; simpl in *; [|done].
  destruct (widget_items name ws) as [its|e] eqn:E; simpl in *; [|done].
  destruct (widget_items_first _ _ _ _ E F) as (it & rest & -> & Hit).
  eauto.
Qed.

Lemma extract_record_inv data rec :
  extract_record data = Ok rec ->
  exists acc inj, widget_dict "accident_count_by_severity" data = Ok acc
               /\ widget_dict "injured_count_by_severity" data = Ok inj.
Proof.
  unfold extract_record. intros H.
  repeat (apply res_bind_Ok in H as (? & ? & H)). eauto.
Qed.

Lemma extract_record_absent name data :
  name ∈ widget_names -> occurrences name data = 0 ->
  is_ok (extract_record data) = false.
Proof.
  intros Hn H0. destruct (extract_record data) as [rec|e] eqn:E; [|done].
  apply extract_record_inv in E as (acc & inj & Ha & Hi).
  apply widget_dict_absent in H0.
  unfold widget_names in Hn. 
  apply elem_of_cons in Hn as [->|Hn]; [rewrite Ha in H0; done|].
  apply elem_of_cons in Hn as [->|Hn]; [rewrite Hi in H0; done|].
  by apply elem_of_nil in Hn.
Qed.

(** The items of the widgets that carry the name, when every widget can be
    read. *)
Lemma widget_items_readable name ws :
  name ∈ widget_names -> Forall readable ws ->
  exists its, widget_items name ws = Ok its /\
    Forall2 (fun w it => items_of w = Ok it)
            (filter (fun w => is_named name w = true) ws) its.
Proof.
  intros Hn. induction 1 as [|w ws [Hname Hitems] _ (its & IH & F)].
  - exists []. split; [done|constructor].
  - simpl. specialize (Hitems name Hn). unfold is_named in *.
    destruct (getitem w "name") as [n|] eqn:En; [|done]. simpl.
    destruct (json_is_str n name) eqn:Es.
    + rewrite filter_cons_True by (by rewrite En).
      specialize (Hitems eq_refl). unfold items_of in *.
      destruct (getitem w "data") as [d|] eqn:Ed; [|done]. simpl in *.
      destruct (getitem d "items") as [it|] eqn:Ei; [|done]. simpl.
      rewrite IH. simpl. exists (it :: its). split; [done|].
      constructor; [|done]. by rewrite Ed.
    + rewrite filter_cons_False by (by rewrite En, Es). eauto.
Qed.

Lemma widget_dict_readable name data ws :
  name ∈ widget_names -> (getitem data "widgets" ≫= py_iter) = Ok ws ->
  Forall readable ws ->
  widget_dict name data =
    match first_named name ws with
    | None => Raise IndexError
    | Some w => items_of w ≫= py_dict
    end.
Proof.
  intros Hn Hws Hr. unfold widget_dict, first_named.
  apply res_bind_Ok in Hws as (wj & Hw & Hi). rewrite Hw. simpl. rewrite Hi. simpl.
  destruct (widget_items_readable name ws Hn Hr) as (its & -> & F). simpl.
  destruct F as [|w it ? ? Hit _]; simpl; [done|]. by rewrite Hit.
Qed.

(** The record of a row whose location fields and widgets can be read. *)
Lemma extract_record_readable data li id nm ws :
  location_info data = Ok li ->
  getitem li "road_segment_id" = Ok id -> getitem li "road_segment_name" = Ok nm ->
  (getitem data "widgets" ≫= py_iter) = Ok ws -> Forall readable ws ->
  extract_record data =
    acc ← match first_named "accident_count_by_severity" ws with
          | None => Raise IndexError
          | Some w => items_of w ≫= py_dict
          end;
    inj ← match first_named "injured_count_by_severity" ws with
          | None => Raise IndexError
          | Some w => items_of w ≫= py_dict
          end;
    Ok (dict_or (dict_or [("road_segment_id", id); ("road_segment_name", nm)] acc) inj).
Proof.
  intros Hli Hid Hnm Hws Hr. unfold extract_record.
  unfold location_info in Hli. apply res_bind_Ok in Hli as (m & Hm & Hli).
  rewrite Hm. simpl. rewrite Hli. simpl. rewrite Hid. simpl. rewrite Hnm. simpl.
  rewrite (widget_dict_readable "accident_count_by_severity" data ws) by (done || by_compute).
  by rewrite (widget_dict_readable "injured_count_by_severity" data ws) by (done || by_compute).
Qed.

Lemma first_named_absent name data ws :
  (getitem data "widgets" ≫= py_iter) = Ok ws ->
  occurrences name data = 0 -> first_named name ws = None.
Proof.
  unfold occurrences, widgets_of, first_named. intros -> H.
  apply length_zero_iff_nil in H. by rewrite H.
Qed.

(** ** Binary64 comparisons *)

Lemma float_SFleb_rank f1 f2 :
  SFleb f1 f2 = true <-> not_nan f1 /\ not_nan f2 /\ lex_le (sf_rank f1) (sf_rank f2).
Proof.
  unfold SFleb, lex_le.
  destruct f1 as [s1|s1| |s1 m1 e1], f2 as [s2|s2| |s2 m2 e2]; simpl;
    try destruct s1; try destruct s2; simpl;
    try (split; [intros; try discriminate; repeat split; try exact I; lia
                | intros (? & ? & ?); try reflexivity; try contradiction; lia]).
  - change (PosDef.Pos.compare_cont Eq m1 m2) with (Pos.compare m1 m2).
    destruct (Z.compare_spec e1 e2); simpl;
      [destruct (Pos.compare_spec m1 m2); simpl|..];
      (split; [intros; try discriminate; repeat split; try exact I; lia
              | intros (? & ? & ?); try reflexivity; lia]).
  - change (PosDef.Pos.compare_cont Eq m1 m2) with (Pos.compare m1 m2).
    destruct (Z.compare_spec e1 e2); simpl;
      [destruct (Pos.compare_spec m1 m2); simpl|..];
      (split; [intros; try discriminate; repeat split; try exact I; lia
              | intros (? & ? & ?); try reflexivity; lia]).
Qed.

Lemma float_SFeqb_rank f1 f2 :
  SFeqb f1 f2 = true <-> not_nan f1 /\ not_nan f2 /\ sf_rank f1 = sf_rank f2.
Proof.
  unfold SFeqb.
  destruct f1 as [s1|s1| |s1 m1 e1], f2 as [s2|s2| |s2 m2 e2]; simpl;
    try destruct s1; try destruct s2; simpl;
    try (split; [intros; try discriminate; repeat split; try exact I
                | intros (? & ? & ?); try reflexivity; try contradiction; congruence]).
  - change (PosDef.Pos.compare_cont Eq m1 m2) with (Pos.compare m1 m2).
    destruct (Z.compare_spec e1 e2); simpl;
      [destruct (Pos.compare_spec m1 m2); simpl|..];
      (split; [intros; try discriminate; repeat split; try exact I; f_equal; try f_equal; lia
              | intros (? & ? & E); try reflexivity; inversion E; lia]).
  - change (PosDef.Pos.compare_cont Eq m1 m2) with (Pos.compare m1 m2).
    destruct (Z.compare_spec e1 e2); simpl;
      [destruct (Pos.compare_spec m1 m2); simpl|..];
      (split; [intros; try discriminate; repeat split; try exact I; f_equal; try f_equal; lia
              | intros (? & ? & E); try reflexivity; inversion E; lia]).
Qed.

Lemma float_is_nan_spec (x : float) : is_nan x = false <-> not_nan (Prim2SF x).
Proof.
  unfold is_nan. rewrite FloatAxioms.eqb_spec, negb_false_iff, float_SFeqb_rank. tauto.
Qed.

Lemma float_eqb_refl (x : float) : is_nan x = false -> PrimFloat.eqb x x = true.
Proof. unfold is_nan. now rewrite negb_false_iff. Qed.

Lemma float_eqb_not_nan (x y : float) :
  PrimFloat.eqb x y = true -> is_nan x = false /\ is_nan y = false.
Proof.
  rewrite FloatAxioms.eqb_spec, float_SFeqb_rank, !float_is_nan_spec. tauto.
Qed.

Lemma float_eqb_sym (x y : float) : PrimFloat.eqb x y = PrimFloat.eqb y x.
Proof.
  apply eq_true_iff_eq. rewrite !FloatAxioms.eqb_spec, !float_SFeqb_rank.
  intuition congruence.
Qed.

Lemma float_eqb_trans (x y z : float) :
  PrimFloat.eqb x y = true -> PrimFloat.eqb y z = true -> PrimFloat.eqb x z = true.
Proof.
  rewrite !FloatAxioms.eqb_spec, !float_SFeqb_rank. intuition congruence.
Qed.

Lemma float_leb_not_nan (x y : float) :
  PrimFloat.leb x y = true -> is_nan x = false /\ is_nan y = false.
Proof.
  rewrite FloatAxioms.leb_spec, float_SFleb_rank, !float_is_nan_spec. tauto.
Qed.

Lemma float_leb_total (x y : float) :
  is_nan x = false -> is_nan y = false ->
  PrimFloat.leb x y = true \/ PrimFloat.leb y x = true.
Proof.
  rewrite !FloatAxioms.leb_spec, !float_SFleb_rank, !float_is_nan_spec. unfold lex_le.
  intros Hx Hy.
  destruct (sf_rank (Prim2SF x)) as [[a1 a2] a3], (sf_rank (Prim2SF y)) as [[b1 b2] b3]; simpl.
  assert (H : ((a1 < b1 \/ a1 = b1 /\ (a2 < b2 \/ a2 = b2 /\ a3 <= b3)) \/
              (b1 < a1 \/ b1 = a1 /\ (b2 < a2 \/ b2 = a2 /\ b3 <= a3)))%Z) by lia.
  tauto.
Qed.

Lemma float_leb_trans (x y z : float) :
  PrimFloat.leb x y = true -> PrimFloat.leb y z = true -> PrimFloat.leb x z = true.
Proof.
  rewrite !FloatAxioms.leb_spec, !float_SFleb_rank. unfold lex_le.
  destruct (sf_rank (Prim2SF x)) as [[a1 a2] a3].
  destruct (sf_rank (Prim2SF y)) as [[b1 b2] b3].
  destruct (sf_rank (Prim2SF z)) as [[c1 c2] c3]. simpl.
  intros (? & ? & ?) (? & ? & ?). repeat split; try assumption. lia.
Qed.

Lemma float_leb_refl (x : float) : is_nan x = false -> PrimFloat.leb x x = true.
Proof. intros H. destruct (float_leb_total x x H H); assumption. Qed.

Lemma float_eqb_leb (x y : float) : PrimFloat.eqb x y = true -> PrimFloat.leb x y = true.
Proof.
  rewrite FloatAxioms.eqb_spec, FloatAxioms.leb_spec, float_SFeqb_rank, float_SFleb_rank.
  unfold lex_le. intros (? & ? & ->). repeat split; try assumption. lia.
Qed.




(** ** Tables: cells, columns and the rows a sort keeps *)

Lemma cell_insert_eq (r : gmap string json) c v : cell (<[c := v]> r) c = v.
Proof. unfold cell. by rewrite lookup_insert_eq. Qed.

Lemma cell_insert_ne (r : gmap string json) c c' v :
  c ≠ c' -> cell (<[c := v]> r) c' = cell r c'.
Proof. intros. unfold cell. by rewrite lookup_insert_ne. Qed.

Lemma cell_restrict cols (r : gmap string json) c :
  c ∈ cols -> cell (restrict cols r) c = cell r c.
Proof.
  intros Hc. unfold cell, restrict. f_equal.
  destruct (r !! c) as [v|] eqn:E.
  - apply map_lookup_filter_Some. done.
  - apply map_lookup_filter_None. left. done.
Qed.

Lemma has_col_true c df : has_col c df = true <-> c ∈ columns df.
Proof. unfold has_col. apply bool_decide_eq_true. Qed.

Lemma elem_of_add_col c c' cols : c' ∈ add_col c cols <-> c' = c \/ c' ∈ cols.
Proof.
  unfold add_col. case_bool_decide.
  - split; [auto|]. intros [->|]; done.
  - rewrite elem_of_app, list_elem_of_singleton. tauto.
Qed.

Lemma assign_inv c op a b df df' :
  assign c op a b df = Ok df' ->
  a ∈ columns df /\ b ∈ columns df /\ columns df' = add_col c (columns df) /\
  Forall2 (fun r r' => exists v,
             op (col_dtype a (rows df)) (col_dtype b (rows df)) (cell r a) (cell r b) = Ok v /\
             r' = <[c := v]> r)
          (rows df) (rows df').
Proof.
  unfold assign. intros H.
  destruct (has_col a df) eqn:Ea; simpl in H; [|done].
  destruct (has_col b df) eqn:Eb; simpl in H; [|done].
  apply res_bind_Ok in H as (rs & Hrs & [= <-]).
  apply has_col_true in Ea, Eb. repeat split; try done. simpl.
  apply mapM_Ok_inv in Hrs. eapply Forall2_impl; [exact Hrs|].
  simpl. intros r r' Hr. apply res_bind_Ok in Hr as (v & Hv & [= <-]). eauto.
Qed.

Lemma select_inv cols df df' :
  select cols df = Ok df' ->
  columns df' = cols /\ rows df' = map (restrict cols) (rows df).
Proof.
  unfold select. destruct (list_find _ cols) as [[? ?]|]; [done|].
  intros [= <-]. done.
Qed.

Lemma loc_ge1_inv c df over :
  loc_ge1 c df = Ok over ->
  columns over = columns df /\
  rows over = filter (fun r => ge1b (cell r c) = true) (rows df).
Proof.
  unfold loc_ge1. destruct (has_col c df); simpl; [|done].
  intros H. apply res_bind_Ok in H as (? & _ & [= <-]). done.
Qed.

Section SortMembers.

Variable argsort : list float -> list nat.

Lemma take_rows_elem {A} (idx : list nat) (l : list A) x :
  x ∈ take_rows idx l -> x ∈ l.
Proof.
  unfold take_rows. intros (i & _ & Hi)%list_elem_of_omap.
  by eapply list_elem_of_lookup_2.
Qed.

Lemma sort_rows_elem {A} asc (l : list (A * float)) p :
  p ∈ sort_rows argsort asc l -> p ∈ l.
Proof.
  unfold sort_rows. rewrite elem_of_app. intros [H|H].
  - destruct asc.
    + apply take_rows_elem in H. by apply list_elem_of_filter in H as [_ ?].
    + rewrite elem_of_reverse in H. apply take_rows_elem in H.
      rewrite elem_of_reverse in H.
      by apply list_elem_of_filter in H as [_ ?].
  - by apply list_elem_of_filter in H as [_ ?].
Qed.

Lemma sort_values_inv key asc df df' :
  sort_values argsort key asc df = Ok df' ->
  key ∈ columns df /\ columns df' = columns df /\
  exists fkeys, mapM to_float (map (fun r => cell r key) (rows df)) = Ok fkeys /\
    rows df' = (sort_rows argsort asc (zip (rows df) fkeys)).*1.
Proof.
  unfold sort_values, get_col. intros H.
  destruct (has_col key df) eqn:E; simpl in H; [|done].
  apply res_bind_Ok in H as (fkeys & Hf & [= <-]).
  apply has_col_true in E. eauto.
Qed.

Lemma sort_values_elem key asc df df' r :
  sort_values argsort key asc df = Ok df' -> r ∈ rows df' -> r ∈ rows df.
Proof.
  intros (_ & _ & fkeys & _ & ->)%sort_values_inv.
  intros ([r' f] & -> & Hp%sort_rows_elem)%list_elem_of_fmap.
  by apply elem_of_zip_l in Hp.
Qed.

End SortMembers.

(** ** The derived columns *)

Lemma Forall2_elem_r {A B} (P : A -> B -> Prop) l k y :
  Forall2 P l k -> y ∈ k -> exists x, x ∈ l /\ P x y.
Proof.
  intros HF (i & Hi)%list_elem_of_lookup.
  destruct (Forall2_lookup_r _ _ _ _ _ HF Hi) as (x & Hx & HP).
  exists x. split; [by eapply list_elem_of_lookup_2|done].
Qed.

Lemma Forall2_elem_l {A B} (P : A -> B -> Prop) l k x :
  Forall2 P l k -> x ∈ l -> exists y, y ∈ k /\ P x y.
Proof.
  intros HF (i & Hi)%list_elem_of_lookup.
  destruct (Forall2_lookup_l _ _ _ _ _ HF Hi) as (y & Hy & HP).
  exists y. split; [by eapply list_elem_of_lookup_2|done].
Qed.

(** What the two divisions of [add_metrics] leave in a row, whatever the
    types of the columns. *)
Lemma add_metrics_rows df d3 r3 :
  add_metrics df = Ok d3 -> r3 ∈ rows d3 ->
  (exists ta tb, col_div ta tb (cell r3 "fatal_severe_accidents") (cell r3 "total_km")
                 = Ok (cell r3 "fatal_severe_accidents_per_km")) /\
  (exists ta tb, col_div ta tb (cell r3 "severity_fatal_count") (cell r3 "total_km")
                 = Ok (cell r3 "fatal_accidents_per_km")) /\
  exists r, r ∈ rows df /\
    forall c, c ∉ ["fatal_severe_accidents"; "fatal_severe_accidents_per_km";
                   "fatal_accidents_per_km"] -> cell r3 c = cell r c.
Proof.
  unfold add_metrics. intros H Hr3.
  apply res_bind_Ok in H as (d1 & H1 & H).
  apply res_bind_Ok in H as (d2 & H2 & H3).
  apply assign_inv in H1 as (_ & _ & _ & F1).
  apply assign_inv in H2 as (_ & _ & _ & F2).
  apply assign_inv in H3 as (_ & _ & _ & F3).
  destruct (Forall2_elem_r _ _ _ _ F3 Hr3) as (r2 & Hr2 & v3 & Hv3 & ->).
  destruct (Forall2_elem_r _ _ _ _ F2 Hr2) as (r1 & Hr1 & v2 & Hv2 & ->).
  destruct (Forall2_elem_r _ _ _ _ F1 Hr1) as (r & Hr & v1 & Hv1 & ->).
  rewrite !cell_insert_eq, ?cell_insert_ne in Hv2 by done.
  rewrite ?cell_insert_ne in Hv3 by done.
  split; [|split].
  - rewrite cell_insert_ne, cell_insert_ne, cell_insert_eq by done.
    rewrite cell_insert_ne, cell_insert_ne, cell_insert_ne by done.
    rewrite cell_insert_ne, cell_insert_eq by done. eauto.
  - repeat (rewrite cell_insert_ne by done). rewrite cell_insert_eq. eauto.
  - exists r. split; [done|]. intros c Hc.
    rewrite !cell_insert_ne; [done|..]; intros <-; apply Hc; set_solver.
Qed.

Lemma add_metrics_columns df d3 c :
  add_metrics df = Ok d3 -> c ∈ metric_columns -> c ∈ columns d3.
Proof.
  unfold add_metrics. intros H Hc.
  apply res_bind_Ok in H as (d1 & H1 & H).
  apply res_bind_Ok in H as (d2 & H2 & H3).
  apply assign_inv in H1 as (Ha1 & Hb1 & C1 & _).
  apply assign_inv in H2 as (Ha2 & Hb2 & C2 & _).
  apply assign_inv in H3 as (Ha3 & Hb3 & C3 & _).
  rewrite C3, !elem_of_add_col, C2, !elem_of_add_col, C1, !elem_of_add_col.
  rewrite C2, elem_of_add_col, C1, elem_of_add_col in Hb3.
  unfold metric_columns in Hc.
  repeat (apply elem_of_cons in Hc as [->|Hc]); try apply elem_of_nil in Hc; try done; auto 10.
Qed.

Lemma add_metrics_columns_old df d3 c :
  add_metrics df = Ok d3 -> c ∈ columns df -> c ∈ columns d3.
Proof.
  unfold add_metrics. intros H Hc.
  apply res_bind_Ok in H as (d1 & H1 & H).
  apply res_bind_Ok in H as (d2 & H2 & H3).
  apply assign_inv in H1 as (Ha1 & Hb1 & C1 & _).
  apply assign_inv in H2 as (Ha2 & Hb2 & C2 & _).
  apply assign_inv in H3 as (Ha3 & Hb3 & C3 & _).
  rewrite C3, !elem_of_add_col, C2, !elem_of_add_col, C1, !elem_of_add_col. auto.
Qed.

Lemma metric_columns_selected c : c ∈ metric_columns -> c ∈ segment_columns.
Proof. revert c. apply Forall_forall. by_compute. Qed.

(** ** Column types *)

Lemma in_int64_spec z : in_int64 z = true <-> (- 2 ^ 63 <= z < 2 ^ 63)%Z.
Proof. unfold in_int64. rewrite andb_true_iff, Z.leb_le, Z.ltb_lt. done. Qed.

Lemma wrap64_id z : in_int64 z = true -> wrap64 z = z.
Proof.
  rewrite in_int64_spec. intros H. unfold wrap64.
  rewrite Z.mod_small; lia.
Qed.

Lemma in_int64_wrap z : in_int64 (wrap64 z) = true.
Proof.
  apply in_int64_spec. unfold wrap64.
  pose proof (Z.mod_pos_bound (z + 2 ^ 63) (2 ^ 64) ltac:(lia)). lia.
Qed.

Lemma int_id_wrap z : int_id (JInt (wrap64 z)).
Proof. exists (wrap64 z). split; [done|apply in_int64_wrap]. Qed.

Lemma dtype_of_ints vs : vs ≠ [] -> Forall int_id vs -> dtype_of vs = int64.
Proof.
  intros Hne H. unfold dtype_of.
  destruct vs as [|v vs]; [done|].
  apply Forall_cons in H as [(z & -> & Hz) H].
  replace (forallb is_null (JInt z :: vs)) with false by done.
  replace (forallb is_int64 (JInt z :: vs)) with true; [done|].
  symmetry. simpl. rewrite Hz. simpl. apply forallb_forall.
  intros v Hv%list_elem_of_In. rewrite Forall_forall in H.
  destruct (H v Hv) as (z' & -> & Hz'). done.
Qed.

Lemma dtype_of_floats vs :
  vs ≠ [] -> Forall (fun v => exists f, v = JFloat f) vs -> dtype_of vs = float64.
Proof.
  intros Hne H. unfold dtype_of.
  destruct vs as [|v vs]; [done|].
  apply Forall_cons in H as [(f & ->) H].
  replace (forallb is_null (JFloat f :: vs)) with false by done.
  replace (forallb is_int64 (JFloat f :: vs)) with false by done.
  replace (forallb is_bool (JFloat f :: vs)) with false by done.
  replace (forallb is_number (JFloat f :: vs)) with true; [done|].
  symmetry. simpl. apply forallb_forall.
  intros v Hv%list_elem_of_In. rewrite Forall_forall in H.
  destruct (H v Hv) as (f' & ->). done.
Qed.

Lemma Forall_column (P : json -> Prop) c rs :
  Forall P (column c rs) <-> Forall (fun r => P (cell r c)) rs.
Proof.
  unfold column. rewrite !Forall_forall. split.
  - intros H r Hr. apply H. apply list_elem_of_fmap. eauto.
  - intros H v (r & -> & Hr)%list_elem_of_fmap. auto.
Qed.

Lemma column_nil c rs : column c rs ≠ [] <-> rs ≠ [].
Proof. unfold column. by destruct rs. Qed.

(** A column of a table that holds 64-bit integers only, or floats only. *)
Lemma number_column_dtype c df :
  rows df ≠ [] -> number_column c df ->
  (col_dtype c (rows df) = int64 /\ Forall (fun r => int_id (cell r c)) (rows df)) \/
  (col_dtype c (rows df) = float64 /\
   Forall (fun r => exists f, cell r c = JFloat f) (rows df)).
Proof.
  intros Hne [H|H]; [left|right]; (split; [|done]); unfold col_dtype.
  - apply dtype_of_ints; [by apply column_nil|by apply Forall_column].
  - apply dtype_of_floats; [by apply column_nil|].
    by apply (Forall_column (fun v => exists f, v = JFloat f)).
Qed.

(** The rows of [assign]: a column other than the target keeps its cells. *)
Lemma assigned_column c c' (P : gmap string json -> json -> Prop) rs rs' :
  Forall2 (fun r r' => exists v, P r v /\ r' = <[c := v]> r) rs rs' ->
  c' ≠ c -> column c' rs' = column c' rs.
Proof.
  intros F Hne. induction F as [|r r' rs rs' (v & _ & ->) _ IH]; [done|].
  unfold column in *. simpl. rewrite cell_insert_ne by done. by rewrite IH.
Qed.

Lemma assigned_target c (P : gmap string json -> json -> Prop) (Q : json -> Prop) rs rs' :
  Forall2 (fun r r' => exists v, P r v /\ r' = <[c := v]> r) rs rs' ->
  (forall r v, r ∈ rs -> P r v -> Q v) ->
  Forall (fun r' => Q (cell r' c)) rs'.
Proof.
  intros F HQ. induction F as [|r r' rs rs' (v & Hv & ->) _ IH]; [constructor|].
  constructor.
  - rewrite cell_insert_eq. eapply HQ; [left|done].
  - apply IH. intros r0 v0 H0. apply HQ. by right.
Qed.

Lemma Forall2_nil_iff {A B} (P : A -> B -> Prop) l k : Forall2 P l k -> l = [] <-> k = [].
Proof. destruct 1; done. Qed.

(** ** The join *)

Lemma lookup_list_to_map_dict (d : pydict) k :
  (list_to_map d : gmap string json) !! k = dict_get k d.
Proof.
  induction d as [|[k' v] d IH]; simpl; [done|].
  destruct (String.eqb_spec k k') as [->|Hne].
  - by rewrite lookup_insert_eq.
  - by rewrite lookup_insert_ne.
Qed.

Lemma dict_get_Some_elem k d v : dict_get k d = Some v -> (k, v) ∈ d.
Proof.
  induction d as [|[k' v'] d IH]; simpl; [done|].
  destruct (String.eqb_spec k k') as [->|Hne].
  - intros [= ->]. left.
  - intros. right. auto.
Qed.


Lemma elem_of_keys_fold (d : pydict) acc c :
  c ∈ fold_left (fun acc' kv => add_col kv.1 acc') d acc <->
  c ∈ acc \/ exists v, (c, v) ∈ d.
Proof.
  revert acc. induction d as [|[k v] d IH]; intros acc; simpl.
  - split; [auto|]. intros [?|[v Hv]]; [done|]. by apply elem_of_nil in Hv.
  - rewrite IH, elem_of_add_col. split.
    + intros [[->|?]|[v' Hv']]; [right; exists v; left|by left|right; exists v'; by right].
    + intros [?|[v' [[= -> ->]|Hv']%elem_of_cons]]; [auto|auto|eauto].
Qed.

Lemma elem_of_keys_union_acc (recs : list pydict) acc c :
  c ∈ fold_left (fun acc d => fold_left (fun acc' kv => add_col kv.1 acc') d acc) recs acc <->
  c ∈ acc \/ exists d v, d ∈ recs /\ (c, v) ∈ d.
Proof.
  revert acc. induction recs as [|d recs IH]; intros acc; simpl.
  - split; [auto|]. intros [?|(d & v & Hd & _)]; [done|]. by apply elem_of_nil in Hd.
  - rewrite IH, elem_of_keys_fold. split.
    + intros [[?|[v Hv]]|(d' & v & Hd' & Hv)]; [by left|right; exists d, v; split; [left|done]|].
      right. exists d', v. split; [by right|done].
    + intros [?|(d' & v & [->|Hd']%elem_of_cons & Hv)]; [auto|eauto|eauto 6].
Qed.

Lemma elem_of_keys_union recs c :
  c ∈ keys_union recs <-> exists d v, d ∈ recs /\ (c, v) ∈ d.
Proof.
  unfold keys_union. rewrite elem_of_keys_union_acc. split; [|auto].
  intros [H|?]; [by apply elem_of_nil in H|done].
Qed.

Lemma select_ok cols df :
  (forall c, c ∈ cols -> c ∈ columns df) ->
  select cols df = Ok (mkDF cols (map (restrict cols) (rows df))).
Proof.
  intros H. unfold select.
  destruct (list_find _ cols) as [[i c]|] eqn:E; [|done].
  apply list_find_Some in E as (Hi & Hc & _).
  exfalso. apply Hc, H. by eapply list_elem_of_lookup_2.
Qed.

Lemma select_columns_present cols df df' c :
  select cols df = Ok df' -> c ∈ cols -> c ∈ columns df.
Proof.
  unfold select. destruct (list_find _ cols) as [[? ?]|] eqn:E; [done|].
  intros _ Hc. rewrite list_find_None, Forall_forall in E.
  specialize (E c Hc). by apply dec_stable in E.
Qed.


Lemma merge_inv left right lo ro joined :
  merge left right lo ro = Ok joined ->
  lo ∈ columns left /\ ro ∈ columns right /\
  columns joined = (map (suffixed (overlap left right) "_x") (columns left)
                   ++ map (suffixed (overlap left right) "_y") (columns right))%list /\
  rows joined =
    flat_map (fun l => map (merge_row left right l)
                (filter (fun r => key_eqb (cell l lo) (cell r ro) = true) (rows right)))
             (rows left).
Proof.
  unfold merge.
  destruct (has_col lo left) eqn:El; simpl; [|done].
  destruct (has_col ro right) eqn:Er; simpl; [|done].
  destruct (keys_compatible _ _); simpl; [|done].
  destruct (_ && _); simpl; [|done].
  intros [= <-]. apply has_col_true in El, Er. done.
Qed.


Lemma elem_of_merge_rows left right lo ro (ρ : gmap string json) :
  ρ ∈ flat_map (fun l => map (merge_row left right l)
                (filter (fun r => key_eqb (cell l lo) (cell r ro) = true) (rows right)))
             (rows left) <->
  exists l r, l ∈ rows left /\ r ∈ rows right /\
    key_eqb (cell l lo) (cell r ro) = true /\ ρ = merge_row left right l r.
Proof.
  rewrite list_elem_of_In, in_flat_map. split.
  - intros (l & Hl%list_elem_of_In & Hρ%list_elem_of_In).
    apply (list_elem_of_fmap (merge_row left right l)) in Hρ as (r & -> & Hr).
    apply list_elem_of_filter in Hr as [Hk Hr]. eauto 10.
  - intros (l & r & Hl & Hr & Hk & ->). exists l. split; [by apply list_elem_of_In|].
    apply list_elem_of_In. apply (list_elem_of_fmap_2 (merge_row left right l)).
    by apply list_elem_of_filter.
Qed.



(** ** The key columns of the join *)

Lemma last_char_app c s : s ≠ "" -> last_char (c ++ s) = last_char s.
Proof.
  intros Hs. induction c as [|a c IH]; [done|].
  change (String a c ++ s) with (String a (c ++ s)).
  simpl. rewrite IH.
  destruct (c ++ s) eqn:E; [|done].
  destruct c; simpl in E; [done|discriminate].
Qed.

Lemma suffixed_eq ov sfx c k :
  sfx ≠ "" -> last_char k ≠ last_char sfx -> suffixed ov sfx c = k -> c = k /\ c ∉ ov.
Proof.
  intros Hs Hl. unfold suffixed. case_bool_decide; [|done].
  intros <-. by rewrite last_char_app in Hl.
Qed.

Lemma rename_row_lookup ov sfx cols (r : gmap string json) k :
  sfx ≠ "" -> last_char k ≠ last_char sfx -> k ∈ cols -> k ∉ ov ->
  rename_row ov sfx cols r !! k = Some (cell r k).
Proof.
  intros Hs Hl Hin Hov. unfold rename_row.
  induction cols as [|c cols IH]; [by apply elem_of_nil in Hin|].
  simpl. destruct (decide (suffixed ov sfx c = k)) as [E|E].
  - destruct (suffixed_eq _ _ _ _ Hs Hl E) as [-> _]. rewrite E. by rewrite lookup_insert_eq.
  - rewrite lookup_insert_ne by done. apply IH.
    apply elem_of_cons in Hin as [->|?]; [|done].
    exfalso. apply E. unfold suffixed. by rewrite bool_decide_eq_false_2.
Qed.

Lemma rename_row_lookup_None ov sfx cols (r : gmap string json) k :
  sfx ≠ "" -> last_char k ≠ last_char sfx -> k ∉ cols ->
  rename_row ov sfx cols r !! k = None.
Proof.
  intros Hs Hl Hin. unfold rename_row.
  induction cols as [|c cols IH]; [done|].
  simpl. apply not_elem_of_cons in Hin as [Hne Hin].
  rewrite lookup_insert_ne; [by apply IH|].
  intros E. by destruct (suffixed_eq _ _ _ _ Hs Hl E) as [-> _].
Qed.

Lemma overlap_elem left right c :
  c ∈ overlap left right <-> c ∈ columns right /\ c ∈ columns left.
Proof. unfold overlap. by rewrite list_elem_of_filter. Qed.

Lemma merge_row_left_key left right l r k :
  last_char k ≠ Some "x"%char -> k ∈ columns left -> k ∉ columns right ->
  cell (merge_row left right l r) k = cell l k.
Proof.
  intros Hl Hin Hr. unfold merge_row, cell at 1.
  erewrite lookup_union_Some_l; [done|].
  apply rename_row_lookup; try done. rewrite overlap_elem. tauto.
Qed.

Lemma merge_row_right_key left right l r k :
  last_char k ≠ Some "x"%char -> last_char k ≠ Some "y"%char ->
  k ∉ columns left -> k ∈ columns right ->
  cell (merge_row left right l r) k = cell r k.
Proof.
  intros Hx Hy Hl Hr. unfold merge_row, cell at 1.
  rewrite lookup_union_r.
  - rewrite rename_row_lookup; try done. rewrite overlap_elem. tauto.
  - by apply rename_row_lookup_None.
Qed.

Lemma suffixed_id ov sfx c : c ∉ ov -> suffixed ov sfx c = c.
Proof. intros. unfold suffixed. by rewrite bool_decide_eq_false_2. Qed.

(** The rows of [pd.DataFrame(records)]: a field keeps its value, read as
    the type of its column asks. *)
Lemma DataFrame_of_row recs l :
  l ∈ rows (DataFrame_of recs) ->
  exists d, d ∈ recs /\
    forall c, l !! c = typed (map (fun d => list_to_map d) recs) c <$> dict_get c d.
Proof.
  unfold DataFrame_of. simpl.
  intros (m & -> & (d & -> & Hd)%list_elem_of_fmap)%list_elem_of_fmap.
  exists d. split; [done|]. intros c.
  rewrite map_lookup_imap, lookup_list_to_map_dict.
  by destruct (dict_get c d).
Qed.

Lemma DataFrame_of_int_field k recs l :
  Forall (int_field k) recs -> l ∈ rows (DataFrame_of recs) ->
  exists d z, d ∈ recs /\ dict_get k d = Some (JInt z) /\ in_int64 z = true /\
              cell l k = JInt z.
Proof.
  intros Hk (d & Hd & Hl)%DataFrame_of_row.
  rewrite Forall_forall in Hk.
  destruct (Hk d Hd) as (z & Hz & Hr).
  exists d, z. repeat split; try done.
  unfold cell. rewrite Hl, Hz. simpl. unfold typed, col_dtype.
  rewrite (dtype_of_ints (column k _)); [done| |].
  - apply column_nil. intros E. apply fmap_nil_inv in E. subst. by apply elem_of_nil in Hd.
  - apply Forall_column, Forall_forall.
    intros m (d' & -> & Hd')%list_elem_of_fmap.
    destruct (Hk d' Hd') as (z' & Hz' & Hr').
    exists z'. split; [|done]. unfold cell. by rewrite lookup_list_to_map_dict, Hz'.
Qed.


Lemma int_field_key k recs :
  recs ≠ [] -> Forall (int_field k) recs -> k ∈ keys_union recs.
Proof.
  destruct recs as [|d recs]; [done|]. intros _ [(z & Hz & _) _]%Forall_cons.
  apply elem_of_keys_union. exists d, (JInt z). split; [left|].
  by apply dict_get_Some_elem.
Qed.




(** The join of lines 126-131, taken apart. *)
Lemma join_segments_inv all_list road_segments joined :
  join_segments all_list road_segments = Ok joined ->
  exists right,
    select reference_columns road_segments = Ok right /\
    columns right = reference_columns /\
    rows right = map (restrict reference_columns) (rows road_segments) /\
    "road_segment_id" ∈ keys_union all_list /\
    columns joined =
      (map (suffixed (overlap (DataFrame_of all_list) right) "_x") (keys_union all_list)
       ++ map (suffixed (overlap (DataFrame_of all_list) right) "_y") reference_columns)%list /\
    forall ρ, ρ ∈ rows joined <->
      exists l r, l ∈ rows (DataFrame_of all_list) /\ r ∈ rows right /\
        key_eqb (cell l "road_segment_id") (cell r "segment_id") = true /\
        ρ = merge_row (DataFrame_of all_list) right l r.
Proof.
  intros H. unfold join_segments in H.
  apply res_bind_Ok in H as (right & Hr & H).
  apply select_inv in Hr as Hr'. destruct Hr' as [Cr Rr].
  apply merge_inv in H as (Hl & _ & -> & ->).
  exists right. rewrite Cr. repeat split; try done.
  - by apply elem_of_merge_rows.
  - by apply elem_of_merge_rows.
Qed.

(** A column of the joined table that only the records have holds the
    field of the record; one that only the reference table has holds the
    cell of the reference row. *)
Lemma joined_left_cell all_list right l r k :
  last_char k ≠ Some "x"%char -> k ∈ keys_union all_list -> k ∉ columns right ->
  cell (merge_row (DataFrame_of all_list) right l r) k = cell l k.
Proof. intros. by apply merge_row_left_key. Qed.

Lemma joined_column_right left right k :
  last_char k ≠ Some "x"%char -> last_char k ≠ Some "y"%char ->
  k ∈ columns right ->
  k ∈ (map (suffixed (overlap left right) "_x") (columns left)
       ++ map (suffixed (overlap left right) "_y") (columns right))%list ->
  k ∉ columns left.
Proof.
  intros Hx Hy Hr Hk Hl.
  assert (k ∈ overlap left right) as Hov by (apply overlap_elem; done).
  apply elem_of_app in Hk as [Hk|Hk];
    apply list_elem_of_fmap in Hk as (c & E & _); symmetry in E;
    apply suffixed_eq in E as [-> ?]; done.
Qed.

Section JoinKeys.

Variable argsort : list float -> list nat.



End JoinKeys.

(** ** The stages of [process_data] *)

Section StageLemmas.

Variable json_loads : string -> option json.
Variable argsort : list float -> list nat.
Variable can_write : string -> bool.

Lemma process_data_stages metadata fs :
  process_data json_loads argsort can_write metadata fs =
  match segments_stage json_loads argsort metadata fs with
  | Raise e => (fs, Raise e)
  | Ok (dr, lu, df_total) => outputs_stage argsort can_write dr lu df_total fs
  end.
Proof.
  unfold process_data, segments_stage, outputs_stage, read_csv, lift, mbind, io_bind; simpl.
  destruct (fs !! INFOGRAPHICS_CSV) as [df0|]; simpl; [|done].
  destruct (columns df0); simpl; [done|].
  destruct (apply_converter json_loads "data" df0) as [df|]; simpl; [|done].
  destruct (get_method metadata "dates_comment" (JObj [])) as [dc|]; simpl; [|done].
  destruct (get_method dc "date_range" (JArr [])) as [dr|]; simpl; [|done].
  destruct (get_method dc "last_update" (JStr "")) as [lu|]; simpl; [|done].
  destruct (getitem0 dr); simpl; [|done].
  destruct (fs !! ROAD_SEGMENTS_CSV) as [rs|]; simpl; [|done].
  destruct (columns rs); simpl; [done|].
  destruct (match rows df with [] => Ok [] | _ => get_col "data" df end) as [datas|]; simpl; [|done].
  destruct (extract_all datas) as [all_list|]; simpl; [|done].
  destruct (segment_table argsort all_list rs) as [df_total|]; simpl; [|done].
  done.
Qed.

Lemma outputs_stage_cases dr lu t fs fs' r :
  outputs_stage argsort can_write dr lu t fs = (fs', r) ->
  match r with
  | Ok s =>
      exists over roads rover,
        loc_ge1 "total_km" t = Ok over /\ road_table argsort t = Ok roads /\
        loc_ge1 "total_km" roads = Ok rover /\
        fs' = <[ALL_ROADS_1KM := rover]> (<[ALL_ROADS := roads]>
                (<[ALL_SEGMENTS_1KM := over]> (<[ALL_SEGMENTS := t]> fs))) /\
        s = mkSummary (length (rows t)) (length (rows over))
                      (length (rows roads)) (length (rows rover)) dr lu
  | Raise e =>
      fs' = fs \/ fs' = <[ALL_SEGMENTS := t]> fs \/
      (exists over, loc_ge1 "total_km" t = Ok over /\
         (fs' = <[ALL_SEGMENTS_1KM := over]> (<[ALL_SEGMENTS := t]> fs) \/
          exists roads, road_table argsort t = Ok roads /\
            fs' = <[ALL_ROADS := roads]> (<[ALL_SEGMENTS_1KM := over]> (<[ALL_SEGMENTS := t]> fs))))
  end.
Proof.
  unfold outputs_stage, to_csv, lift, mbind, io_bind, mret, io_ret; simpl.
  destruct (can_write ALL_SEGMENTS); simpl; [|intros [= <- <-]; auto].
  destruct (loc_ge1 "total_km" t) as [over|]; simpl; [|intros [= <- <-]; auto].
  destruct (can_write ALL_SEGMENTS_1KM); simpl; [|intros [= <- <-]; auto].
  destruct (road_table argsort t) as [roads|]; simpl;
    [|intros [= <- <-]; right; right; exists over; auto].
  destruct (can_write ALL_ROADS); simpl;
    [|intros [= <- <-]; right; right; exists over; auto].
  destruct (loc_ge1 "total_km" roads) as [rover|] eqn:Er; simpl;
    [|intros [= <- <-]; right; right; exists over; split; [done|]; right; exists roads; auto].
  destruct (can_write ALL_ROADS_1KM); simpl; intros [= <- <-].
  - exists over, roads, rover. repeat split. done.
  - right; right; exists over; split; [done|]; right; exists roads; auto.
Qed.

End StageLemmas.

(** ** A sort permutes the rows *)

Lemma omap_lookup_S {A} (x : A) l (k : list nat) :
  omap (fun i => (x :: l) !! i) (S <$> k) = omap (fun i => l !! i) k.
Proof. induction k as [|i k IH]; [done|]. csimpl. by rewrite IH. Qed.

Lemma omap_lookup_seq {A} (l : list A) :
  omap (fun i => l !! i) (seq 0 (length l)) = l.
Proof.
  induction l as [|x l IH]; [done|].
  simpl. f_equal. rewrite <- fmap_S_seq, omap_lookup_S. done.
Qed.

Lemma StronglySorted_mono {A} (R1 R2 : relation A) l :
  (forall x y, R1 x y -> R2 x y) -> StronglySorted R1 l -> StronglySorted R2 l.
Proof.
  intros HR. induction 1; constructor; [done|]. eapply Forall_impl; eauto.
Qed.

Lemma StronglySorted_reverse {A} (R : relation A) l :
  StronglySorted R l -> StronglySorted (flip R) (reverse l).
Proof.
  induction 1 as [|x l Hl IH Hx]; [constructor|].
  rewrite reverse_cons. apply StronglySorted_app_2.
  - intros y z Hy Hz. rewrite elem_of_reverse in Hy.
    apply list_elem_of_singleton in Hz as ->.
    rewrite Forall_forall in Hx. unfold flip. by apply Hx.
  - done.
  - repeat constructor.
Qed.

Lemma fmap_take_rows {A B} (f : A -> B) idx (l : list A) :
  f <$> take_rows idx l = take_rows idx (f <$> l).
Proof.
  unfold take_rows. induction idx as [|i idx IH]; [done|].
  csimpl. rewrite list_lookup_fmap. destruct (l !! i); csimpl; by rewrite IH.
Qed.

Lemma filter_nan_split {A} (l : list (A * float)) :
  filter (fun p => is_nan p.2 = false) l ++ filter (fun p => is_nan p.2 = true) l ≡ₚ l.
Proof.
  induction l as [|p l IH]; [done|].
  rewrite !filter_cons. repeat case_decide; try congruence.
  - simpl. by f_equiv.
  - rewrite <- Permutation_middle. by f_equiv.
  - by destruct (is_nan p.2).
Qed.

Section SortPermutation.

Variable argsort : list float -> list nat.

Lemma take_rows_perm {A} (l : list A) ks :
  argsort_perm argsort -> length ks = length l -> take_rows (argsort ks) l ≡ₚ l.
Proof.
  intros Hp Hlen. unfold take_rows. rewrite (Hp ks), Hlen. by rewrite omap_lookup_seq.
Qed.

Lemma sort_rows_perm {A} asc (l : list (A * float)) :
  argsort_perm argsort -> sort_rows argsort asc l ≡ₚ l.
Proof.
  intros Hp. unfold sort_rows.
  etransitivity; [|apply filter_nan_split]. apply Permutation_app; [|done].
  destruct asc.
  - apply take_rows_perm; [done|]. by rewrite length_fmap.
  - rewrite reverse_Permutation.
    rewrite take_rows_perm; [|done|by rewrite length_fmap].
    apply reverse_Permutation.
Qed.

Lemma sort_values_perm key asc df df' :
  argsort_perm argsort ->
  sort_values argsort key asc df = Ok df' -> rows df' ≡ₚ rows df.
Proof.
  intros Hp (_ & _ & fkeys & Hf & ->)%sort_values_inv.
  rewrite (sort_rows_perm _ _ Hp).
  apply mapM_Ok_inv, Forall2_length in Hf. rewrite length_map in Hf.
  rewrite fst_zip; [done|lia].
Qed.

(** Keys of the sorted pairs: in order, then the [NaN]s. *)
Lemma sort_rows_sorted {A} (asc : bool) (l : list (A * float)) :
  argsort_sorted argsort ->
  StronglySorted (fun x y : float => (if asc then nan_last_le x y else nan_last_ge x y) = true)
                 ((sort_rows argsort asc l).*2).
Proof.
  intros Hs. unfold sort_rows. rewrite fmap_app.
  set (nn := filter (fun p => is_nan p.2 = false) l).
  assert (Forall (fun p => is_nan p.2 = false) nn) as Hnn.
  { apply Forall_forall. intros p Hp. by apply list_elem_of_filter in Hp as [? _]. }
  apply StronglySorted_app_2.
  - intros x y _ (p & -> & Hp)%list_elem_of_fmap.
    apply list_elem_of_filter in Hp as [Hp _].
    unfold nan_last_le, nan_last_ge. rewrite Hp. by destruct asc.
  - destruct asc.
    + rewrite fmap_take_rows.
      eapply StronglySorted_mono; [|apply Hs; by apply Forall_fmap].
      intros x y Hxy. unfold nan_last_le. rewrite Hxy. apply orb_true_r.
    + rewrite fmap_reverse, fmap_take_rows.
      eapply StronglySorted_mono; [|apply StronglySorted_reverse, Hs].
      * intros x y Hxy. unfold nan_last_ge. unfold flip in Hxy. rewrite Hxy.
        apply orb_true_r.
      * rewrite fmap_reverse. apply Forall_reverse. by apply Forall_fmap.
  - set (nans := filter (fun p => is_nan p.2 = true) l).
    assert (Forall (fun p => is_nan p.2 = true) nans) as Hn.
    { apply Forall_forall. intros p Hp. by apply list_elem_of_filter in Hp as [? _]. }
    clearbody nans. induction Hn as [|p k Hp Hk IH]; csimpl; constructor; [done|].
    apply Forall_fmap. eapply Forall_impl; [exact Hk|]. simpl. intros q Hq.
    unfold nan_last_le, nan_last_ge. rewrite Hq. by destruct asc.
Qed.

End SortPermutation.

(** ** The merge sort of positions meets the contract *)

Lemma nan_last_le_total x y : nan_last_le x y = true \/ nan_last_le y x = true.
Proof.
  unfold nan_last_le.
  destruct (is_nan y) eqn:Ey; [by left|].
  destruct (is_nan x) eqn:Ex; [by right|]. simpl.
  by apply float_leb_total.
Qed.

Lemma nan_last_le_trans x y z :
  nan_last_le x y = true -> nan_last_le y z = true -> nan_last_le x z = true.
Proof.
  unfold nan_last_le.
  destruct (is_nan z) eqn:Ez; [done|]. simpl. intros Hxy Hyz.
  destruct (float_leb_not_nan _ _ Hyz) as [Ey _]. rewrite Ey in Hxy. simpl in Hxy.
  by eapply float_leb_trans.
Qed.

#[global] Instance index_le_total l : Total (index_le l).
Proof. intros i j. apply nan_last_le_total. Qed.

#[global] Instance index_le_trans l : Transitive (index_le l).
Proof. intros i j k. apply nan_last_le_trans. Qed.

Lemma take_rows_total (l : list float) idx :
  Forall (fun i => i < length l) idx -> take_rows idx l = (fun i => l !!! i) <$> idx.
Proof.
  unfold take_rows. induction 1 as [|i idx Hi _ IH]; [done|].
  csimpl. destruct (lookup_lt_is_Some_2 l i Hi) as [x Hx].
  rewrite Hx. csimpl. rewrite IH. f_equal.
  symmetry. by apply list_lookup_total_correct.
Qed.

Lemma lookup_total_not_nan (l : list float) i :
  Forall (fun x => is_nan x = false) l -> is_nan (l !!! i) = false.
Proof.
  intros Hl. rewrite list_lookup_total_alt.
  destruct (l !! i) as [x|] eqn:E; simpl; [|done].
  rewrite Forall_forall in Hl. apply Hl. by eapply list_elem_of_lookup_2.
Qed.

Lemma sorted_by_index (pre : list nat -> list nat) :
  (forall k, pre k ≡ₚ k) ->
  let argsort := fun l => merge_sort (index_le l) (pre (seq 0 (length l))) in
  argsort_perm argsort /\ argsort_sorted argsort.
Proof.
  intros Hpre argsort. split.
  - intros l. unfold argsort. by rewrite merge_sort_Permutation.
  - intros l Hl. rewrite take_rows_total.
    + eapply StronglySorted_fmap; [|apply StronglySorted_merge_sort; apply _].
      intros i j Hij. unfold index_le, nan_last_le in Hij.
      by rewrite (lookup_total_not_nan l j Hl) in Hij.
    + apply Forall_forall. intros i Hi. unfold argsort in Hi.
      rewrite merge_sort_Permutation, Hpre in Hi.
      apply elem_of_seq in Hi. lia.
Qed.

Lemma merge_argsort_contract : argsort_perm merge_argsort /\ argsort_sorted merge_argsort.
Proof. apply (sorted_by_index (fun k => k)). done. Qed.

(** ** Segments of length zero *)

Section ZeroLength.

Variable argsort : list float -> list nat.

Lemma segment_table_stages all_list road_segments :
  segment_table argsort all_list road_segments =
  d3 ← segment_metrics all_list road_segments;
  d4 ← sort_values argsort "fatal_severe_accidents_per_km" false d3;
  select (filter (fun c => c ∈ columns d4) segment_columns) d4.
Proof.
  unfold segment_table, segment_metrics.
  destruct (join_segments all_list road_segments) as [joined|]; simpl; [|done].
  destruct (assign "total_km" col_sub "to_km" "from_km" joined) as [d0|]; simpl; [|done].
  done.
Qed.







Lemma segment_table_rows all_list road_segments d3 df_total :
  argsort_perm argsort ->
  segment_metrics all_list road_segments = Ok d3 ->
  segment_table argsort all_list road_segments = Ok df_total ->
  (forall c, c ∈ metric_columns -> c ∈ columns df_total) /\
  rows df_total ≡ₚ restrict (columns df_total) <$> rows d3.
Proof.
  intros Hp H3 H. rewrite segment_table_stages, H3 in H. simpl in H.
  unfold segment_metrics in H3.
  apply res_bind_Ok in H3 as (joined & _ & H3).
  apply res_bind_Ok in H3 as (d0 & _ & H3).
  apply res_bind_Ok in H as (d4 & H4 & H).
  apply select_inv in H as (C & ->). rewrite C. split.
  - intros c Hc. apply list_elem_of_filter. split.
    + apply sort_values_inv in H4 as (_ & -> & _). by eapply add_metrics_columns.
    + by apply metric_columns_selected.
  - apply fmap_Permutation. by eapply sort_values_perm.
Qed.

End ZeroLength.

(** ** Descending order *)

Lemma StronglySorted_Forall {A} (R : relation A) (P : A -> Prop) l :
  StronglySorted R l -> Forall P l ->
  StronglySorted (fun x y => R x y /\ P x /\ P y) l.
Proof.
  intros HS HP. induction HS as [|x l HS IH Hx]; [constructor|].
  apply Forall_cons in HP as [Px Pl]. constructor; [auto|].
  apply Forall_forall. intros y Hy.
  repeat split; [|done|]; by eapply Forall_forall.
Qed.

Lemma StronglySorted_fmap_inv {A B} (f : A -> B) (R : relation B) l :
  StronglySorted R (f <$> l) -> StronglySorted (fun x y => R (f x) (f y)) l.
Proof.
  induction l as [|x l IH]; [constructor|].
  csimpl. intros [Hx Hl]%StronglySorted_cons. constructor; [auto|].
  rewrite Forall_fmap in Hx. exact Hx.
Qed.

Lemma Forall2_zip {A B} (P : A -> B -> Prop) l k :
  Forall2 P l k -> Forall (fun p => P p.1 p.2) (zip l k).
Proof. induction 1; simpl; constructor; auto. Qed.

Section SortOrder.

Variable argsort : list float -> list nat.

Lemma sort_values_pairs key (asc : bool) df df' :
  sort_values argsort key asc df = Ok df' ->
  exists P : list (gmap string json * float),
    rows df' = P.*1 /\
    Forall (fun p => to_float (cell p.1 key) = Ok p.2) P /\
    (argsort_sorted argsort ->
     StronglySorted (fun x y : float =>
        (if asc then nan_last_le x y else nan_last_ge x y) = true) (P.*2)).
Proof.
  intros (_ & _ & fkeys & Hf & ->)%sort_values_inv.
  eexists. split; [done|]. split.
  - apply mapM_Ok_inv, Forall2_fmap_l, Forall2_zip in Hf.
    rewrite Forall_forall in *. intros p Hp%sort_rows_elem. by apply Hf.
  - intros Hs. by apply sort_rows_sorted.
Qed.

Lemma keys_of_pairs key (P : list (gmap string json * float)) :
  Forall (fun p => to_float (cell p.1 key) = Ok p.2) P ->
  mapM to_float (map (fun r => cell r key) (P.*1)) = Ok (P.*2).
Proof.
  intros H. apply mapM_Ok_intro.
  induction H as [|p P Hp _ IH]; csimpl; constructor; auto.
Qed.

Lemma sort_values_sorted_desc key df df' :
  argsort_sorted argsort ->
  sort_values argsort key false df = Ok df' -> sorted_desc key df'.
Proof.
  intros Hs (P & HP & Hc & Hsorted)%sort_values_pairs.
  exists (P.*2). rewrite HP. split; [by apply keys_of_pairs|by apply Hsorted].
Qed.

Lemma sort_values_row_sorted key df df' :
  argsort_sorted argsort ->
  sort_values argsort key true df = Ok df' -> StronglySorted (km_le key) (rows df').
Proof.
  intros Hs (P & HP & Hc & Hsorted)%sort_values_pairs. rewrite HP.
  specialize (Hsorted Hs). apply StronglySorted_fmap_inv in Hsorted.
  eapply StronglySorted_fmap; [|by apply StronglySorted_Forall].
  intros p q (Hpq & Hp & Hq). simpl in *. by exists p.2, q.2.
Qed.

Lemma sorted_desc_restrict key cols rs :
  key ∈ cols ->
  sorted_desc key (mkDF cols rs) -> sorted_desc key (mkDF cols (map (restrict cols) rs)).
Proof.
  intros Hk (ks & Hks & Hs). exists ks. split; [|done]. simpl in *.
  rewrite <- Hks. f_equal. rewrite map_map. apply map_ext. intros r.
  by apply cell_restrict.
Qed.

End SortOrder.

(** ** Keys and groups *)

Lemma norm_eqb_sym a b : norm_eqb a b = norm_eqb b a.
Proof.
  destruct a, b; simpl; try done.
  - by destruct b, b0.
  - apply Z.eqb_sym.
  - rewrite float_eqb_sym. f_equal. apply andb_comm.
  - apply String.eqb_sym.
Qed.

Lemma norm_eqb_trans a b c :
  norm_eqb a b = true -> norm_eqb b c = true -> norm_eqb a c = true.
Proof.
  destruct a, b, c; simpl; try done.
  - intros ->%Bool.eqb_prop. done.
  - intros ->%Z.eqb_eq. done.
  - intros [H1|[H1 H1']%andb_true_iff]%orb_true_iff [H2|[H2 H2']%andb_true_iff]%orb_true_iff;
      apply orb_true_iff.
    + left. by eapply float_eqb_trans.
    + apply float_eqb_not_nan in H1 as [_ H1]. congruence.
    + apply float_eqb_not_nan in H2 as [H2 _]. congruence.
    + right. by rewrite H1, H2'.
  - intros ->%String.eqb_eq. done.
Qed.

Lemma key_eqb_sym a b : key_eqb a b = key_eqb b a.
Proof. apply norm_eqb_sym. Qed.

Lemma key_eqb_trans a b c :
  key_eqb a b = true -> key_eqb b c = true -> key_eqb a c = true.
Proof. apply norm_eqb_trans. Qed.

Lemma key_eqb_refl v : hashable v = true -> key_eqb v v = true.
Proof.
  unfold key_eqb. destruct v; simpl; intros Hh; try done.
  - by destruct b.
  - apply Z.eqb_refl.
  - destruct (float_int f); simpl; [apply Z.eqb_refl|].
    destruct (is_nan f) eqn:E; [apply orb_true_r|].
    by rewrite float_eqb_refl.
  - apply String.eqb_refl.
Qed.

Lemma elem_of_dedup_keys k l : k ∈ dedup_keys l -> k ∈ l.
Proof.
  revert k. induction l as [|x l IH]; simpl; intros k; [done|].
  intros [->|Hk]%elem_of_cons; [left|].
  apply list_elem_of_filter in Hk as [_ Hk]. right. auto.
Qed.

Lemma dedup_keys_covers v l :
  v ∈ l -> key_eqb v v = true -> exists k, k ∈ dedup_keys l /\ key_eqb k v = true.
Proof.
  intros Hv Hrefl. induction l as [|x l IH]; [by apply elem_of_nil in Hv|].
  simpl. apply elem_of_cons in Hv as [<-|Hv].
  - exists v. split; [left|done].
  - destruct (IH Hv) as (k & Hk & Hkv).
    destruct (key_eqb x k) eqn:E.
    + exists x. split; [left|]. by eapply key_eqb_trans.
    + exists k. split; [|done]. right. by apply list_elem_of_filter.
Qed.

Lemma group_keys_inv key df ks :
  group_keys key df = Ok ks ->
  keys_hashable key df /\
  forall k, k ∈ ks <->
    k ∈ dedup_keys (filter (fun k => is_missing k = false)
                           (map (fun r => cell r key) (rows df))).
Proof.
  unfold group_keys.
  destruct (forallb hashable _) eqn:E; [|done]. intros [= <-]. split.
  - rewrite forallb_forall in E. apply Forall_forall. intros r Hr.
    apply E. apply in_map_iff. exists r. split; [done|by apply list_elem_of_In].
  - intros k. by rewrite merge_sort_Permutation.
Qed.

(** A group key is the key of one of the rows, and that row is in its group. *)
Lemma group_key_member key df ks k :
  group_keys key df = Ok ks -> k ∈ ks ->
  is_missing k = false /\ exists r, r ∈ members key k df /\ cell r key = k.
Proof.
  intros (Hh & Hks)%group_keys_inv Hk%Hks.
  apply elem_of_dedup_keys, list_elem_of_filter in Hk as [Hm Hk].
  apply list_elem_of_fmap in Hk as (r & -> & Hr).
  split; [done|]. exists r. split; [|done].
  apply list_elem_of_filter. split; [|done].
  apply key_eqb_refl. unfold keys_hashable in Hh. rewrite Forall_forall in Hh. auto.
Qed.

(** Every row whose key is not missing belongs to the group of some key. *)
Lemma group_keys_cover key df ks r :
  group_keys key df = Ok ks -> r ∈ rows df -> is_missing (cell r key) = false ->
  exists k, k ∈ ks /\ key_eqb k (cell r key) = true.
Proof.
  intros (Hh & Hks)%group_keys_inv Hr Hm.
  destruct (dedup_keys_covers (cell r key)
              (filter (fun k => is_missing k = false) (map (fun r => cell r key) (rows df))))
    as (k & Hk & Hkv).
  - apply list_elem_of_filter. split; [done|]. by apply (list_elem_of_fmap_2 (fun r => cell r key)).
  - apply key_eqb_refl. unfold keys_hashable in Hh. rewrite Forall_forall in Hh. auto.
  - exists k. split; [by apply Hks|done].
Qed.

Lemma members_key_eqb key k k' df r :
  key_eqb k k' = true -> r ∈ members key k df <-> r ∈ members key k' df.
Proof.
  intros Hk. unfold members. rewrite !list_elem_of_filter.
  split; intros [H ?]; (split; [|done]).
  - by eapply key_eqb_trans.
  - eapply key_eqb_trans; [done|]. by rewrite key_eqb_sym.
Qed.

Lemma members_perm key k df df' r :
  rows df' ≡ₚ rows df -> r ∈ members key k df' <-> r ∈ members key k df.
Proof. intros Hp. unfold members. by rewrite Hp. Qed.

Lemma sum_cols_lookup rs cs g m c :
  sum_cols rs cs g = Ok m -> c ∈ cs ->
  exists s, group_sum (col_dtype c rs) (column c g) = Ok s /\ m !! c = Some s.
Proof.
  revert m. induction cs as [|c' cs IH]; intros m H Hc; [by apply elem_of_nil in Hc|].
  simpl in H. apply res_bind_Ok in H as (s & Hs & H).
  apply res_bind_Ok in H as (m' & Hm' & [= <-]).
  destruct (decide (c' = c)) as [->|Hne].
  - exists s. by rewrite lookup_insert_eq.
  - apply elem_of_cons in Hc as [->|Hc]; [done|].
    destruct (IH _ Hm' Hc) as (s' & Hs' & Hl). exists s'. by rewrite lookup_insert_ne.
Qed.

Lemma sum_cols_lookup_None rs cs g m c :
  sum_cols rs cs g = Ok m -> c ∉ cs -> m !! c = None.
Proof.
  revert m. induction cs as [|c' cs IH]; intros m H Hc; simpl in H.
  - by injection H as <-.
  - apply res_bind_Ok in H as (s & Hs & H).
    apply res_bind_Ok in H as (m' & Hm' & [= <-]).
    apply not_elem_of_cons in Hc as [Hne Hc].
    rewrite lookup_insert_ne by done. auto.
Qed.

Lemma groupby_sum_inv key cols df sums :
  groupby_sum key cols df = Ok sums ->
  exists ks, group_keys key df = Ok ks /\
    Forall2 (fun k s => exists m, sum_cols (rows df) cols (members key k df) = Ok m /\
                                  s = <[key := k]> m)
            ks (rows sums).
Proof.
  unfold groupby_sum. destruct (has_col key df); simpl; [|done]. intros H.
  apply res_bind_Ok in H as (ks & Hks & H).
  apply res_bind_Ok in H as (every & _ & H).
  apply res_bind_Ok in H as (rs & Hrs & [= <-]).
  exists ks. split; [done|]. simpl.
  apply mapM_Ok_inv in Hrs. eapply Forall2_impl; [exact Hrs|]. simpl.
  intros k s Hs. apply res_bind_Ok in Hs as (m & Hm & [= <-]). eauto.
Qed.

(** *** The sum of a group *)

Lemma fold_int_sum ps z :
  fold_left (fun s v => (s + default 0 (int_of v))%Z) (JInt <$> ps) z = (z + int_sum ps)%Z.
Proof.
  revert z. induction ps as [|p ps IH]; intros z; simpl.
  - unfold int_sum. simpl. lia.
  - rewrite IH. unfold int_sum. simpl. lia.
Qed.

Lemma kahan_compensated vs sumx comp :
  kahan sumx comp vs = (fold_left compensated_step vs (sumx, comp)).1.
Proof.
  revert sumx comp. induction vs as [|v vs IH]; intros sumx comp; [done|].
  simpl. by rewrite IH.
Qed.

Lemma cells_of_ints (part whole : list json) zs :
  (forall x, x ∈ part -> x ∈ whole) -> whole = JInt <$> zs ->
  exists ps, part = JInt <$> ps.
Proof.
  intros Hsub ->. induction part as [|x part IH]; [by exists []|].
  destruct IH as (ps & ->); [intros y Hy; apply Hsub; by right|].
  specialize (Hsub x ltac:(left)).
  apply list_elem_of_fmap in Hsub as (z & -> & _).
  by exists (z :: ps).
Qed.

Lemma cells_of_floats (part whole : list json) fs :
  (forall x, x ∈ part -> x ∈ whole) -> whole = JFloat <$> fs ->
  exists ps, part = JFloat <$> ps.
Proof.
  intros Hsub ->. induction part as [|x part IH]; [by exists []|].
  destruct IH as (ps & ->); [intros y Hy; apply Hsub; by right|].
  specialize (Hsub x ltac:(left)).
  apply list_elem_of_fmap in Hsub as (z & -> & _).
  by exists (z :: ps).
Qed.

Lemma omap_floats (ps : list float) :
  omap (fun v => match to_float v with Ok x => Some x | Raise _ => None end) (JFloat <$> ps)
  = ps.
Proof. induction ps as [|p ps IH]; [done|]. csimpl. by rewrite IH. Qed.

(** The sum [groupby(...).sum()] gives for the cells [part] of a group,
    taken from the column [whole]. *)
Lemma group_sum_summed whole part v :
  part ≠ [] -> (forall x, x ∈ part -> x ∈ whole) ->
  group_sum (dtype_of whole) part = Ok v -> summed whole part v.
Proof.
  intros Hne Hsub H.
  assert (whole ≠ []) as Hw.
  { intros ->. destruct part as [|x part]; [done|].
    specialize (Hsub x ltac:(left)). by apply elem_of_nil in Hsub. }
  split.
  - intros zs E Hz. destruct (cells_of_ints _ _ _ Hsub E) as (ps & ->).
    rewrite dtype_of_ints in H; [| done |].
    + simpl in H. injection H as <-. rewrite fold_int_sum, Z.add_0_l.
      exists ps. split; [done|]. split; [done|].
      intros Hr. by rewrite wrap64_id.
    + rewrite E. apply Forall_fmap. eapply Forall_impl; [exact Hz|].
      simpl. intros z Hr. by exists z.
  - intros fs E. destruct (cells_of_floats _ _ _ Hsub E) as (ps & ->).
    rewrite dtype_of_floats in H; [| done |].
    + simpl in H. injection H as <-. rewrite omap_floats, kahan_compensated.
      by exists ps.
    + rewrite E. apply Forall_fmap, Forall_forall. intros f _. by exists f.
Qed.

Lemma groupby_pick_inv pick key c df picked :
  groupby_pick pick key c df = Ok picked ->
  exists ks, group_keys key df = Ok ks /\
    rows picked =
      map (fun k => <[key := k]> {[ c := pick (map (fun r => cell r c) (members key k df)) ]}) ks.
Proof.
  unfold groupby_pick. destruct (has_col key df); simpl; [|done].
  destruct (has_col c df); simpl; [|done]. intros H.
  apply res_bind_Ok in H as (ks & Hks & [= <-]). eauto.
Qed.

Lemma elem_of_merge_index key a b (ρ : gmap string json) :
  ρ ∈ rows (merge_index key a b) <->
  exists l r, l ∈ rows a /\ r ∈ rows b /\
    key_eqb (cell l key) (cell r key) = true /\ ρ = l ∪ r.
Proof.
  unfold merge_index. simpl. rewrite list_elem_of_In, in_flat_map. split.
  - intros (l & Hl%list_elem_of_In & Hρ%list_elem_of_In).
    apply (list_elem_of_fmap (fun r => l ∪ r)) in Hρ as (r & -> & Hr).
    apply list_elem_of_filter in Hr as [Hk Hr]. eauto 10.
  - intros (l & r & Hl & Hr & Hk & ->). exists l. split; [by apply list_elem_of_In|].
    apply list_elem_of_In. apply (list_elem_of_fmap_2 (fun r => l ∪ r)).
    by apply list_elem_of_filter.
Qed.

(** ** Boundary names *)

Lemma filter_fmap_comm {A B} (f : A -> B) (P : B -> Prop) `{!forall y, Decision (P y)}
    (l : list A) :
  filter P (f <$> l) = f <$> filter (fun x => P (f x)) l.
Proof.
  induction l as [|x l IH]; [done|]. csimpl. rewrite !filter_cons.
  case_decide; csimpl; by rewrite IH.
Qed.

Lemma km_le_refl key r : is_ok (to_float (cell r key)) = true -> km_le key r r.
Proof.
  destruct (to_float (cell r key)) as [x|] eqn:E; [|done]. intros _.
  exists x, x. repeat split; try done. unfold nan_last_le.
  destruct (is_nan x) eqn:En; [done|]. simpl. by apply float_leb_refl.
Qed.

Lemma boundary_name_ext c key lowest g g' v :
  (forall r, r ∈ g <-> r ∈ g') ->
  boundary_name c key lowest g v -> boundary_name c key lowest g' v.
Proof.
  intros Hg [[Hall ->]|(r & Hr & Hm & -> & Hmin)].
  - left. split; [|done]. rewrite Forall_forall in *. intros r Hr. apply Hall, Hg, Hr.
  - right. exists r. split; [by apply Hg|]. repeat split; try done.
    intros r' Hr'. apply Hmin. by apply Hg.
Qed.

Lemma first_valid_spec c key (g : list (gmap string json)) :
  StronglySorted (km_le key) g ->
  Forall (fun r => is_ok (to_float (cell r key)) = true) g ->
  boundary_name c key true g (first_valid (map (fun r => cell r c) g)).
Proof.
  intros Hs Hok. unfold first_valid.
  change (map (fun r => cell r c) g) with ((fun r => cell r c) <$> g).
  rewrite filter_fmap_comm.
  destruct (filter (fun r => is_missing (cell r c) = false) g) as [|r rest] eqn:E.
  - left. split; [|done]. apply Forall_forall. intros r Hr.
    destruct (is_missing (cell r c)) eqn:Em; [done|].
    assert (r ∈ filter (fun r => is_missing (cell r c) = false) g) as Hin
      by by apply list_elem_of_filter.
    rewrite E in Hin. by apply elem_of_nil in Hin.
  - right. exists r.
    assert (head (filter (fun r => is_missing (cell r c) = false) g) = Some r) as Hh
      by by rewrite E.
    assert (r ∈ filter (fun r => is_missing (cell r c) = false) g) as Hin
      by (rewrite E; left).
    apply list_elem_of_filter in Hin as [Hm Hin].
    apply head_filter_Some in Hh as (l1 & l2 & -> & Hl1).
    repeat split; try done.
    intros r' Hr' Hm'. apply elem_of_app in Hr' as [Hr'|Hr'].
    + rewrite Forall_forall in Hl1. by destruct (Hl1 r' Hr').
    + apply elem_of_cons in Hr' as [->|Hr'].
      * apply km_le_refl. rewrite Forall_forall in Hok. by apply Hok.
      * apply StronglySorted_app_1_r, StronglySorted_cons in Hs as [Hs _].
        rewrite Forall_forall in Hs. by apply Hs.
Qed.

Lemma last_valid_spec c key (g : list (gmap string json)) :
  StronglySorted (km_le key) g ->
  Forall (fun r => is_ok (to_float (cell r key)) = true) g ->
  boundary_name c key false g (last_valid (map (fun r => cell r c) g)).
Proof.
  intros Hs Hok. unfold last_valid.
  change (map (fun r => cell r c) g) with ((fun r => cell r c) <$> g).
  rewrite filter_fmap_comm.
  destruct (last (filter (fun r => is_missing (cell r c) = false) g)) as [r|] eqn:E.
  - right. exists r. rewrite fmap_last, E. simpl.
    assert (r ∈ filter (fun r => is_missing (cell r c) = false) g) as Hin.
    { apply last_Some in E as [l' E]. rewrite E. apply elem_of_app. right. left. }
    apply list_elem_of_filter in Hin as [Hm Hin].
    apply last_filter_Some in E as (l1 & l2 & -> & Hl2).
    repeat split; try done.
    intros r' Hr' Hm'. apply elem_of_app in Hr' as [Hr'|Hr'].
    + eapply StronglySorted_app_1_elem_of; [done..|left].
    + apply elem_of_cons in Hr' as [->|Hr'].
      * apply km_le_refl. rewrite Forall_forall in Hok. by apply Hok.
      * rewrite Forall_forall in Hl2. by destruct (Hl2 r' Hr').
  - left. rewrite fmap_last, E. split; [|done]. apply last_None in E.
    apply Forall_forall. intros r Hr.
    destruct (is_missing (cell r c)) eqn:Em; [done|].
    assert (r ∈ filter (fun r => is_missing (cell r c) = false) g) as Hin
      by by apply list_elem_of_filter.
    rewrite E in Hin. by apply elem_of_nil in Hin.
Qed.

(** ** The rows of the road groups *)

Lemma StronglySorted_filter {A} (R : relation A) (P : A -> Prop)
    `{!forall x, Decision (P x)} (l : list A) :
  StronglySorted R l -> StronglySorted R (filter P l).
Proof.
  induction 1 as [|x l Hl IH Hx]; [constructor|].
  rewrite filter_cons. case_decide; [|done].
  constructor; [done|]. rewrite Forall_forall in *.
  intros y [_ Hy]%list_elem_of_filter. auto.
Qed.

Lemma Forall_filter_weak {A} (Q : A -> Prop) (P : A -> Prop)
    `{!forall x, Decision (P x)} (l : list A) :
  Forall Q l -> Forall Q (filter P l).
Proof.
  rewrite !Forall_forall. intros HQ x [_ Hx]%list_elem_of_filter. auto.
Qed.

Section Boundaries.

Variable argsort : list float -> list nat.
Hypothesis Hperm : argsort_perm argsort.
Hypothesis Hsorted : argsort_sorted argsort.

Lemma sort_values_keys_ok key asc df df' :
  sort_values argsort key asc df = Ok df' ->
  Forall (fun r => is_ok (to_float (cell r key)) = true) (rows df').
Proof.
  intros (P & -> & Hc & _)%sort_values_pairs.
  apply Forall_fmap. eapply Forall_impl; [exact Hc|]. simpl. by intros p ->.
Qed.

Lemma picked_first key c df sorted k :
  sort_values argsort key true df = Ok sorted ->
  boundary_name c key true (members "road" k df)
    (first_valid (map (fun r => cell r c) (members "road" k sorted))).
Proof.
  intros Hs. eapply boundary_name_ext.
  - intros r. apply members_perm. by eapply sort_values_perm.
  - apply first_valid_spec.
    + apply StronglySorted_filter. by eapply sort_values_row_sorted.
    + apply Forall_filter_weak. by eapply sort_values_keys_ok.
Qed.

Lemma picked_last key c df sorted k :
  sort_values argsort key true df = Ok sorted ->
  boundary_name c key false (members "road" k df)
    (last_valid (map (fun r => cell r c) (members "road" k sorted))).
Proof.
  intros Hs. eapply boundary_name_ext.
  - intros r. apply members_perm. by eapply sort_values_perm.
  - apply last_valid_spec.
    + apply StronglySorted_filter. by eapply sort_values_row_sorted.
    + apply Forall_filter_weak. by eapply sort_values_keys_ok.
Qed.

Lemma boundary_name_key_eqb c key lowest k k' df v :
  key_eqb k k' = true ->
  boundary_name c key lowest (members "road" k' df) v ->
  boundary_name c key lowest (members "road" k df) v.
Proof.
  intros Hk. apply boundary_name_ext. intros r. symmetry. by apply members_key_eqb.
Qed.

Lemma agg_not_road c : c ∈ agg_columns -> c ≠ "road" /\ c ≠ "from_name" /\ c ≠ "to_name".
Proof.
  unfold agg_columns. intros Hc.
  repeat split; intros ->;
    repeat (apply elem_of_cons in Hc as [Hc|Hc]; [discriminate Hc|]);
    by apply elem_of_nil in Hc.
Qed.

(** The rows of [road_groups], column by column. *)
Lemma road_groups_row df_total groups ρ :
  road_groups argsort df_total = Ok groups -> ρ ∈ rows groups ->
  road_row_ok df_total ρ.
Proof.
  unfold road_groups. intros H Hρ.
  apply res_bind_Ok in H as (sums & Hsums & H).
  apply res_bind_Ok in H as (by_from & Hbf & H).
  apply res_bind_Ok in H as (fj & Hfj & H).
  apply res_bind_Ok in H as (by_to & Hbt & H).
  apply res_bind_Ok in H as (lj & Hlj & [= <-]).
  apply elem_of_merge_index in Hρ as (sf & t & Hsf & Ht & Hk3 & ->).
  apply elem_of_merge_index in Hsf as (s & f & Hs & Hf & Hk2 & ->).
  apply groupby_sum_inv in Hsums as (ks1 & Hks1 & F1).
  destruct (Forall2_elem_r _ _ _ _ F1 Hs) as (k1 & Hk1 & m & Hm & ->).
  apply groupby_pick_inv in Hfj as (ks2 & Hks2 & Rf). rewrite Rf in Hf.
  apply list_elem_of_fmap in Hf as (k2 & -> & Hk2in).
  apply groupby_pick_inv in Hlj as (ks3 & Hks3 & Rl). rewrite Rl in Ht.
  apply list_elem_of_fmap in Ht as (k3 & -> & Hk3in).
  set (fv := first_valid _) in *. set (lv := last_valid _) in *.
  assert (Hroad1 : forall a : gmap string json, cell (<["road" := k1]> m ∪ a) "road" = k1).
  { intros a. unfold cell.
    erewrite lookup_union_Some_l; [done|]. by rewrite lookup_insert_eq. }
  assert (Hroad : forall (a b : gmap string json), cell (<["road" := k1]> m ∪ a ∪ b) "road" = k1).
  { intros a b. unfold cell.
    erewrite lookup_union_Some_l; [done|].
    erewrite lookup_union_Some_l; [done|]. by rewrite lookup_insert_eq. }
  assert (Hf0 : m !! "from_name" = None /\ m !! "to_name" = None).
  { split; eapply sum_cols_lookup_None; try exact Hm;
      intros [_ Hc]%list_elem_of_filter; by destruct (agg_not_road _ Hc) as (? & ? & ?). }
  destruct Hf0 as [Hmf Hmt].
  assert (Hk12 : key_eqb k1 k2 = true).
  { unfold cell in Hk2. by rewrite !lookup_insert_eq in Hk2. }
  assert (Hk13 : key_eqb k1 k3 = true).
  { rewrite Hroad1 in Hk3. unfold cell in Hk3. by rewrite !lookup_insert_eq in Hk3. }
  destruct (group_key_member _ _ _ _ Hks1 Hk1) as (Hmiss & r1 & Hr1 & _).
  unfold road_row_ok. rewrite Hroad. split; [|split; [|split; [|split]]].
  - intros E. rewrite E in Hr1. by apply elem_of_nil in Hr1.
  - done.
  - intros c Hc Hcol.
    destruct (sum_cols_lookup _ _ _ _ c Hm) as (sc & Hsc & Hl).
    { by apply list_elem_of_filter. }
    assert (cell (<["road" := k1]> m ∪ <["road" := k2]> {["from_name" := fv]}
                  ∪ <["road" := k3]> {["to_name" := lv]}) c = sc) as ->.
    { unfold cell.
      destruct (agg_not_road c Hc) as (? & ? & ?).
      erewrite lookup_union_Some_l; [done|].
      erewrite lookup_union_Some_l; [done|].
      by rewrite lookup_insert_ne. }
    apply group_sum_summed; [| |exact Hsc].
    + apply column_nil. intros E. rewrite E in Hr1. by apply elem_of_nil in Hr1.
    + intros x (r & -> & Hr)%list_elem_of_fmap.
      apply (list_elem_of_fmap_2 (fun r => cell r c)).
      by apply list_elem_of_filter in Hr as [_ ?].
  - assert (cell (<["road" := k1]> m ∪ <["road" := k2]> {["from_name" := fv]}
                  ∪ <["road" := k3]> {["to_name" := lv]}) "from_name" = fv) as ->.
    { unfold cell. erewrite lookup_union_Some_l; [done|].
      rewrite lookup_union_r by (by rewrite lookup_insert_ne).
      rewrite lookup_insert_ne by done. by rewrite lookup_singleton_eq. }
    eapply boundary_name_key_eqb; [exact Hk12|]. by apply picked_first.
  - assert (cell (<["road" := k1]> m ∪ <["road" := k2]> {["from_name" := fv]}
                  ∪ <["road" := k3]> {["to_name" := lv]}) "to_name" = lv) as ->.
    { unfold cell. rewrite lookup_union_r.
      - rewrite lookup_insert_ne by done. by rewrite lookup_singleton_eq.
      - apply lookup_union_None. split; [by rewrite lookup_insert_ne|].
        rewrite lookup_insert_ne by done. by rewrite lookup_singleton_ne. }
    eapply boundary_name_key_eqb; [exact Hk13|]. by apply picked_last.
Qed.

End Boundaries.

(** ** The road table *)

Lemma add_metrics_rows_fwd df d3 r :
  add_metrics df = Ok d3 -> r ∈ rows df ->
  exists r3, r3 ∈ rows d3 /\ forall c, c ∉ metric_targets -> cell r3 c = cell r c.
Proof.
  unfold add_metrics. intros H Hr.
  apply res_bind_Ok in H as (d1 & H1 & H).
  apply res_bind_Ok in H as (d2 & H2 & H3).
  apply assign_inv in H1 as (_ & _ & _ & F1).
  apply assign_inv in H2 as (_ & _ & _ & F2).
  apply assign_inv in H3 as (_ & _ & _ & F3).
  destruct (Forall2_elem_l _ _ _ _ F1 Hr) as (r1 & Hr1 & v1 & _ & ->).
  destruct (Forall2_elem_l _ _ _ _ F2 Hr1) as (r2 & Hr2 & v2 & _ & ->).
  destruct (Forall2_elem_l _ _ _ _ F3 Hr2) as (r3 & Hr3 & v3 & _ & ->).
  eexists. split; [done|]. intros c Hc.
  rewrite !cell_insert_ne; [done|..]; intros <-; apply Hc; unfold metric_targets; set_solver.
Qed.

Lemma agg_not_target c : c ∈ agg_columns -> c ∉ metric_targets.
Proof.
  unfold agg_columns, metric_targets. intros Hc Ht.
  repeat (apply elem_of_cons in Hc as [->|Hc];
    [repeat (apply elem_of_cons in Ht as [Ht|Ht]; [discriminate Ht|]);
     by apply elem_of_nil in Ht|]).
  by apply elem_of_nil in Hc.
Qed.

Lemma name_not_target c : c ∈ ["road"; "from_name"; "to_name"] -> c ∉ metric_targets.
Proof.
  unfold metric_targets. intros Hc Ht.
  repeat (apply elem_of_cons in Hc as [->|Hc];
    [repeat (apply elem_of_cons in Ht as [Ht|Ht]; [discriminate Ht|]);
     by apply elem_of_nil in Ht|]).
  by apply elem_of_nil in Hc.
Qed.

Lemma road_row_ok_ext df ρ ρ' :
  (forall c, c ∉ metric_targets -> cell ρ' c = cell ρ c) ->
  road_row_ok df ρ -> road_row_ok df ρ'.
Proof.
  intros Hc. unfold road_row_ok.
  rewrite !Hc by (apply name_not_target; set_solver).
  intros (? & ? & Hsum & ? & ?). split; [done|]. split; [done|]. split; [|done].
  intros c Hagg Hcol. rewrite Hc by by apply agg_not_target. auto.
Qed.

Section RoadRows.

Variable argsort : list float -> list nat.
Hypothesis Hperm : argsort_perm argsort.
Hypothesis Hsorted : argsort_sorted argsort.

Lemma road_table_rows df_total df_roads ρ :
  road_table argsort df_total = Ok df_roads -> ρ ∈ rows df_roads ->
  road_row_ok df_total ρ.
Proof.
  unfold road_table. intros H Hρ.
  apply res_bind_Ok in H as (groups & Hg & H).
  apply res_bind_Ok in H as (d3 & H3 & H4).
  pose proof (sort_values_elem _ _ _ _ _ _ H4 Hρ) as Hr3.
  destruct (add_metrics_rows _ _ _ H3 Hr3) as (_ & _ & r & Hr & Hsame).
  eapply road_row_ok_ext; [exact Hsame|]. by eapply road_groups_row.
Qed.

Lemma road_groups_cover df_total groups r :
  road_groups argsort df_total = Ok groups ->
  r ∈ rows df_total -> is_missing (cell r "road") = false ->
  exists ρ, ρ ∈ rows groups /\ key_eqb (cell r "road") (cell ρ "road") = true.
Proof.
  unfold road_groups. intros H Hr Hm.
  apply res_bind_Ok in H as (sums & Hsums & H).
  apply res_bind_Ok in H as (by_from & Hbf & H).
  apply res_bind_Ok in H as (fj & Hfj & H).
  apply res_bind_Ok in H as (by_to & Hbt & H).
  apply res_bind_Ok in H as (lj & Hlj & [= <-]).
  apply groupby_sum_inv in Hsums as (ks1 & Hks1 & F1).
  apply groupby_pick_inv in Hfj as (ks2 & Hks2 & Rf).
  apply groupby_pick_inv in Hlj as (ks3 & Hks3 & Rl).
  destruct (group_keys_cover _ _ _ _ Hks1 Hr Hm) as (k1 & Hk1 & Hk1v).
  assert (r ∈ rows by_from) as Hrf by (by rewrite (sort_values_perm _ _ _ _ _ Hperm Hbf)).
  assert (r ∈ rows by_to) as Hrt by (by rewrite (sort_values_perm _ _ _ _ _ Hperm Hbt)).
  destruct (group_keys_cover _ _ _ _ Hks2 Hrf Hm) as (k2 & Hk2 & Hk2v).
  destruct (group_keys_cover _ _ _ _ Hks3 Hrt Hm) as (k3 & Hk3 & Hk3v).
  destruct (Forall2_elem_l _ _ _ _ F1 Hk1) as (s & Hs & m & Hmm & ->).
  assert (Hk12 : key_eqb k1 k2 = true).
  { eapply key_eqb_trans; [exact Hk1v|]. by rewrite key_eqb_sym. }
  assert (Hk13 : key_eqb k1 k3 = true).
  { eapply key_eqb_trans; [exact Hk1v|]. by rewrite key_eqb_sym. }
  assert (Hroad1 : forall a : gmap string json, cell (<["road" := k1]> m ∪ a) "road" = k1).
  { intros a. unfold cell.
    erewrite lookup_union_Some_l; [done|]. by rewrite lookup_insert_eq. }
  eexists. split.
  - apply elem_of_merge_index. eexists _, _. split; [|split; [|split; [|done]]].
    + apply elem_of_merge_index. eexists _, _. split; [exact Hs|].
      split; [|split; [|done]].
      * rewrite Rf. by apply (list_elem_of_fmap_2 _ _ k2).
      * unfold cell at 1 2. by rewrite !lookup_insert_eq.
    + rewrite Rl. by apply (list_elem_of_fmap_2 _ _ k3).
    + rewrite Hroad1. unfold cell. by rewrite lookup_insert_eq.
  - unfold cell at 2. erewrite lookup_union_Some_l; [|apply lookup_union_Some_l; by rewrite lookup_insert_eq].
    simpl. by rewrite key_eqb_sym.
Qed.

Lemma road_table_cover df_total df_roads r :
  road_table argsort df_total = Ok df_roads ->
  r ∈ rows df_total -> is_missing (cell r "road") = false ->
  exists ρ, ρ ∈ rows df_roads /\ key_eqb (cell r "road") (cell ρ "road") = true.
Proof.
  unfold road_table. intros H Hr Hm.
  apply res_bind_Ok in H as (groups & Hg & H).
  apply res_bind_Ok in H as (d3 & H3 & H4).
  destruct (road_groups_cover _ _ _ Hg Hr Hm) as (ρ0 & Hρ0 & Hk).
  destruct (add_metrics_rows_fwd _ _ _ H3 Hρ0) as (ρ & Hρ & Hsame).
  exists ρ. split.
  - by rewrite (sort_values_perm _ _ _ _ _ Hperm H4).
  - rewrite Hsame; [done|]. apply name_not_target. set_solver.
Qed.

End RoadRows.

(** ** Runs of [process_data] *)

Lemma ge1b_at_least_1km (r : gmap string json) :
  ge1b (cell r "total_km") = true <-> at_least_1km r.
Proof.
  unfold ge1b, ge1, at_least_1km. split.
  - destruct (to_float (cell r "total_km")) as [x|]; simpl; [|done].
    destruct (PrimFloat.leb 1 x) eqn:E; [|done]. intros _. exists x.
    by destruct (float_leb_not_nan _ _ E).
  - intros (x & -> & _ & Hx). simpl. by rewrite Hx.
Qed.

Lemma loc_ge1_filtered df over :
  loc_ge1 "total_km" df = Ok over -> filtered_of df over.
Proof.
  intros (C & R)%loc_ge1_inv.
  assert (rows over = filter at_least_1km (rows df)) as E.
  { rewrite R. apply list_filter_iff. intros r. apply ge1b_at_least_1km. }
  split; [done|]. split; [done|]. rewrite E. apply sublist_filter.
Qed.

Section Runs.

Variable json_loads : string -> option json.
Variable argsort : list float -> list nat.
Variable can_write : string -> bool.

Lemma process_data_success metadata fs fs' s :
  process_data json_loads argsort can_write metadata fs = (fs', Ok s) ->
  exists dr lu t over roads rover,
    segments_stage json_loads argsort metadata fs = Ok (dr, lu, t) /\
    loc_ge1 "total_km" t = Ok over /\ road_table argsort t = Ok roads /\
    loc_ge1 "total_km" roads = Ok rover /\
    fs' = <[ALL_ROADS_1KM := rover]> (<[ALL_ROADS := roads]>
            (<[ALL_SEGMENTS_1KM := over]> (<[ALL_SEGMENTS := t]> fs))) /\
    fs' !! ALL_SEGMENTS = Some t /\ fs' !! ALL_SEGMENTS_1KM = Some over /\
    fs' !! ALL_ROADS = Some roads /\ fs' !! ALL_ROADS_1KM = Some rover /\
    s = mkSummary (length (rows t)) (length (rows over))
                  (length (rows roads)) (length (rows rover)) dr lu.
Proof.
  rewrite process_data_stages.
  destruct (segments_stage json_loads argsort metadata fs) as [[[dr lu] t]|e] eqn:E; [|done].
  intros H. apply outputs_stage_cases in H as (over & roads & rover & H1 & H2 & H3 & -> & ->).
  exists dr, lu, t, over, roads, rover. repeat split; try done.
  - rewrite !lookup_insert_ne by done. by rewrite lookup_insert_eq.
  - rewrite !lookup_insert_ne by done. by rewrite lookup_insert_eq.
  - rewrite !lookup_insert_ne by done. by rewrite lookup_insert_eq.
  - by rewrite lookup_insert_eq.
Qed.

Lemma process_data_failure metadata fs fs' e :
  process_data json_loads argsort can_write metadata fs = (fs', Raise e) ->
  (segments_stage json_loads argsort metadata fs = Raise e /\ fs' = fs) \/
  exists dr lu t,
    segments_stage json_loads argsort metadata fs = Ok (dr, lu, t) /\
    (fs' = fs \/ fs' = <[ALL_SEGMENTS := t]> fs \/
     exists over, loc_ge1 "total_km" t = Ok over /\
       (fs' = <[ALL_SEGMENTS_1KM := over]> (<[ALL_SEGMENTS := t]> fs) \/
        exists roads, road_table argsort t = Ok roads /\
          fs' = <[ALL_ROADS := roads]>
                  (<[ALL_SEGMENTS_1KM := over]> (<[ALL_SEGMENTS := t]> fs)))).
Proof.
  rewrite process_data_stages.
  destruct (segments_stage json_loads argsort metadata fs) as [[[dr lu] t]|e'] eqn:E.
  - intros H. apply outputs_stage_cases in H. right. exists dr, lu, t. auto.
  - intros [= <- <-]. by left.
Qed.

(** A row the extractor rejects ends the run before anything is written. *)
Lemma process_data_bad_row metadata fs df0 df datas data :
  fs !! INFOGRAPHICS_CSV = Some df0 ->
  apply_converter json_loads "data" df0 = Ok df ->
  get_col "data" df = Ok datas ->
  data ∈ datas -> is_ok (extract_record data) = false ->
  exists e, process_data json_loads argsort can_write metadata fs = (fs, Raise e).
Proof.
  intros Hfs Hconv Hcol Hin Hbad. rewrite process_data_stages.
  assert (is_ok (segments_stage json_loads argsort metadata fs) = false) as Hs.
  { unfold segments_stage, read_csv. simpl. rewrite Hfs. simpl.
    destruct (columns df0); [done|]. simpl. rewrite Hconv. simpl.
    destruct (get_method metadata _ _) as [dc|]; simpl; [|done].
    destruct (get_method dc "date_range" _) as [dr|]; simpl; [|done].
    destruct (get_method dc "last_update" _) as [lu|]; simpl; [|done].
    destruct (getitem0 dr); simpl; [|done].
    destruct (fs !! ROAD_SEGMENTS_CSV) as [rs|]; simpl; [|done].
    destruct (columns rs); simpl; [done|].
    assert (match rows df with [] => Ok [] | _ => get_col "data" df end = Ok datas) as ->.
    { destruct (rows df) eqn:Er; [|done].
      unfold get_col in Hcol. destruct (has_col "data" df); [|done].
      rewrite Er in Hcol. injection Hcol as <-. by apply elem_of_nil in Hin. }
    simpl. pose proof (mapM_fails extract_record datas data Hin Hbad) as Hf.
    unfold extract_all. destruct (mapM extract_record datas); [done|]. done. }
  destruct (segments_stage json_loads argsort metadata fs) as [x|e]; [done|]. eauto.
Qed.

End Runs.

(** ** Statistics without [meta] *)



Lemma bind_Ok_l {A B} (a : A) (f : A -> res B) : (Ok a ≫= f) = f a.
Proof. done. Qed.

Section MissingMeta.

Variable json_loads : string -> option json.
Variable argsort : list float -> list nat.
Variable can_write : string -> bool.

Lemma process_data_conv_fail metadata fs df0 e :
  fs !! INFOGRAPHICS_CSV = Some df0 ->
  apply_converter json_loads "data" df0 = Raise e ->
  exists e', process_data json_loads argsort can_write metadata fs = (fs, Raise e').
Proof.
  intros Hfs Hconv. rewrite process_data_stages.
  unfold segments_stage, read_csv. cbn [snd]. rewrite Hfs.
  destruct (columns df0); [by eexists|]. rewrite bind_Ok_l, Hconv. by eexists.
Qed.







End MissingMeta.

(** ** The derived columns of typed tables *)

Lemma groupby_sum_columns key cols df sums :
  groupby_sum key cols df = Ok sums -> columns sums = key :: cols.
Proof.
  unfold groupby_sum. destruct (negb (has_col key df)); [done|]. intros H.
  apply res_bind_Ok in H as (ks & _ & H).
  apply res_bind_Ok in H as (every & _ & H).
  by apply res_bind_Ok in H as (rs & _ & [= <-]).
Qed.

Lemma groupby_pick_columns pick key c df picked :
  groupby_pick pick key c df = Ok picked -> columns picked = [key; c].
Proof.
  unfold groupby_pick. destruct (negb (has_col key df)); [done|].
  destruct (negb (has_col c df)); [done|]. intros H.
  by apply res_bind_Ok in H as (ks & _ & [= <-]).
Qed.

Lemma road_groups_columns argsort df_total groups :
  road_groups argsort df_total = Ok groups ->
  columns groups = ("road" :: filter (fun c => c ∈ columns df_total) agg_columns
                    ++ ["from_name"; "to_name"])%list.
Proof.
  unfold road_groups. intros H.
  apply res_bind_Ok in H as (sums & Hs & H).
  apply res_bind_Ok in H as (by_from & _ & H).
  apply res_bind_Ok in H as (fj & Hf & H).
  apply res_bind_Ok in H as (by_to & _ & H).
  apply res_bind_Ok in H as (lj & Hl & [= <-]).
  apply groupby_sum_columns in Hs. apply groupby_pick_columns in Hf, Hl.
  unfold merge_index. cbn [columns]. rewrite Hs, Hf, Hl.
  rewrite !filter_cons_False by (intros ?; done).
  rewrite !filter_cons_True by done. rewrite filter_nil.
  by rewrite <- app_assoc.
Qed.

Lemma ints_of_cells vs :
  Forall int_id vs ->
  exists zs, vs = JInt <$> zs /\ Forall (fun z => in_int64 z = true) zs.
Proof.
  induction 1 as [|v vs (z & -> & Hz) _ (zs & -> & Hzs)]; [by exists []|].
  exists (z :: zs). split; [done|by constructor].
Qed.

Lemma floats_of_cells vs :
  Forall (fun v => exists f, v = JFloat f) vs -> exists fs, vs = JFloat <$> fs.
Proof.
  induction 1 as [|v vs (f & ->) _ (fs & ->)]; [by exists []|]. by exists (f :: fs).
Qed.

Lemma number_column_sub c df df' :
  (forall ρ, ρ ∈ rows df' -> exists r, r ∈ rows df /\ cell ρ c = cell r c) ->
  number_column c df -> number_column c df'.
Proof.
  intros Hsub [H|H]; [left|right]; apply Forall_forall; intros ρ Hρ;
    destruct (Hsub ρ Hρ) as (r & Hr & ->); rewrite Forall_forall in H; by apply H.
Qed.

Lemma int_column_sub c (rs rs' : list (gmap string json)) :
  (forall ρ, ρ ∈ rs' -> exists r, r ∈ rs /\ cell ρ c = cell r c) ->
  Forall (fun r => int_id (cell r c)) rs -> Forall (fun r => int_id (cell r c)) rs'.
Proof.
  intros Hsub H. apply Forall_forall. intros ρ Hρ.
  destruct (Hsub ρ Hρ) as (r & Hr & ->). rewrite Forall_forall in H. by apply H.
Qed.

Lemma metrics_hold_ext r r' :
  (forall c, c ∈ metric_columns -> cell r' c = cell r c) ->
  metrics_hold r -> metrics_hold r'.
Proof.
  intros Hc (a & b & k & H). exists a, b, k.
  rewrite !Hc by by_compute. exact H.
Qed.

(** The type of a numeric column and the floats its cells are read as. *)
Lemma number_column_floats c df :
  rows df ≠ [] -> number_column c df ->
  (col_dtype c (rows df) = int64 \/ col_dtype c (rows df) = float64) /\
  Forall (fun r => exists k, to_float (cell r c) = Ok k) (rows df).
Proof.
  intros Hne Hn. destruct (number_column_dtype _ _ Hne Hn) as [[T H]|[T H]].
  - split; [by left|]. eapply Forall_impl; [exact H|].
    simpl. intros r (z & -> & _). by eexists.
  - split; [by right|]. eapply Forall_impl; [exact H|].
    simpl. intros r (f & ->). by eexists.
Qed.

Lemma col_div_numbers t a b :
  t = int64 \/ t = float64 -> col_div int64 t a b = cell_div a b.
Proof. by intros [->| ->]. Qed.

Lemma add_metrics_hold df d3 :
  add_metrics df = Ok d3 ->
  Forall (fun r => int_id (cell r "severity_fatal_count")) (rows df) ->
  Forall (fun r => int_id (cell r "severity_severe_count")) (rows df) ->
  number_column "total_km" df ->
  Forall metrics_hold (rows d3).
Proof.
  unfold add_metrics. intros H Hf Hs Hk.
  apply res_bind_Ok in H as (d1 & H1 & H).
  apply res_bind_Ok in H as (d2 & H2 & H3).
  apply assign_inv in H1 as (_ & _ & _ & F1).
  apply assign_inv in H2 as (_ & _ & _ & F2).
  apply assign_inv in H3 as (_ & _ & _ & F3).
  destruct (decide (rows df = [])) as [E|Hne].
  { rewrite E in F1. apply Forall2_nil_inv_l in F1. rewrite F1 in F2.
    apply Forall2_nil_inv_l in F2. rewrite F2 in F3.
    apply Forall2_nil_inv_l in F3. rewrite F3. constructor. }
  assert (rows d1 ≠ []) as Hne1 by (by rewrite <- (Forall2_nil_iff _ _ _ F1)).
  assert (rows d2 ≠ []) as Hne2 by (by rewrite <- (Forall2_nil_iff _ _ _ F2)).
  destruct (number_column_floats _ _ Hne Hk) as [Tk Hkm].
  assert (col_dtype "severity_fatal_count" (rows df) = int64) as T1.
  { apply dtype_of_ints; [by apply column_nil|by apply Forall_column]. }
  assert (col_dtype "severity_severe_count" (rows df) = int64) as T2.
  { apply dtype_of_ints; [by apply column_nil|by apply Forall_column]. }
  rewrite T1, T2 in F1.
  assert (Forall (fun r' => int_id (cell r' "fatal_severe_accidents")) (rows d1)) as Hfsa.
  { eapply assigned_target; [exact F1|]. intros r v Hr Hv.
    rewrite Forall_forall in Hf, Hs.
    destruct (Hf r Hr) as (a & Ea & _). destruct (Hs r Hr) as (b & Eb & _).
    cbv beta in Hv. rewrite Ea, Eb in Hv. injection Hv as <-. apply int_id_wrap. }
  assert (col_dtype "fatal_severe_accidents" (rows d1) = int64) as T3.
  { apply dtype_of_ints; [by apply column_nil|by apply Forall_column]. }
  assert (col_dtype "total_km" (rows d1) = col_dtype "total_km" (rows df)) as T4.
  { unfold col_dtype. by rewrite (assigned_column _ _ _ _ _ F1). }
  rewrite T3, T4 in F2.
  assert (col_dtype "severity_fatal_count" (rows d2) = int64) as T5.
  { unfold col_dtype.
    by rewrite (assigned_column _ _ _ _ _ F2), (assigned_column _ _ _ _ _ F1). }
  assert (col_dtype "total_km" (rows d2) = col_dtype "total_km" (rows df)) as T6.
  { unfold col_dtype.
    by rewrite (assigned_column _ _ _ _ _ F2), (assigned_column _ _ _ _ _ F1). }
  rewrite T5, T6 in F3.
  apply Forall_forall. intros r3 Hr3.
  destruct (Forall2_elem_r _ _ _ _ F3 Hr3) as (r2 & Hr2 & v3 & Hv3 & ->).
  destruct (Forall2_elem_r _ _ _ _ F2 Hr2) as (r1 & Hr1 & v2 & Hv2 & ->).
  destruct (Forall2_elem_r _ _ _ _ F1 Hr1) as (r & Hr & v1 & Hv1 & ->).
  rewrite !cell_insert_eq, ?cell_insert_ne in Hv2 by done.
  rewrite ?cell_insert_ne in Hv3 by done.
  rewrite Forall_forall in Hf, Hs, Hkm.
  destruct (Hf r Hr) as (a & Ea & _). destruct (Hs r Hr) as (b & Eb & _).
  destruct (Hkm r Hr) as (k & Ek).
  rewrite Ea, Eb in Hv1. injection Hv1 as <-.
  rewrite col_div_numbers in Hv2, Hv3 by done.
  unfold cell_div in Hv2, Hv3. rewrite Ek in Hv2, Hv3. rewrite Ea in Hv3.
  simpl in Hv2, Hv3. injection Hv2 as <-. injection Hv3 as <-.
  exists a, b, k.
  repeat (rewrite ?cell_insert_eq; rewrite ?cell_insert_ne by done).
  repeat split; try done.
  intros Hr'. by rewrite wrap64_id.
Qed.

(** [add_metrics] keeps the cells of the columns it reads. *)
Lemma add_metrics_same df d3 c :
  add_metrics df = Ok d3 -> c ∉ metric_targets ->
  forall ρ, ρ ∈ rows d3 -> exists r, r ∈ rows df /\ cell ρ c = cell r c.
Proof.
  intros H Hc ρ Hρ.
  destruct (add_metrics_rows _ _ _ H Hρ) as (_ & _ & r & Hr & Hsame).
  exists r. split; [done|]. by apply Hsame.
Qed.

Lemma add_metrics_sources df d3 :
  add_metrics df = Ok d3 ->
  "severity_fatal_count" ∈ columns df /\ "severity_severe_count" ∈ columns df /\
  "total_km" ∈ columns df.
Proof.
  unfold add_metrics. intros H.
  apply res_bind_Ok in H as (d1 & H1 & H).
  apply res_bind_Ok in H as (d2 & H2 & H3).
  apply assign_inv in H1 as (Ha1 & Hb1 & C1 & _).
  apply assign_inv in H2 as (_ & Hb2 & _ & _).
  rewrite C1, elem_of_add_col in Hb2. destruct Hb2 as [?|?]; done.
Qed.

(** The sums of [road_groups], column by column. *)
Lemma road_groups_sums argsort df_total groups ρ c :
  road_groups argsort df_total = Ok groups -> ρ ∈ rows groups ->
  c ∈ agg_columns -> c ∈ columns df_total ->
  summed (column c (rows df_total))
         (column c (members "road" (cell ρ "road") df_total)) (cell ρ c).
Proof.
  unfold road_groups. intros H Hρ Hc Hcol.
  apply res_bind_Ok in H as (sums & Hsums & H).
  apply res_bind_Ok in H as (by_from & Hbf & H).
  apply res_bind_Ok in H as (fj & Hfj & H).
  apply res_bind_Ok in H as (by_to & Hbt & H).
  apply res_bind_Ok in H as (lj & Hlj & [= <-]).
  apply elem_of_merge_index in Hρ as (sf & t & Hsf & Ht & Hk3 & ->).
  apply elem_of_merge_index in Hsf as (s & f & Hs & Hf & Hk2 & ->).
  apply groupby_sum_inv in Hsums as (ks1 & Hks1 & F1).
  destruct (Forall2_elem_r _ _ _ _ F1 Hs) as (k1 & Hk1 & m & Hm & ->).
  destruct (group_key_member _ _ _ _ Hks1 Hk1) as (Hmiss & r1 & Hr1 & _).
  destruct (sum_cols_lookup _ _ _ _ c Hm) as (sc & Hsc & Hl).
  { by apply list_elem_of_filter. }
  assert (c ≠ "road") as Hne.
  { intros ->. revert Hc. unfold agg_columns. by_compute. }
  assert (cell (<["road" := k1]> m ∪ f ∪ t) "road" = k1) as ->.
  { unfold cell. erewrite lookup_union_Some_l; [done|].
    erewrite lookup_union_Some_l; [done|]. by rewrite lookup_insert_eq. }
  assert (cell (<["road" := k1]> m ∪ f ∪ t) c = sc) as ->.
  { unfold cell. erewrite lookup_union_Some_l; [done|].
    erewrite lookup_union_Some_l; [done|]. by rewrite lookup_insert_ne. }
  apply group_sum_summed; [| |exact Hsc].
  - apply column_nil. intros E. rewrite E in Hr1. by apply elem_of_nil in Hr1.
  - intros x (r & -> & Hr)%list_elem_of_fmap.
    apply (list_elem_of_fmap_2 (fun r => cell r c)).
    by apply list_elem_of_filter in Hr as [_ ?].
Qed.

Section TypedTables.

Variable argsort : list float -> list nat.

(** The counts of the joined table are those of the records, its
    kilometre columns those of the reference table, and [total_km] is a
    numeric column. *)
Lemma joined_typed all_list road_segments joined d0 :
  Forall (int_field "severity_fatal_count") all_list ->
  Forall (int_field "severity_severe_count") all_list ->
  number_column "from_km" road_segments -> number_column "to_km" road_segments ->
  join_segments all_list road_segments = Ok joined ->
  assign "total_km" col_sub "to_km" "from_km" joined = Ok d0 ->
  Forall (fun r => int_id (cell r "severity_fatal_count")) (rows d0) /\
  Forall (fun r => int_id (cell r "severity_severe_count")) (rows d0) /\
  number_column "total_km" d0.
Proof.
  intros Hf Hs Hfrom Hto Hj H0.
  apply join_segments_inv in Hj as (right & _ & Cr & Rr & Hl & Cj & Hrows).
  apply assign_inv in H0 as (Hto_in & Hfrom_in & _ & F0).
  assert (forall k, Forall (int_field k) all_list ->
            last_char k ≠ Some "x"%char -> k ∉ reference_columns ->
            Forall (fun r => int_id (cell r k)) (rows joined)) as Hleft.
  { intros k Hk Hx Hnr. apply Forall_forall.
    intros ρ (l & r & Hin & Hr & _ & ->)%Hrows.
    destruct (DataFrame_of_int_field _ _ _ Hk Hin) as (d & z & Hd & _ & Hz & El).
    rewrite merge_row_left_key; [by exists z|done| |by rewrite Cr].
    cbn [columns DataFrame_of]. apply int_field_key; [|done].
    intros ->. by apply elem_of_nil in Hd. }
  assert (forall k, k ∈ reference_columns ->
            last_char k ≠ Some "x"%char -> last_char k ≠ Some "y"%char ->
            k ∈ columns joined ->
            forall ρ, ρ ∈ rows joined ->
              exists r0, r0 ∈ rows road_segments /\ cell ρ k = cell r0 k) as Hright.
  { intros k Hk Hx Hy Hin ρ (l & r & _ & Hr & _ & ->)%Hrows.
    rewrite Rr in Hr. apply list_elem_of_fmap in Hr as (r0 & -> & Hr0).
    exists r0. split; [done|].
    rewrite merge_row_right_key; [by apply cell_restrict|done|done| |by rewrite Cr].
    apply (joined_column_right (DataFrame_of all_list) right k Hx Hy).
    - by rewrite Cr.
    - rewrite Cr. by rewrite Cj in Hin. }
  assert (Forall (fun r => int_id (cell r "severity_fatal_count")) (rows joined)) as Hfj
    by (apply Hleft; [done|done|by_compute]).
  assert (Forall (fun r => int_id (cell r "severity_severe_count")) (rows joined)) as Hsj
    by (apply Hleft; [done|done|by_compute]).
  split; [|split].
  - apply Forall_column. rewrite (assigned_column _ _ _ _ _ F0) by done.
    by apply Forall_column.
  - apply Forall_column. rewrite (assigned_column _ _ _ _ _ F0) by done.
    by apply Forall_column.
  - destruct (decide (rows joined = [])) as [E|Hne].
    { rewrite E in F0. apply Forall2_nil_inv_l in F0. left. rewrite F0. constructor. }
    assert (number_column "to_km" joined) as Nto.
    { eapply number_column_sub; [|exact Hto]. apply Hright; [by_compute|done|done|done]. }
    assert (number_column "from_km" joined) as Nfrom.
    { eapply number_column_sub; [|exact Hfrom]. apply Hright; [by_compute|done|done|done]. }
    destruct (number_column_dtype _ _ Hne Nto) as [[T1 C1]|[T1 C1]];
      destruct (number_column_dtype _ _ Hne Nfrom) as [[T2 C2]|[T2 C2]];
      rewrite T1, T2 in F0; rewrite Forall_forall in C1, C2.
    + left. eapply assigned_target; [exact F0|]. intros r v Hr Hv. cbv beta in Hv.
      destruct (C1 r Hr) as (a & Ea & _). destruct (C2 r Hr) as (b & Eb & _).
      rewrite Ea, Eb in Hv. injection Hv as <-. apply int_id_wrap.
    + right. apply (assigned_target "total_km" _ (fun v => exists f, v = JFloat f) _ _ F0).
      intros r v Hr Hv. cbv beta in Hv.
      destruct (C1 r Hr) as (a & Ea & _). destruct (C2 r Hr) as (b & Eb).
      rewrite Ea, Eb in Hv. injection Hv as <-. by eexists.
    + right. apply (assigned_target "total_km" _ (fun v => exists f, v = JFloat f) _ _ F0).
      intros r v Hr Hv. cbv beta in Hv.
      destruct (C1 r Hr) as (a & Ea). destruct (C2 r Hr) as (b & Eb & _).
      rewrite Ea, Eb in Hv. injection Hv as <-. by eexists.
    + right. apply (assigned_target "total_km" _ (fun v => exists f, v = JFloat f) _ _ F0).
      intros r v Hr Hv. cbv beta in Hv.
      destruct (C1 r Hr) as (a & Ea). destruct (C2 r Hr) as (b & Eb).
      rewrite Ea, Eb in Hv. injection Hv as <-. by eexists.
Qed.

Lemma segment_table_typed all_list road_segments df_total :
  Forall (int_field "severity_fatal_count") all_list ->
  Forall (int_field "severity_severe_count") all_list ->
  number_column "from_km" road_segments -> number_column "to_km" road_segments ->
  segment_table argsort all_list road_segments = Ok df_total ->
  Forall metrics_hold (rows df_total) /\
  Forall (fun r => int_id (cell r "severity_fatal_count")) (rows df_total) /\
  Forall (fun r => int_id (cell r "severity_severe_count")) (rows df_total) /\
  number_column "total_km" df_total.
Proof.
  intros Hf Hs Hfrom Hto H. unfold segment_table in H.
  apply res_bind_Ok in H as (joined & Hj & H).
  apply res_bind_Ok in H as (d0 & H0 & H).
  apply res_bind_Ok in H as (d3 & H3 & H).
  apply res_bind_Ok in H as (d4 & H4 & H).
  apply select_inv in H as (C & R).
  destruct (joined_typed _ _ _ _ Hf Hs Hfrom Hto Hj H0) as (Tf & Ts & Tk).
  pose proof (add_metrics_hold _ _ H3 Tf Ts Tk) as Hm.
  assert (forall c, c ∈ metric_columns -> c ∈ columns df_total) as Hcols.
  { intros c Hc. rewrite C. apply list_elem_of_filter. split.
    - apply sort_values_inv in H4 as (_ & -> & _). by eapply add_metrics_columns.
    - by apply metric_columns_selected. }
  assert (forall c, c ∈ metric_columns -> c ∉ metric_targets ->
            forall ρ, ρ ∈ rows df_total ->
              exists r, r ∈ rows d0 /\ cell ρ c = cell r c) as Hsame.
  { intros c Hc Hnt ρ Hρ. rewrite R in Hρ.
    apply list_elem_of_fmap in Hρ as (r4 & -> & Hr4).
    pose proof (sort_values_elem _ _ _ _ _ _ H4 Hr4) as Hr3.
    destruct (add_metrics_same _ _ c H3 Hnt _ Hr3) as (r & Hr & E).
    exists r. split; [done|]. rewrite cell_restrict; [done|].
    rewrite <- C. by apply Hcols. }
  split; [|split; [|split]].
  - rewrite R. apply Forall_forall. intros ρ (r4 & -> & Hr4)%list_elem_of_fmap.
    pose proof (sort_values_elem _ _ _ _ _ _ H4 Hr4) as Hr3.
    rewrite Forall_forall in Hm.
    eapply metrics_hold_ext; [|by apply Hm].
    intros c Hc. apply cell_restrict. rewrite <- C. by apply Hcols.
  - eapply int_column_sub; [|exact Tf]. apply Hsame; by_compute.
  - eapply int_column_sub; [|exact Ts]. apply Hsame; by_compute.
  - eapply number_column_sub; [|exact Tk]. apply Hsame; by_compute.
Qed.

Lemma road_table_metrics df_total df_roads :
  Forall (fun r => int_id (cell r "severity_fatal_count")) (rows df_total) ->
  Forall (fun r => int_id (cell r "severity_severe_count")) (rows df_total) ->
  number_column "total_km" df_total ->
  road_table argsort df_total = Ok df_roads -> Forall metrics_hold (rows df_roads).
Proof.
  intros Tf Ts Tk H. unfold road_table in H.
  apply res_bind_Ok in H as (groups & Hg & H).
  apply res_bind_Ok in H as (d3 & H3 & H4).
  destruct (add_metrics_sources _ _ H3) as (Cf & Cs & Ck).
  rewrite (road_groups_columns _ _ _ Hg) in Cf, Cs, Ck.
  assert (forall c, c ∈ ["severity_fatal_count"; "severity_severe_count"; "total_km"] ->
            c ∈ ("road" :: filter (fun c => c ∈ columns df_total) agg_columns
                 ++ ["from_name"; "to_name"])%list ->
            c ∈ agg_columns /\ c ∈ columns df_total) as Hin.
  { intros c Hc [->|[[? ?]%list_elem_of_filter|Hn]%elem_of_app]%elem_of_cons; [|done|].
    - exfalso. revert Hc. by_compute.
    - exfalso. revert c Hc Hn.
      apply (Forall_forall (fun c => c ∉ ["from_name"; "to_name"])). by_compute. }
  assert (forall c, c ∈ agg_columns -> c ∈ columns df_total ->
            Forall (fun r => int_id (cell r c)) (rows df_total) ->
            Forall (fun r => int_id (cell r c)) (rows groups)) as Hints.
  { intros c Hc Hcol Hi. apply Forall_forall. intros ρ Hρ.
    destruct (road_groups_sums _ _ _ _ _ Hg Hρ Hc Hcol) as [Hsum _].
    apply Forall_column, ints_of_cells in Hi as (zs & E & Hz).
    destruct (Hsum zs E Hz) as (ps & _ & -> & _). apply int_id_wrap. }
  assert (Forall metrics_hold (rows d3)) as Hm.
  { destruct (Hin "severity_fatal_count" ltac:(by_compute) Cf) as [? ?].
    destruct (Hin "severity_severe_count" ltac:(by_compute) Cs) as [? ?].
    destruct (Hin "total_km" ltac:(by_compute) Ck) as [? ?].
    apply (add_metrics_hold _ _ H3); [by apply Hints|by apply Hints|].
    destruct Tk as [Hi|Hfl]; [left; by apply Hints|right].
    apply Forall_forall. intros ρ Hρ.
    destruct (road_groups_sums _ _ _ _ "total_km" Hg Hρ) as [_ Hsum]; [done|done|].
    apply (Forall_column (fun v => exists f, v = JFloat f)), floats_of_cells in Hfl as (fs & E).
    destruct (Hsum fs E) as (ps & _ & ->). by eexists. }
  apply Forall_forall. intros ρ Hρ.
  pose proof (sort_values_elem _ _ _ _ _ _ H4 Hρ) as Hr3.
  rewrite Forall_forall in Hm. by apply Hm.
Qed.

End TypedTables.

(** ** Results by evaluation *)

Lemma from_ok_eq {A} (d : A) (m : res A) : is_ok m = true -> m = Ok (from_ok d m).
Proof. by destruct m. Qed.

Lemma pair_snd_eq {A B} (p : A * B) (b : B) : p.2 = b -> p = (p.1, b).
Proof. destruct p. by intros <-. Qed.

(** ** The scenario of the specification, evaluated

    Segments 1 (X to Y, 2 km, one fatal and one severe accident) and 2 (Y to
    Z, 3 km, two severe accidents) of road A1. *)

Example end_to_end :
  (demo_run always).2 =
    Processed (Ok (mkSummary 2 2 1 1 (JArr [JInt 2019; JInt 2023])
                             (JStr "2024-01-01T00:00:00Z"))) /\
  view ["road_segment_id"; "total_km"; "fatal_severe_accidents_per_km"] demo_total =
    [[JInt 1; JFloat 2; JFloat 1]; [JInt 2; JFloat 3; JFloat (2 / 3)]] /\
  view ["road"; "total_km"; "fatal_severe_accidents"; "fatal_severe_accidents_per_km";
        "from_name"; "to_name"] demo_roads =
    [[JStr "A1"; JFloat 5; JInt 4; JFloat (4 / 5); JStr "X"; JStr "Z"]].
Proof. vm_compute. repeat split. Qed.

(** * The properties of the pipeline *)

Section Claims.

Variable json_loads : string -> option json.
Variable argsort : list float -> list nat.
Variable can_write : string -> bool.
Variable other_frame : json -> res DataFrame.

(** C1 (amended). A named widget that is absent makes the extraction of the
    row fail, and with it the extraction of every row set that holds it and
    the whole run, before anything is written; when the rest of the row can
    be read (its location fields, its widgets, and the other named widget)
    the exception is the [IndexError] of the lookup [[0]].  A named widget
    that occurs several times raises nothing: the record is emitted, made
    of the two location fields, then the items of the first
    [accident_count_by_severity] widget, then those of the first
    [injured_count_by_severity] widget. *)
Theorem widget_lookup_policy (name : string) (data : json) :
  name ∈ widget_names ->
  (occurrences name data = 0 ->
     is_ok (extract_record data) = false /\
     (forall datas, data ∈ datas -> is_ok (extract_all datas) = false) /\
     (forall metadata fs df0 df datas,
        fs !! INFOGRAPHICS_CSV = Some df0 ->
        apply_converter json_loads "data" df0 = Ok df ->
        get_col "data" df = Ok datas -> data ∈ datas ->
        exists e, process_data json_loads argsort can_write metadata fs = (fs, Raise e)) /\
     (forall li id nm ws,
        location_info data = Ok li ->
        getitem li "road_segment_id" = Ok id ->
        getitem li "road_segment_name" = Ok nm ->
        (getitem data "widgets" ≫= py_iter) = Ok ws -> Forall readable ws ->
        (name = "injured_count_by_severity" ->
         exists wa da, first_named "accident_count_by_severity" ws = Some wa /\
                       (items_of wa ≫= py_dict) = Ok da) ->
        extract_record data = Raise IndexError)) /\
  (1 < occurrences name data ->
   forall li id nm ws wa da wi di,
     location_info data = Ok li ->
     getitem li "road_segment_id" = Ok id ->
     getitem li "road_segment_name" = Ok nm ->
     (getitem data "widgets" ≫= py_iter) = Ok ws -> Forall readable ws ->
     first_named "accident_count_by_severity" ws = Some wa ->
     (items_of wa ≫= py_dict) = Ok da ->
     first_named "injured_count_by_severity" ws = Some wi ->
     (items_of wi ≫= py_dict) = Ok di ->
     extract_record data =
       Ok (dict_or (dict_or [("road_segment_id", id); ("road_segment_name", nm)] da) di)).
Proof.
  intros Hname. split.
  - intros H0. pose proof (extract_record_absent _ _ Hname H0) as Hbad.
    split; [done|]. split; [|split].
    + intros datas Hin. by eapply mapM_fails.
    + intros metadata fs df0 df datas Hfs Hconv Hcol Hin.
      by eapply process_data_bad_row.
    + intros li id nm ws Hli Hid Hnm Hws Hr Hacc.
      rewrite (extract_record_readable _ _ _ _ _ Hli Hid Hnm Hws Hr).
      pose proof (first_named_absent _ _ _ Hws H0) as Hnone.
      unfold widget_names in Hname.
      apply elem_of_cons in Hname as [->|Hname]; [by rewrite Hnone|].
      apply elem_of_cons in Hname as [->|Hname]; [|by apply elem_of_nil in Hname].
      destruct (Hacc eq_refl) as (wa & da & -> & ->). simpl. by rewrite Hnone.
  - intros _ li id nm ws wa da wi di Hli Hid Hnm Hws Hr Ha Hda Hi Hdi.
    rewrite (extract_record_readable _ _ _ _ _ Hli Hid Hnm Hws Hr).
    rewrite Ha, Hda. simpl. by rewrite Hi, Hdi.
Qed.

(** C2 (amended). Both sorts keep every row and put the rows in descending
    order of [fatal_severe_accidents_per_km], the rows whose ratio is [NaN]
    last, whatever index sort meets the contract of [sort_values]. *)
Theorem sorts_are_descending all_list road_segments df_total :
  argsort_perm argsort -> argsort_sorted argsort ->
  segment_table argsort all_list road_segments = Ok df_total ->
  sorted_desc "fatal_severe_accidents_per_km" df_total /\
  (forall d3, segment_metrics all_list road_segments = Ok d3 ->
     rows df_total ≡ₚ restrict (columns df_total) <$> rows d3) /\
  (forall df_roads, road_table argsort df_total = Ok df_roads ->
     sorted_desc "fatal_severe_accidents_per_km" df_roads /\
     forall r3, road_metrics argsort df_total = Ok r3 -> rows df_roads ≡ₚ rows r3).
Proof.
  intros Hp Hs Ht. split; [|split].
  - rewrite segment_table_stages in Ht.
    apply res_bind_Ok in Ht as (d3 & H3 & Ht).
    apply res_bind_Ok in Ht as (d4 & H4 & Ht).
    apply select_inv in Ht as Hsel. destruct Hsel as [C R].
    destruct df_total as [cols rs]. simpl in C, R. subst cols rs.
    apply sorted_desc_restrict.
    + apply list_elem_of_filter. split.
      * pose proof H4 as (? & -> & _)%sort_values_inv. done.
      * unfold segment_columns. by_compute.
    + destruct (sort_values_sorted_desc _ _ _ _ Hs H4) as (ks & ? & ?). by exists ks.
  - intros d3 H3. by destruct (segment_table_rows _ _ _ _ _ Hp H3 Ht).
  - intros df_roads Hr. split.
    + unfold road_table in Hr.
      apply res_bind_Ok in Hr as (groups & Hg & Hr).
      apply res_bind_Ok in Hr as (d3 & H3 & H4).
      by eapply sort_values_sorted_desc.
    + intros r3 H3. unfold road_table in Hr. unfold road_metrics in H3.
      destruct (road_groups argsort df_total) as [groups|]; [|done].
      simpl in *. rewrite H3 in Hr. simpl in Hr. by eapply sort_values_perm.
Qed.




(** C6. In a run that succeeds, each [total_km >= 1] table written has the
    columns of the full table written beside it, in the same order, and its
    rows are exactly the rows of the full table with [total_km >= 1], in the
    order of the full table. *)
Theorem filtered_tables metadata fs fs' s :
  process_data json_loads argsort can_write metadata fs = (fs', Ok s) ->
  exists segments segments_1km roads roads_1km,
    fs' !! ALL_SEGMENTS = Some segments /\
    fs' !! ALL_SEGMENTS_1KM = Some segments_1km /\
    fs' !! ALL_ROADS = Some roads /\
    fs' !! ALL_ROADS_1KM = Some roads_1km /\
    filtered_of segments segments_1km /\ filtered_of roads roads_1km.
Proof.
  intros H. apply process_data_success in H
    as (dr & lu & t & over & roads & rover & _ & H1 & _ & H2 & _ & ? & ? & ? & ? & _).
  exists t, over, roads, rover. repeat split; try done; by apply loc_ge1_filtered.
Qed.

(** C7 (amended). Every road value of the segment table that is not missing
    has a road row.  In a road row, each count column and [total_km] is the
    sum of that column over exactly the segment rows of that road: the sum
    in 64-bit arithmetic for a column of integers, which is their sum when
    it is in range, and the compensated sum of the floats that are not
    [NaN] for a column of floats.  [from_name] is the name of a row of
    lowest [from_km] among the rows of the road that have a [from_name], and
    [to_name] the name of a row of highest [to_km] among those that have a
    [to_name] (a missing km counting as the highest), the two chosen
    independently; a road none of whose rows has the name gets a missing
    one. *)
Theorem road_rollup df_total df_roads :
  argsort_perm argsort -> argsort_sorted argsort ->
  road_table argsort df_total = Ok df_roads ->
  (forall ρ, ρ ∈ rows df_roads -> road_row_ok df_total ρ) /\
  (forall r, r ∈ rows df_total -> is_missing (cell r "road") = false ->
     exists ρ, ρ ∈ rows df_roads /\ key_eqb (cell r "road") (cell ρ "road") = true).
Proof.
  intros Hp Hs Hr. split.
  - intros ρ Hρ. by eapply road_table_rows.
  - intros r Hin Hm. by eapply road_table_cover.
Qed.

(** C8 (amended). When the two severity counts of every record are integers
    of 64 bits and the kilometre columns of the reference table are
    numeric, then in every row of the segment table and of the road table
    [fatal_severe_accidents] is
    [severity_fatal_count + severity_severe_count] in 64-bit arithmetic, the
    sum itself when it is in range, [fatal_severe_accidents_per_km] is the
    binary64 quotient of [fatal_severe_accidents] by [total_km] and
    [fatal_accidents_per_km] that of [severity_fatal_count] by [total_km]. *)
Theorem derived_metrics_hold all_list road_segments df_total :
  Forall (int_field "severity_fatal_count") all_list ->
  Forall (int_field "severity_severe_count") all_list ->
  number_column "from_km" road_segments -> number_column "to_km" road_segments ->
  segment_table argsort all_list road_segments = Ok df_total ->
  Forall metrics_hold (rows df_total) /\
  forall df_roads, road_table argsort df_total = Ok df_roads ->
    Forall metrics_hold (rows df_roads).
Proof.
  intros Hf Hs Hfrom Hto H.
  destruct (segment_table_typed _ _ _ _ Hf Hs Hfrom Hto H) as (Hm & Tf & Ts & Tk).
  split; [done|]. intros df_roads Hr. by eapply road_table_metrics.
Qed.


End Claims.


(** * The properties on the worked data *)

Lemma demo_total_ok :
  segment_table merge_argsort demo_records demo_reference = Ok demo_total.
Proof. apply from_ok_eq. computed. Qed.

Lemma demo_roads_ok : road_table merge_argsort demo_total = Ok demo_roads.
Proof. apply from_ok_eq. computed. Qed.

(** A row whose [accident_count_by_severity] widget occurs twice is
    accepted: the record is built, with the counts of the first occurrence. *)
Lemma duplicate_widget_accepted :
  occurrences "accident_count_by_severity" dup_row = 2 /\
  extract_record dup_row =
    Ok [("road_segment_id", JInt 7); ("road_segment_name", JStr "dup");
        ("severity_fatal_count", JInt 1); ("severity_severe_count", JInt 1);
        ("start_year", JInt 2019); ("end_year", JInt 2023); ("killed_count", JInt 1)].
Proof. split; computed. Qed.

Lemma readable_widget name items : readable (widget name items).
Proof. split; [done|]. intros n _ _. done. Qed.

(** [widget_lookup_policy] on a row without the
    [injured_count_by_severity] widget, and on a row with two
    [accident_count_by_severity] widgets. *)
Lemma widget_lookup_policy_witness :
  ("injured_count_by_severity" ∈ widget_names /\
   occurrences "injured_count_by_severity" no_injured_row = 0 /\
   extract_record no_injured_row = Raise IndexError) /\
  ("accident_count_by_severity" ∈ widget_names /\
   1 < occurrences "accident_count_by_severity" dup_row /\
   extract_record dup_row =
     Ok (dict_or (dict_or [("road_segment_id", JInt 7); ("road_segment_name", JStr "dup")]
                    [("severity_fatal_count", JInt 1); ("severity_severe_count", JInt 1);
                     ("start_year", JInt 2019); ("end_year", JInt 2023)])
           [("killed_count", JInt 1); ("start_year", JInt 2019); ("end_year", JInt 2023)])).
Proof.
  assert ("injured_count_by_severity" ∈ widget_names) as Hi by (right; left).
  assert ("accident_count_by_severity" ∈ widget_names) as Ha by left.
  assert (occurrences "injured_count_by_severity" no_injured_row = 0) as H0 by computed.
  assert (1 < occurrences "accident_count_by_severity" dup_row) as H2
    by (vm_compute; lia).
  split.
  - split; [exact Hi|]. split; [exact H0|].
    refine (proj2 (proj2 (proj2 (proj1
              (widget_lookup_policy demo_loads merge_argsort always _ no_injured_row Hi) H0)))
              _ (JInt 8) (JStr "short") [accidents 1 1] eq_refl eq_refl eq_refl eq_refl _ _).
    + repeat constructor; apply readable_widget.
    + intros _. eexists _, _. split; reflexivity.
  - split; [exact Ha|]. split; [exact H2|].
    refine (proj2 (widget_lookup_policy demo_loads merge_argsort always _ dup_row Ha) H2
              _ (JInt 7) (JStr "dup") [accidents 1 1; accidents 9 9; injured 1]
              _ _ _ _ eq_refl eq_refl eq_refl eq_refl _ eq_refl eq_refl eq_refl eq_refl).
    repeat constructor; apply readable_widget.
Defined.

(** Thirty segments of one kilometre whose ratios are 0, 1, 2, 0, 1, 2, ...
    in this order before the sort of line 141.  numpy's quicksort leaves two
    segments of ratio 2 in the opposite of their order before the sort:
    segment 9 comes before segment 30 in the table that is sorted, and after
    it in the sorted one. *)
Lemma tie_order_not_kept :
  exists i j i' j' q,
    segment_metrics shuffle_records shuffle_reference = Ok shuffle_before /\
    segment_table npy_argsort shuffle_records shuffle_reference = Ok shuffle_total /\
    view ["road_segment_id"; "fatal_severe_accidents_per_km"] shuffle_before !! i
      = Some [JInt 9; JFloat q] /\
    view ["road_segment_id"; "fatal_severe_accidents_per_km"] shuffle_before !! j
      = Some [JInt 30; JFloat q] /\
    i < j /\
    view ["road_segment_id"; "fatal_severe_accidents_per_km"] shuffle_total !! i'
      = Some [JInt 9; JFloat q] /\
    view ["road_segment_id"; "fatal_severe_accidents_per_km"] shuffle_total !! j'
      = Some [JInt 30; JFloat q] /\
    j' < i'.
Proof.
  exists 8, 29, 1, 0, 2%float.
  split; [apply from_ok_eq; computed|]. split; [apply from_ok_eq; computed|].
  split; [computed|]. split; [computed|]. split; [lia|].
  split; [computed|]. split; [computed|lia].
Qed.

(** [sorts_are_descending] on the two segments of the scenario. *)
Lemma sorts_are_descending_witness :
  argsort_perm merge_argsort /\ argsort_sorted merge_argsort /\
  segment_table merge_argsort demo_records demo_reference = Ok demo_total /\
  sorted_desc "fatal_severe_accidents_per_km" demo_total.
Proof.
  destruct merge_argsort_contract as [Hp Hs].
  split; [exact Hp|]. split; [exact Hs|]. split; [exact demo_total_ok|].
  exact (proj1 (sorts_are_descending merge_argsort _ _ _ Hp Hs demo_total_ok)).
Defined.






(** [filtered_tables] on the run of the scenario. *)
Lemma filtered_tables_witness :
  demo_processed.2 = Ok demo_summary /\
  exists segments segments_1km roads roads_1km,
    demo_processed.1 !! ALL_SEGMENTS = Some segments /\
    demo_processed.1 !! ALL_SEGMENTS_1KM = Some segments_1km /\
    demo_processed.1 !! ALL_ROADS = Some roads /\
    demo_processed.1 !! ALL_ROADS_1KM = Some roads_1km /\
    filtered_of segments segments_1km /\ filtered_of roads roads_1km.
Proof.
  assert (demo_processed.2 = Ok demo_summary) as E by computed.
  split; [exact E|].
  exact (filtered_tables demo_loads merge_argsort always demo_metadata demo_sources
           _ _ (pair_snd_eq demo_processed _ E)).
Defined.

(** Segment 1 has the lowest [from_km] of road A1 and no [from_name]: the
    road row takes its [from_name] from segment 2. *)
Lemma road_from_name_skips_missing :
  view ["segment_id"; "road"; "from_km"; "from_name"]
    <$> segment_table merge_argsort demo_records gap_reference
    = Ok [[JInt 1; JStr "A1"; JFloat 0; JNull]; [JInt 2; JStr "A1"; JFloat 2; JStr "Y"]] /\
  view ["road"; "from_name"; "to_name"]
    <$> (segment_table merge_argsort demo_records gap_reference
           ≫= road_table merge_argsort)
    = Ok [[JStr "A1"; JStr "Y"; JStr "Z"]].
Proof. split; computed. Qed.

(** [road_rollup] on the tables of the scenario. *)
Lemma road_rollup_witness :
  argsort_perm merge_argsort /\ argsort_sorted merge_argsort /\
  road_table merge_argsort demo_total = Ok demo_roads /\
  (forall ρ, ρ ∈ rows demo_roads -> road_row_ok demo_total ρ) /\
  (forall r, r ∈ rows demo_total -> is_missing (cell r "road") = false ->
     exists ρ, ρ ∈ rows demo_roads /\ key_eqb (cell r "road") (cell ρ "road") = true).
Proof.
  destruct merge_argsort_contract as [Hp Hs].
  assert (road_table merge_argsort demo_total = Ok demo_roads) as Hr
    by (apply from_ok_eq; computed).
  split; [exact Hp|]. split; [exact Hs|]. split; [exact Hr|].
  exact (road_rollup merge_argsort _ _ Hp Hs Hr).
Defined.

(** Two counts of 2^62 each: their sum does not fit 64 bits, and
    [fatal_severe_accidents] is -2^63. *)
Lemma sum_of_counts_wraps :
  segment_table merge_argsort huge_records demo_reference = Ok huge_total /\
  view ["severity_fatal_count"; "severity_severe_count"; "fatal_severe_accidents"]
    huge_total
  = [[JInt 4611686018427387904; JInt 4611686018427387904; JInt (-9223372036854775808)]].
Proof. split; [apply from_ok_eq; computed|computed]. Qed.

(** [derived_metrics_hold] on the tables of the scenario. *)
Lemma derived_metrics_hold_witness :
  Forall (int_field "severity_fatal_count") demo_records /\
  Forall (int_field "severity_severe_count") demo_records /\
  number_column "from_km" demo_reference /\ number_column "to_km" demo_reference /\
  segment_table merge_argsort demo_records demo_reference = Ok demo_total /\
  Forall metrics_hold (rows demo_total) /\
  forall df_roads, road_table merge_argsort demo_total = Ok df_roads ->
    Forall metrics_hold (rows df_roads).
Proof.
  assert (Forall (int_field "severity_fatal_count") demo_records) as Hf by by_compute.
  assert (Forall (int_field "severity_severe_count") demo_records) as Hs by by_compute.
  assert (number_column "from_km" demo_reference) as Hfrom by (right; by_compute).
  assert (number_column "to_km" demo_reference) as Hto by (right; by_compute).
  split; [exact Hf|]. split; [exact Hs|]. split; [exact Hfrom|]. split; [exact Hto|].
  split; [exact demo_total_ok|].
  exact (derived_metrics_hold merge_argsort _ _ _ Hf Hs Hfrom Hto demo_total_ok).
Defined.





(** * Further properties of the code

    Properties of the Fetcher, of [process_data] and of the rest of the
    script beyond the ones above. *)

(** ** Downloads *)

Section Downloads.

Variable json_loads : string -> option json.
Variable argsort : list float -> list nat.
Variable can_write : string -> bool.
Variable other_frame : json -> res DataFrame.

Lemma download_cases response output_file fs fs' ok metadata :
  download_and_save_csv json_loads can_write other_frame response output_file fs
    = (fs', (ok, metadata)) ->
  (ok = false /\ fs' = fs) \/
  (ok = true /\ exists data rs t,
     response = Ok data /\ response_rows data = Ok (Some rs) /\
     DataFrame_rows other_frame rs = Ok t /\ can_write output_file = true /\
     fs' = <[output_file := t]> fs).
Proof.
  unfold download_and_save_csv.
  destruct response as [data|e]; simpl; [|intros [= <- <- <-]; by left].
  destruct (response_rows data) as [[rs|]|e] eqn:Hrows;
    [|intros [= <- <- <-]; by left..].
  destruct (if is_infix "infographics" (lower output_file)
            then first_row_meta json_loads rs else Ok (JObj [])) as [md|e];
    [|intros [= <- <- <-]; by left].
  destruct (DataFrame_rows other_frame rs) as [t|e] eqn:Ht; [|intros [= <- <- <-]; by left].
  unfold to_csv. destruct (can_write output_file) eqn:Hw; intros [= <- <- <-].
  - right. split; [done|]. by exists data, rs, t.
  - by left.
Qed.

Lemma download_other_paths response output_file fs p :
  p ≠ output_file ->
  (download_and_save_csv json_loads can_write other_frame response output_file fs).1 !! p = fs !! p.
Proof.
  intros Hp.
  destruct (download_and_save_csv json_loads can_write other_frame response output_file fs)
    as [fs' [ok md]] eqn:E.
  apply download_cases in E as [[_ ->]|[_ (data & rs & recs & _ & _ & _ & _ & ->)]];
    [done|]. simpl. by rewrite lookup_insert_ne.
Qed.

End Downloads.

(** ** The stage before the first write *)

Section StageInversion.

Variable json_loads : string -> option json.
Variable argsort : list float -> list nat.
Variable can_write : string -> bool.

Lemma segments_stage_inv metadata fs dr lu t :
  segments_stage json_loads argsort metadata fs = Ok (dr, lu, t) ->
  exists df0 df dc road_segments datas all_list,
    fs !! INFOGRAPHICS_CSV = Some df0 /\ columns df0 ≠ [] /\
    apply_converter json_loads "data" df0 = Ok df /\
    get_method metadata "dates_comment" (JObj []) = Ok dc /\
    get_method dc "date_range" (JArr []) = Ok dr /\
    get_method dc "last_update" (JStr "") = Ok lu /\
    is_ok (getitem0 dr) = true /\
    fs !! ROAD_SEGMENTS_CSV = Some road_segments /\ columns road_segments ≠ [] /\
    match rows df with [] => Ok [] | _ => get_col "data" df end = Ok datas /\
    extract_all datas = Ok all_list /\
    segment_table argsort all_list road_segments = Ok t.
Proof.
  unfold segments_stage, read_csv. cbn [snd]. intros H.
  destruct (fs !! INFOGRAPHICS_CSV) as [df0|]; [|done].
  destruct (columns df0) as [|c0 cs0] eqn:C0; [done|]. rewrite bind_Ok_l in H.
  apply res_bind_Ok in H as (df & Hdf & H).
  apply res_bind_Ok in H as (dc & Hdc & H).
  apply res_bind_Ok in H as (dr' & Hdr & H).
  apply res_bind_Ok in H as (lu' & Hlu & H).
  apply res_bind_Ok in H as (x & Hx & H).
  destruct (fs !! ROAD_SEGMENTS_CSV) as [rs|]; [|done].
  destruct (columns rs) as [|c1 cs1] eqn:C1; [done|]. rewrite bind_Ok_l in H.
  apply res_bind_Ok in H as (datas & Hdatas & H).
  apply res_bind_Ok in H as (all_list & Hall & H).
  apply res_bind_Ok in H as (t' & Ht & [= <- <- <-]).
  exists df0, df, dc, rs, datas, all_list.
  rewrite C0, C1, Hx. repeat split; done.
Qed.

Lemma segments_stage_empty_reference metadata fs df :
  fs !! ROAD_SEGMENTS_CSV = Some df -> columns df = [] ->
  is_ok (segments_stage json_loads argsort metadata fs) = false.
Proof.
  intros Hfs Hc. destruct (segments_stage json_loads argsort metadata fs) as [[[dr lu] t]|e] eqn:E;
    [|done].
  apply segments_stage_inv in E as (? & ? & ? & rs & ? & ? & _ & _ & _ & _ & _ & _ & _ & Hrs & Hne & _).
  rewrite Hfs in Hrs. injection Hrs as <-. done.
Qed.

Lemma process_data_stage_fails metadata fs :
  is_ok (segments_stage json_loads argsort metadata fs) = false ->
  exists e, process_data json_loads argsort can_write metadata fs = (fs, Raise e).
Proof.
  intros H. rewrite process_data_stages.
  destruct (segments_stage json_loads argsort metadata fs); [done|]. by eexists.
Qed.

Lemma process_data_output_only metadata fs p :
  p ∉ output_paths ->
  (process_data json_loads argsort can_write metadata fs).1 !! p = fs !! p.
Proof.
  intros Hp.
  assert (p ≠ ALL_SEGMENTS /\ p ≠ ALL_SEGMENTS_1KM /\ p ≠ ALL_ROADS /\ p ≠ ALL_ROADS_1KM)
    as (N1 & N2 & N3 & N4).
  { unfold output_paths in Hp. rewrite !not_elem_of_cons in Hp. tauto. }
  destruct (process_data json_loads argsort can_write metadata fs) as [fs' [s|e]] eqn:E.
  - apply process_data_success in E as (? & ? & ? & ? & ? & ? & _ & _ & _ & _ & -> & _).
    simpl. by rewrite !lookup_insert_ne.
  - apply process_data_failure in E as [[_ ->]|(? & ? & t & _ & [->|[->|(over & _ & [->|(roads & _ & ->)])]])];
      simpl; by rewrite ?lookup_insert_ne.
Qed.

End StageInversion.

(** ** The two downloads of a run *)

Section Fetch.

Variable json_loads : string -> option json.
Variable argsort : list float -> list nat.
Variable can_write : string -> bool.
Variable other_frame : json -> res DataFrame.


(** X2. Metadata is read only when the name of the output file contains
    [infographics], in any letter case: for any other output file the
    metadata returned is the empty dictionary, whatever the response. *)
Theorem metadata_only_from_statistics response output_file fs :
  is_infix "infographics" (lower output_file) = false ->
  (download_and_save_csv json_loads can_write other_frame response output_file fs).2.2 = JObj [].
Proof.
  intros Hp. unfold download_and_save_csv. rewrite Hp.
  destruct response as [data|]; simpl; [|done].
  destruct (response_rows data) as [[rs|]|]; [|done..].
  destruct (DataFrame_rows other_frame rs); [|done].
  unfold to_csv. by destruct (can_write output_file).
Qed.

(** X3. A statistics response that has no row is a failed download:
    [rows[0]] raises before anything is saved, and the metadata returned is
    the empty dictionary. *)
Theorem empty_statistics_download_fails data output_file fs :
  response_rows data = Ok (Some (JArr [])) ->
  is_infix "infographics" (lower output_file) = true ->
  download_and_save_csv json_loads can_write other_frame (Ok data) output_file fs
    = (fs, (false, JObj [])).
Proof.
  intros Hrows Hp. unfold download_and_save_csv. by rewrite bind_Ok_l, Hrows, Hp.
Qed.

Lemma output_paths_not_sources p :
  p ∈ output_paths -> p ≠ ROAD_SEGMENTS_CSV /\ p ≠ INFOGRAPHICS_CSV.
Proof.
  unfold output_paths. intros Hp.
  repeat (apply elem_of_cons in Hp as [->|Hp]; [done|]). by apply elem_of_nil in Hp.
Qed.

Lemma downloads_keep_outputs resp1 resp2 fs fs1 ok1 md1 fs2 ok2 md2 p :
  download_and_save_csv json_loads can_write other_frame resp1 ROAD_SEGMENTS_CSV fs
    = (fs1, (ok1, md1)) ->
  download_and_save_csv json_loads can_write other_frame resp2 INFOGRAPHICS_CSV fs1
    = (fs2, (ok2, md2)) ->
  p ∈ output_paths -> fs2 !! p = fs !! p.
Proof.
  intros H1 H2 [N1 N2]%output_paths_not_sources.
  pose proof (download_other_paths json_loads can_write other_frame resp2 INFOGRAPHICS_CSV fs1 p N2) as E2.
  pose proof (download_other_paths json_loads can_write other_frame resp1 ROAD_SEGMENTS_CSV fs p N1) as E1.
  rewrite H2 in E2. rewrite H1 in E1. simpl in *. congruence.
Qed.

(** X4. When one of the two downloads fails the run ends there: the second
    download is still attempted after a failed first one, the processing is
    not run, and no output table is created or changed. *)
Theorem failed_download_skips_processing resp1 resp2 fs fs1 ok1 md1 fs2 ok2 md2 :
  download_and_save_csv json_loads can_write other_frame resp1 ROAD_SEGMENTS_CSV fs
    = (fs1, (ok1, md1)) ->
  download_and_save_csv json_loads can_write other_frame resp2 INFOGRAPHICS_CSV fs1
    = (fs2, (ok2, md2)) ->
  ok1 && ok2 = false ->
  run json_loads argsort can_write other_frame resp1 resp2 fs = (fs2, DownloadFailed) /\
  forall p, p ∈ output_paths -> fs2 !! p = fs !! p.
Proof.
  intros H1 H2 Hok. split.
  - unfold run. by rewrite H1, H2, Hok.
  - intros p Hp. by eapply downloads_keep_outputs.
Qed.

(** X5. A road-segments response that has no row never leads to a report:
    the run ends with a failed download or a failed processing, and no
    output table is created or changed. *)
Theorem empty_segments_response data resp2 fs :
  response_rows data = Ok (Some (JArr [])) ->
  is_report (run json_loads argsort can_write other_frame (Ok data) resp2 fs).2 = false /\
  forall p, p ∈ output_paths ->
    (run json_loads argsort can_write other_frame (Ok data) resp2 fs).1 !! p = fs !! p.
Proof.
  intros Hrows. unfold run.
  destruct (download_and_save_csv json_loads can_write other_frame (Ok data) ROAD_SEGMENTS_CSV fs)
    as [fs1 [ok1 md1]] eqn:H1.
  destruct (download_and_save_csv json_loads can_write other_frame resp2 INFOGRAPHICS_CSV fs1)
    as [fs2 [ok2 md2]] eqn:H2.
  pose proof (fun p => downloads_keep_outputs _ _ _ _ _ _ _ _ _ p H1 H2) as Hkeep.
  destruct (ok1 && ok2) eqn:Hok; [|done].
  apply andb_true_iff in Hok as [-> ->].
  apply download_cases in H1 as [[? _]|[_ (d & rs & t & [= <-] & Hr & Hrecs & _ & ->)]];
    [done|].
  rewrite Hrows in Hr. injection Hr as <-. injection Hrecs as <-.
  assert (fs2 !! ROAD_SEGMENTS_CSV = Some (DataFrame_of [])) as Hfs2.
  { pose proof (download_other_paths json_loads can_write other_frame resp2 INFOGRAPHICS_CSV
                  (<[ROAD_SEGMENTS_CSV := DataFrame_of []]> fs) ROAD_SEGMENTS_CSV) as E.
    rewrite H2 in E. simpl in E. rewrite E by done. by rewrite lookup_insert_eq. }
  destruct (process_data_stage_fails json_loads argsort can_write md2 fs2) as [e He].
  { by eapply segments_stage_empty_reference. }
  rewrite He. done.
Qed.

End Fetch.

(** ** Runs of [process_data], continued *)

Lemma apply_converter_fails json_loads c df r :
  c ∈ columns df -> r ∈ rows df ->
  is_ok (custom_parser json_loads (cell r c)) = false ->
  is_ok (apply_converter json_loads c df) = false.
Proof.
  intros Hc Hr Hbad. unfold apply_converter.
  rewrite (proj2 (has_col_true c df) Hc).
  assert (is_ok (mapM (fun r => v ← custom_parser json_loads (cell r c); Ok (<[c := v]> r))
                      (rows df)) = false) as H.
  { eapply mapM_fails; [exact Hr|].
    by destruct (custom_parser json_loads (cell r c)). }
  by destruct (mapM _ (rows df)).
Qed.

Lemma apply_converter_inv json_loads c df df' :
  apply_converter json_loads c df = Ok df' -> c ∈ columns df ->
  columns df' = columns df /\
  Forall2 (fun r r' => exists v, custom_parser json_loads (cell r c) = Ok v /\
                                 r' = <[c := v]> r) (rows df) (rows df').
Proof.
  intros H Hc. unfold apply_converter in H.
  rewrite (proj2 (has_col_true c df) Hc) in H.
  apply res_bind_Ok in H as (rs & Hrs & [= <-]). split; [done|].
  apply mapM_Ok_inv in Hrs. simpl.
  eapply Forall2_impl; [exact Hrs|]. intros r r' Hr. simpl in Hr.
  apply res_bind_Ok in Hr as (v & Hv & [= <-]). eauto.
Qed.

Section RunProperties.

Variable json_loads : string -> option json.
Variable argsort : list float -> list nat.
Variable can_write : string -> bool.

(** X6. Whatever its outcome, [process_data] writes no file other than the
    four output tables: the two source files, and any other file, are as
    before. *)
Theorem process_keeps_other_files metadata fs p :
  p ∉ output_paths ->
  (process_data json_loads argsort can_write metadata fs).1 !! p = fs !! p.
Proof. apply process_data_output_only. Qed.

(** X7. A run that succeeds was given metadata whose [dates_comment] has a
    [date_range] with a first element; the [date_range] and [last_update]
    it returns are those of the metadata. *)
Theorem success_returns_metadata_dates metadata fs fs' s :
  process_data json_loads argsort can_write metadata fs = (fs', Ok s) ->
  exists dates_comment,
    get_method metadata "dates_comment" (JObj []) = Ok dates_comment /\
    get_method dates_comment "date_range" (JArr []) = Ok (date_range s) /\
    get_method dates_comment "last_update" (JStr "") = Ok (last_update s) /\
    is_ok (getitem0 (date_range s)) = true.
Proof.
  intros (dr & lu & t & ? & ? & ? & Hst & _ & _ & _ & _ & _ & _ & _ & _ & ->)%process_data_success.
  apply segments_stage_inv in Hst
    as (? & ? & dc & ? & ? & ? & _ & _ & _ & ? & ? & ? & ? & _).
  by exists dc.
Qed.

(** X8. The four counts a successful run returns are the numbers of rows of
    the four tables it wrote, and a [total_km >= 1] count never exceeds the
    count of the full table. *)
Theorem summary_counts metadata fs fs' s :
  process_data json_loads argsort can_write metadata fs = (fs', Ok s) ->
  exists segments segments_1km roads roads_1km,
    fs' !! ALL_SEGMENTS = Some segments /\
    fs' !! ALL_SEGMENTS_1KM = Some segments_1km /\
    fs' !! ALL_ROADS = Some roads /\
    fs' !! ALL_ROADS_1KM = Some roads_1km /\
    n_segments s = length (rows segments) /\
    n_segments_1km s = length (rows segments_1km) /\
    n_roads s = length (rows roads) /\
    n_roads_1km s = length (rows roads_1km) /\
    n_segments_1km s <= n_segments s /\ n_roads_1km s <= n_roads s.
Proof.
  intros (dr & lu & t & over & roads & rover & _ & Ho & _ & Hr & _ & ? & ? & ? & ? & ->)
    %process_data_success.
  exists t, over, roads, rover. simpl. repeat split; try done.
  - apply loc_ge1_inv in Ho as (_ & ->). apply length_filter.
  - apply loc_ge1_inv in Hr as (_ & ->). apply length_filter.
Qed.

(** X9. A run that succeeds has decoded the [data] field of every
    statistics row and extracted a record from every one of them, in order,
    and there is at least one row; the segment table it wrote is the one
    built from these records and the reference table. *)
Theorem success_reads_every_row metadata fs fs' s :
  process_data json_loads argsort can_write metadata fs = (fs', Ok s) ->
  exists statistics reference datas all_list df_total,
    fs !! INFOGRAPHICS_CSV = Some statistics /\
    fs !! ROAD_SEGMENTS_CSV = Some reference /\
    rows statistics ≠ [] /\
    Forall2 (fun r d => custom_parser json_loads (cell r "data") = Ok d)
            (rows statistics) datas /\
    Forall2 (fun d rec => extract_record d = Ok rec) datas all_list /\
    segment_table argsort all_list reference = Ok df_total /\
    fs' !! ALL_SEGMENTS = Some df_total.
Proof.
  intros (dr & lu & t & ? & ? & ? & Hst & _ & _ & _ & _ & Ht & _)%process_data_success.
  apply segments_stage_inv in Hst
    as (df0 & df & dc & rs & datas & all_list & Hf0 & _ & Hconv & _ & _ & _ & _ &
        Hfr & _ & Hdatas & Hall & Hseg).
  exists df0, rs, datas, all_list, t.
  assert (all_list ≠ []) as Hne.
  { intros ->. unfold segment_table, join_segments in Hseg.
    apply res_bind_Ok in Hseg as (joined & Hj & _).
    apply res_bind_Ok in Hj as (right & _ & Hm).
    by apply merge_inv in Hm as (Hk%elem_of_nil & _). }
  assert (rows df ≠ []) as Hrows.
  { intros E. rewrite E in Hdatas. injection Hdatas as <-.
    by injection Hall as <-. }
  assert ("data" ∈ columns df0) as Hcol.
  { destruct (rows df) eqn:E; [done|].
    unfold get_col in Hdatas. destruct (has_col "data" df) eqn:Hc; [|done].
    apply has_col_true in Hc. unfold apply_converter in Hconv.
    destruct (has_col "data" df0) eqn:Hc0; [by apply has_col_true|].
    by injection Hconv as <-. }
  destruct (apply_converter_inv _ _ _ _ Hconv Hcol) as [Hcols Hrs].
  assert (datas = map (fun r => cell r "data") (rows df)) as ->.
  { destruct (rows df) eqn:E; [done|].
    unfold get_col in Hdatas. destruct (has_col "data" df); [|done].
    rewrite E in Hdatas. by injection Hdatas as <-. }
  repeat split; try done.
  - intros E. rewrite E in Hrs. by apply Forall2_nil_inv_l in Hrs.
  - apply Forall2_fmap_r. eapply Forall2_impl; [exact Hrs|].
    intros r r' (v & Hv & ->). unfold compose. by rewrite cell_insert_eq.
  - by apply mapM_Ok_inv.
Qed.

(** X10. In a run that succeeds, every row of the two [total_km >= 1]
    tables has a [total_km] that is a number, not [NaN], and at least 1. *)
Theorem filtered_rows_at_least_1km metadata fs fs' s :
  process_data json_loads argsort can_write metadata fs = (fs', Ok s) ->
  exists segments_1km roads_1km,
    fs' !! ALL_SEGMENTS_1KM = Some segments_1km /\
    fs' !! ALL_ROADS_1KM = Some roads_1km /\
    Forall at_least_1km (rows segments_1km) /\
    Forall at_least_1km (rows roads_1km).
Proof.
  intros (dr & lu & t & over & roads & rover & _ & Ho & _ & Hr & _ & _ & ? & _ & ? & _)
    %process_data_success.
  exists over, rover. repeat split; try done.
  - apply loc_ge1_inv in Ho as (_ & ->). apply Forall_forall.
    intros r [Hr' _]%list_elem_of_filter. by apply ge1b_at_least_1km.
  - apply loc_ge1_inv in Hr as (_ & ->). apply Forall_forall.
    intros r [Hr' _]%list_elem_of_filter. by apply ge1b_at_least_1km.
Qed.

(** X11. When the [data] field of some statistics row cannot be decoded,
    the run fails and writes nothing. *)
Theorem undecodable_row_fails_run metadata fs statistics r :
  fs !! INFOGRAPHICS_CSV = Some statistics ->
  "data" ∈ columns statistics -> r ∈ rows statistics ->
  is_ok (custom_parser json_loads (cell r "data")) = false ->
  exists e, process_data json_loads argsort can_write metadata fs = (fs, Raise e).
Proof.
  intros Hfs Hc Hr Hbad.
  pose proof (apply_converter_fails json_loads _ _ _ Hc Hr Hbad) as Hconv.
  destruct (apply_converter json_loads "data" statistics) as [|e] eqn:E; [done|].
  by eapply process_data_conv_fail.
Qed.

End RunProperties.

(** ** Columns of the tables *)

Lemma restrict_lookup_None cols (r : gmap string json) c :
  c ∉ cols -> restrict cols r !! c = None.
Proof.
  intros Hc. unfold restrict. apply map_lookup_filter_None. right.
  intros v _. simpl. done.
Qed.

Lemma add_col_new c cols : c ∉ cols -> add_col c cols = (cols ++ [c])%list.
Proof. intros. unfold add_col. by rewrite bool_decide_eq_false_2. Qed.

Lemma add_metrics_columns_eq df d3 :
  add_metrics df = Ok d3 ->
  columns d3 = add_col "fatal_accidents_per_km"
                 (add_col "fatal_severe_accidents_per_km"
                    (add_col "fatal_severe_accidents" (columns df))).
Proof.
  unfold add_metrics. intros H.
  apply res_bind_Ok in H as (d1 & H1 & H).
  apply res_bind_Ok in H as (d2 & H2 & H3).
  apply assign_inv in H1 as (_ & _ & C1 & _).
  apply assign_inv in H2 as (_ & _ & C2 & _).
  apply assign_inv in H3 as (_ & _ & C3 & _).
  by rewrite C3, C2, C1.
Qed.

Lemma NoDup_road_columns df_total : NoDup (road_columns df_total).
Proof.
  apply (sublist_NoDup _ ("road" :: agg_columns
           ++ ["from_name"; "to_name"; "fatal_severe_accidents";
               "fatal_severe_accidents_per_km"; "fatal_accidents_per_km"])%list);
    [by_compute|].
  unfold road_columns. apply sublist_skip, sublist_app; [apply sublist_filter|done].
Qed.

Section Layout.

Variable argsort : list float -> list nat.

Lemma segment_table_columns all_list road_segments df_total :
  segment_table argsort all_list road_segments = Ok df_total ->
  columns df_total `sublist_of` segment_columns /\ NoDup (columns df_total) /\
  (forall c, c ∈ metric_columns -> c ∈ columns df_total).
Proof.
  rewrite segment_table_stages. intros H.
  apply res_bind_Ok in H as (d3 & H3 & H).
  apply res_bind_Ok in H as (d4 & H4 & H).
  apply select_inv in H as (C & R). rewrite C.
  split; [apply sublist_filter|]. split; [apply NoDup_filter; by_compute|].
  intros c Hc. apply list_elem_of_filter. split; [|by apply metric_columns_selected].
  apply sort_values_inv in H4 as (_ & -> & _).
  unfold segment_metrics in H3.
  apply res_bind_Ok in H3 as (joined & _ & H3).
  apply res_bind_Ok in H3 as (d0 & _ & H3).
  by eapply add_metrics_columns.
Qed.

(** X12. The columns of the segment table are columns of the fixed list
    [segment_columns], in the order of that list and without repetition;
    the columns the derived metrics use and define are always among them;
    no row holds a cell outside these columns; the [total_km >= 1] table
    has the same columns. *)
Theorem segment_table_layout all_list road_segments df_total :
  segment_table argsort all_list road_segments = Ok df_total ->
  columns df_total `sublist_of` segment_columns /\ NoDup (columns df_total) /\
  (forall c, c ∈ metric_columns -> c ∈ columns df_total) /\
  Forall (fun r : gmap string json => forall c, c ∉ columns df_total -> r !! c = None)
         (rows df_total) /\
  forall over, loc_ge1 "total_km" df_total = Ok over -> columns over = columns df_total.
Proof.
  intros H. destruct (segment_table_columns _ _ _ H) as (H1 & H2 & H3).
  split; [done|]. split; [done|]. split; [done|]. split.
  - rewrite segment_table_stages in H.
    apply res_bind_Ok in H as (d3 & _ & H).
    apply res_bind_Ok in H as (d4 & _ & H).
    apply select_inv in H as (-> & ->).
    apply Forall_fmap, Forall_forall. intros r _ c Hc. by apply restrict_lookup_None.
  - by intros over (-> & _)%loc_ge1_inv.
Qed.

Lemma road_table_columns df_total df_roads :
  road_table argsort df_total = Ok df_roads ->
  columns df_roads = road_columns df_total.
Proof.
  unfold road_table. intros H.
  apply res_bind_Ok in H as (groups & Hg & H).
  apply res_bind_Ok in H as (d3 & H3 & H4).
  apply sort_values_inv in H4 as (_ & -> & _).
  rewrite (add_metrics_columns_eq _ _ H3), (road_groups_columns _ _ _ Hg).
  assert (forall c, c ∈ metric_targets ->
            c ∉ ("road" :: filter (fun c => c ∈ columns df_total) agg_columns
                 ++ ["from_name"; "to_name"])%list) as Hnew.
  { intros c Hc [->|[[_ Hin]%list_elem_of_filter|Hin]%elem_of_app]%elem_of_cons.
    - revert Hc. by_compute.
    - exact (agg_not_target _ Hin Hc).
    - apply (name_not_target c); [by right|done]. }
  unfold road_columns.
  rewrite (add_col_new "fatal_severe_accidents") by (apply Hnew; by_compute).
  rewrite (add_col_new "fatal_severe_accidents_per_km").
  2:{ rewrite elem_of_app, list_elem_of_singleton.
      intros [Hin|[=]]. revert Hin. apply Hnew. by_compute. }
  rewrite (add_col_new "fatal_accidents_per_km").
  2:{ rewrite !elem_of_app, !list_elem_of_singleton.
      intros [[Hin|[=]]|[=]]. revert Hin. apply Hnew. by_compute. }
  cbn [app]. by rewrite <- !app_assoc.
Qed.


End Layout.

(** ** Fields of a record *)

Lemma dict_get_set k k' v d :
  dict_get k (dict_set k' v d) = if String.eqb k k' then Some v else dict_get k d.
Proof.
  induction d as [|[k0 v0] d IH]; simpl; [done|].
  destruct (String.eqb k' k0) eqn:E0; simpl.
  - apply String.eqb_eq in E0 as ->. by destruct (String.eqb k k0).
  - rewrite IH. destruct (String.eqb k k0) eqn:E1; [|done].
    apply String.eqb_eq in E1 as ->.
    rewrite String.eqb_sym in E0. by rewrite E0.
Qed.

Lemma dict_get_notin k (d : pydict) : k ∉ d.*1 -> dict_get k d = None.
Proof.
  induction d as [|[k0 v0] d IH]; simpl; [done|].
  intros [Hne Hd]%not_elem_of_cons.
  destruct (String.eqb k k0) eqn:E; [by apply String.eqb_eq in E|auto].
Qed.

Lemma dict_get_or k a b :
  NoDup b.*1 ->
  dict_get k (dict_or a b) =
    match dict_get k b with Some v => Some v | None => dict_get k a end.
Proof.
  unfold dict_or. revert a. induction b as [|[k0 v0] b IH]; intros a Hnd; simpl; [done|].
  apply NoDup_cons in Hnd as [Hk0 Hnd]. rewrite (IH _ Hnd), dict_get_set.
  destruct (String.eqb k k0) eqn:E; [|done].
  apply String.eqb_eq in E as ->. simpl in Hk0. by rewrite (dict_get_notin _ _ Hk0).
Qed.

Lemma extract_record_shape data rec :
  extract_record data = Ok rec ->
  exists li id nm acc inj,
    location_info data = Ok li /\
    getitem li "road_segment_id" = Ok id /\
    getitem li "road_segment_name" = Ok nm /\
    widget_dict "accident_count_by_severity" data = Ok acc /\
    widget_dict "injured_count_by_severity" data = Ok inj /\
    rec = dict_or (dict_or [("road_segment_id", id); ("road_segment_name", nm)] acc) inj.
Proof.
  unfold extract_record, location_info. intros H.
  apply res_bind_Ok in H as (m & Hm & H).
  apply res_bind_Ok in H as (li & Hli & H).
  apply res_bind_Ok in H as (id & Hid & H).
  rewrite Hm, bind_Ok_l, Hli, bind_Ok_l in H.
  apply res_bind_Ok in H as (nm & Hnm & H).
  apply res_bind_Ok in H as (acc & Hacc & H).
  apply res_bind_Ok in H as (inj & Hinj & [= <-]).
  exists li, id, nm, acc, inj. rewrite Hm, bind_Ok_l. done.
Qed.

(** X14. The record of a statistics row holds [road_segment_id] and
    [road_segment_name] from [meta.location_info] and the items of the two
    widgets; where a field name occurs more than once, the value of the
    injured widget wins over that of the accident widget, which wins over
    the one from [meta]. *)
Theorem record_field_precedence data rec :
  extract_record data = Ok rec ->
  exists li id nm acc inj,
    location_info data = Ok li /\
    getitem li "road_segment_id" = Ok id /\
    getitem li "road_segment_name" = Ok nm /\
    widget_dict "accident_count_by_severity" data = Ok acc /\
    widget_dict "injured_count_by_severity" data = Ok inj /\
    (NoDup acc.*1 -> NoDup inj.*1 ->
     forall k, dict_get k rec =
       rightmost k [("road_segment_id", id); ("road_segment_name", nm)] acc inj).
Proof.
  intros (li & id & nm & acc & inj & ? & ? & ? & ? & ? & ->)%extract_record_shape.
  exists li, id, nm, acc, inj. repeat split; try done.
  intros Ha Hi k. unfold rightmost. by rewrite !dict_get_or.
Qed.

(** ** The preview *)

Lemma mapM_ok {A B} (f : A -> res B) l :
  Forall (fun x => is_ok (f x) = true) l -> is_ok (mapM f l) = true.
Proof.
  induction 1 as [|x l Hx _ IH]; [done|]. csimpl.
  destruct (f x); [|done]. simpl. by destruct (mapM f l).
Qed.

Lemma key_cols_first (key_cols cols : list string) :
  NoDup key_cols -> NoDup cols -> (forall c, c ∈ key_cols -> c ∈ cols) ->
  (key_cols ++ filter (fun c => c ∉ key_cols) cols)%list ≡ₚ cols.
Proof.
  intros Hk Hc Hin. apply NoDup_Permutation; [|done|].
  - apply NoDup_app. split; [done|]. split; [|by apply NoDup_filter].
    intros c Hck [Hn _]%list_elem_of_filter. done.
  - intros c. rewrite elem_of_app, list_elem_of_filter. split.
    + intros [?|[_ ?]]; auto.
    + intros Hcc. destruct (decide (c ∈ key_cols)); auto.
Qed.

Lemma dict_or_keeps k a b :
  is_Some (dict_get k a) -> is_Some (dict_get k (dict_or a b)).
Proof.
  unfold dict_or. revert a. induction b as [|[k0 v0] b IH]; intros a Ha; simpl; [done|].
  apply IH. rewrite dict_get_set. by destruct (String.eqb k k0).
Qed.

Lemma extract_record_has_name data rec :
  extract_record data = Ok rec -> exists v, ("road_segment_name", v) ∈ rec.
Proof.
  intros (li & id & nm & acc & inj & _ & _ & _ & _ & _ & ->)%extract_record_shape.
  destruct (dict_or_keeps "road_segment_name"
              (dict_or [("road_segment_id", id); ("road_segment_name", nm)] acc) inj)
    as [v Hv].
  { apply dict_or_keeps. by eexists. }
  exists v. by apply dict_get_Some_elem.
Qed.

Section PreviewLemmas.

Variable argsort : list float -> list nat.
Hypothesis Hperm : argsort_perm argsort.
Hypothesis Hsorted : argsort_sorted argsort.

Lemma sort_values_ok key asc df :
  key ∈ columns df ->
  Forall (fun r => is_ok (to_float (cell r key)) = true) (rows df) ->
  is_ok (sort_values argsort key asc df) = true.
Proof.
  intros Hk Hf. unfold sort_values, get_col.
  rewrite (proj2 (has_col_true key df) Hk), bind_Ok_l.
  assert (is_ok (mapM to_float (map (fun r => cell r key) (rows df))) = true) as H.
  { apply mapM_ok. by apply Forall_fmap. }
  by destruct (mapM to_float _).
Qed.

Lemma preview_table_shows path key_cols fs t :
  fs !! path = Some t -> NoDup (columns t) -> NoDup key_cols ->
  (forall c, c ∈ key_cols -> c ∈ columns t) ->
  "fatal_severe_accidents_per_km" ∈ key_cols ->
  Forall (fun r => is_ok (to_float (cell r "fatal_severe_accidents_per_km")) = true)
         (rows t) ->
  exists shown, preview_table argsort path key_cols fs = Ok shown /\ shows key_cols t shown.
Proof.
  intros Hfs Hnd Hndk Hin Hkey Hf. unfold preview_table, read_csv. cbn [snd]. rewrite Hfs.
  destruct (columns t) as [|c0 cs] eqn:C.
  { specialize (Hin _ Hkey). by apply elem_of_nil in Hin. }
  rewrite <- C in *. rewrite bind_Ok_l.
  pose proof (sort_values_ok "fatal_severe_accidents_per_km" false t (Hin _ Hkey) Hf) as Hok.
  destruct (sort_values argsort "fatal_severe_accidents_per_km" false t) as [sorted|] eqn:Hs;
    [|done].
  rewrite bind_Ok_l.
  pose proof Hs as (_ & Cs & _)%sort_values_inv.
  rewrite Cs, select_ok.
  2:{ intros c Hc. rewrite Cs.
      apply elem_of_app in Hc as [?|[_ ?]%list_elem_of_filter]; auto. }
  eexists. split; [done|]. unfold shows. cbn [columns rows].
  split; [done|]. split; [by apply key_cols_first|]. split.
  - apply fmap_Permutation. by eapply sort_values_perm.
  - apply sorted_desc_restrict; [apply elem_of_app; by left|].
    destruct (sort_values_sorted_desc _ _ _ _ Hsorted Hs) as (ks & ? & ?). by exists ks.
Qed.

End PreviewLemmas.

(** ** The preview after a run *)

Section PreviewRun.

Variable json_loads : string -> option json.
Variable argsort : list float -> list nat.
Variable can_write : string -> bool.
Hypothesis Hperm : argsort_perm argsort.
Hypothesis Hsorted : argsort_sorted argsort.

Lemma segment_table_name_column datas all_list road_segments df_total :
  extract_all datas = Ok all_list ->
  segment_table argsort all_list road_segments = Ok df_total ->
  "road_segment_name" ∈ columns df_total.
Proof.
  intros Hall H. unfold segment_table in H.
  apply res_bind_Ok in H as (joined & Hj & H).
  apply res_bind_Ok in H as (d0 & H0 & H).
  apply res_bind_Ok in H as (d3 & H3 & H).
  apply res_bind_Ok in H as (d4 & H4 & H).
  apply select_inv in H as (-> & _).
  unfold join_segments in Hj.
  apply res_bind_Ok in Hj as (right & Hr & Hm).
  apply select_inv in Hr as (Cr & _).
  apply merge_inv in Hm as (Hid & _ & Cj & _).
  assert ("road_segment_name" ∈ columns (DataFrame_of all_list)) as Hname.
  { cbn [columns DataFrame_of] in *. apply elem_of_keys_union in Hid as (d & v & Hd & _).
    apply mapM_Ok_inv in Hall.
    destruct (Forall2_elem_r _ _ _ _ Hall Hd) as (data & _ & Hrec).
    destruct (extract_record_has_name _ _ Hrec) as [w Hw].
    apply elem_of_keys_union. by exists d, w. }
  assert ("road_segment_name" ∈ columns joined) as Hjn.
  { rewrite Cj. apply elem_of_app. left. apply list_elem_of_fmap.
    exists "road_segment_name". split; [|done]. symmetry. apply suffixed_id.
    rewrite overlap_elem, Cr. intros [Hin _]. revert Hin. by_compute. }
  apply list_elem_of_filter. split; [|by_compute].
  apply sort_values_inv in H4 as (_ & -> & _).
  eapply add_metrics_columns_old; [exact H3|].
  apply assign_inv in H0 as (_ & _ & -> & _). apply elem_of_add_col. by right.
Qed.

Lemma segment_table_ratio_cells all_list road_segments df_total :
  segment_table argsort all_list road_segments = Ok df_total ->
  Forall (fun r => is_ok (to_float (cell r "fatal_severe_accidents_per_km")) = true)
         (rows df_total).
Proof.
  rewrite segment_table_stages. intros H.
  apply res_bind_Ok in H as (d3 & H3 & H).
  apply res_bind_Ok in H as (d4 & H4 & H).
  pose proof (sort_values_keys_ok _ _ _ _ _ H4) as Hk.
  apply select_inv in H as (_ & ->). apply Forall_fmap.
  eapply Forall_impl; [exact Hk|]. intros r Hr. unfold compose.
  rewrite cell_restrict; [done|].
  apply list_elem_of_filter. split; [|by_compute].
  apply sort_values_inv in H4 as (_ & -> & _).
  unfold segment_metrics in H3.
  apply res_bind_Ok in H3 as (joined & _ & H3).
  apply res_bind_Ok in H3 as (d0 & _ & H3).
  eapply add_metrics_columns; [exact H3|by_compute].
Qed.

Lemma road_table_needs_road df_total df_roads :
  road_table argsort df_total = Ok df_roads ->
  "road" ∈ columns df_total /\ "total_km" ∈ columns df_total.
Proof.
  unfold road_table. intros H.
  apply res_bind_Ok in H as (groups & Hg & H).
  apply res_bind_Ok in H as (d3 & H3 & _).
  pose proof (road_groups_columns _ _ _ Hg) as Cg. split.
  - unfold road_groups in Hg. apply res_bind_Ok in Hg as (sums & Hs & _).
    unfold groupby_sum in Hs. destruct (has_col "road" df_total) eqn:E; [|done].
    by apply has_col_true.
  - unfold add_metrics in H3. apply res_bind_Ok in H3 as (d1 & H1 & H3).
    apply res_bind_Ok in H3 as (d2 & H2 & _).
    apply assign_inv in H1 as (_ & _ & C1 & _).
    apply assign_inv in H2 as (_ & Hkm & _). rewrite C1, elem_of_add_col, Cg in Hkm.
    destruct Hkm as [[=]|Hkm].
    apply elem_of_cons in Hkm as [[=]|Hkm].
    apply elem_of_app in Hkm as [[? _]%list_elem_of_filter|Hkm]; [done|].
    exfalso. revert Hkm. by_compute.
Qed.

(** X15. After a run that succeeds, both tabs of the preview show a table
    and no error: all the columns of the table written, the key columns
    first, and all its rows, in descending order of the ratio. *)
Theorem preview_after_success metadata fs fs' s :
  process_data json_loads argsort can_write metadata fs = (fs', Ok s) ->
  exists segments roads shown_segments shown_roads,
    fs' !! ALL_SEGMENTS = Some segments /\ fs' !! ALL_ROADS = Some roads /\
    preview argsort fs' = Some (Ok shown_segments, Ok shown_roads) /\
    shows segment_key_cols segments shown_segments /\
    shows road_key_cols roads shown_roads.
Proof.
  intros (dr & lu & t & over & roads & rover & Hst & _ & Hroads & _ & _ & Ht & _ & Hr & _)
    %process_data_success.
  apply segments_stage_inv in Hst
    as (? & ? & ? & rs & datas & all_list & _ & _ & _ & _ & _ & _ & _ & _ & _ & _ & Hall & Hseg).
  destruct (road_table_needs_road _ _ Hroads) as [Hroad Hkm].
  pose proof (segment_table_name_column _ _ _ _ Hall Hseg) as Hname.
  destruct (segment_table_columns argsort _ _ _ Hseg) as (_ & Hnd & Hmet).
  destruct (preview_table_shows argsort Hperm Hsorted ALL_SEGMENTS segment_key_cols fs' t)
    as (st & Hst & Hshow); try done.
  { by_compute. }
  { intros c Hc. unfold segment_key_cols in Hc.
    repeat (apply elem_of_cons in Hc as [->|Hc]; [first [done|apply Hmet; by_compute]|]).
    by apply elem_of_nil in Hc. }
  { by_compute. }
  { by eapply segment_table_ratio_cells. }
  pose proof (road_table_columns argsort _ _ Hroads) as Cr.
  destruct (preview_table_shows argsort Hperm Hsorted ALL_ROADS road_key_cols fs' roads)
    as (sr & Hsr & Hshowr); try done.
  { rewrite Cr. apply NoDup_road_columns. }
  { by_compute. }
  { intros c Hc. rewrite Cr. unfold road_columns, road_key_cols in *.
    apply elem_of_cons in Hc as [->|Hc]; [by left|]. right. apply elem_of_app.
    destruct (decide (c = "total_km")) as [->|Hne].
    - left. apply list_elem_of_filter. split; [done|by_compute].
    - right. revert c Hc Hne.
      apply (proj1 (Forall_forall (fun c : string => c ≠ "total_km" -> c ∈ _) _)).
      by_compute. }
  { by_compute. }
  { unfold road_table in Hroads.
    apply res_bind_Ok in Hroads as (groups & _ & Hroads).
    apply res_bind_Ok in Hroads as (d3 & _ & H4).
    by eapply sort_values_keys_ok. }
  exists t, roads, st, sr. unfold preview. rewrite Ht, Hst, Hsr. done.
Qed.

End PreviewRun.

(** ** One row per road *)

Lemma filter_none {A} (P : A -> Prop) `{!forall x, Decision (P x)} (l : list A) :
  Forall (fun x => ~ P x) l -> filter P l = [].
Proof.
  induction 1 as [|x l Hx _ IH]; [done|]. by rewrite filter_cons_False.
Qed.

Lemma length_filter_filter {A} (P Q : A -> Prop) `{!forall x, Decision (P x)}
    `{!forall x, Decision (Q x)} (l : list A) :
  length (filter P (filter Q l)) <= length (filter P l).
Proof.
  induction l as [|x l IH]; [done|].
  rewrite (filter_cons Q). destruct (decide (Q x)).
  - rewrite !filter_cons. destruct (decide (P x)); simpl; lia.
  - rewrite filter_cons. destruct (decide (P x)); simpl; lia.
Qed.

Lemma Forall2_filter_length {A B} (R : A -> B -> Prop) (P : A -> Prop) (Q : B -> Prop)
    `{!forall x, Decision (P x)} `{!forall y, Decision (Q y)} l k :
  Forall2 R l k -> (forall x y, R x y -> P x <-> Q y) ->
  length (filter P l) = length (filter Q k).
Proof.
  intros HF HR. induction HF as [|x y l k Hxy _ IH]; [done|].
  rewrite !filter_cons. specialize (HR x y Hxy).
  destruct (decide (P x)), (decide (Q y)); simpl; try tauto; lia.
Qed.

Lemma dedup_keys_count k l :
  length (filter (fun k' => key_eqb k' k = true) (dedup_keys l)) <= 1.
Proof.
  induction l as [|a l IH]; [simpl; lia|]. simpl.
  rewrite filter_cons. destruct (decide (key_eqb a k = true)) as [Ha|Ha].
  - rewrite filter_none; [simpl; lia|].
    apply Forall_forall. intros k' [Hk' _]%list_elem_of_filter Hk.
    rewrite key_eqb_sym in Hk.
    by rewrite (key_eqb_trans _ _ _ Ha Hk) in Hk'.
  - etrans; [apply length_filter_filter|exact IH].
Qed.

Lemma length_dedup_keys l : length (dedup_keys l) <= length l.
Proof.
  induction l as [|a l IH]; [done|]. simpl.
  pose proof (length_filter (fun k' => key_eqb a k' = false) (dedup_keys l)). lia.
Qed.

Lemma group_keys_count key df ks k :
  group_keys key df = Ok ks ->
  length (filter (fun k' => key_eqb k' k = true) ks) <= 1 /\
  length ks <= length (rows df).
Proof.
  unfold group_keys. destruct (forallb hashable _); [|done]. intros [= <-].
  split.
  - rewrite merge_sort_Permutation. apply dedup_keys_count.
  - rewrite merge_sort_Permutation.
    etrans; [apply length_dedup_keys|].
    etrans; [apply length_filter|]. by rewrite length_map.
Qed.

Lemma members_length_ext key k (rs1 rs2 : list (gmap string json)) c1 c2 :
  Forall2 (fun r r' => cell r' key = cell r key) rs1 rs2 ->
  length (members key k (mkDF c1 rs1)) = length (members key k (mkDF c2 rs2)).
Proof.
  intros H. unfold members. cbn [rows].
  eapply Forall2_filter_length; [exact H|]. intros r r' Hr. cbn beta. by rewrite Hr.
Qed.

Lemma assign_key_cells c op a b df df' key :
  assign c op a b df = Ok df' -> c ≠ key ->
  Forall2 (fun r r' => cell r' key = cell r key) (rows df) (rows df').
Proof.
  intros (_ & _ & _ & F)%assign_inv Hne.
  eapply Forall2_impl; [exact F|]. intros r r' (v & _ & ->). cbn beta.
  by rewrite cell_insert_ne.
Qed.

Lemma add_metrics_key_cells df d3 key :
  add_metrics df = Ok d3 -> key ∉ metric_targets ->
  Forall2 (fun r r' => cell r' key = cell r key) (rows df) (rows d3).
Proof.
  unfold add_metrics. intros H Hk.
  apply res_bind_Ok in H as (d1 & H1 & H).
  apply res_bind_Ok in H as (d2 & H2 & H3).
  assert (key ≠ "fatal_severe_accidents" /\ key ≠ "fatal_severe_accidents_per_km"
          /\ key ≠ "fatal_accidents_per_km") as (N1 & N2 & N3).
  { unfold metric_targets in Hk. rewrite !not_elem_of_cons in Hk. tauto. }
  pose proof (assign_key_cells _ _ _ _ _ _ key H1 (not_eq_sym N1)) as F1.
  pose proof (assign_key_cells _ _ _ _ _ _ key H2 (not_eq_sym N2)) as F2.
  pose proof (assign_key_cells _ _ _ _ _ _ key H3 (not_eq_sym N3)) as F3.
  assert (forall x y z : gmap string json,
            cell y key = cell x key -> cell z key = cell y key -> cell z key = cell x key)
    as Htrans by (intros x y z; congruence).
  exact (Forall2_trans _ _ _ _ _ _ Htrans (Forall2_trans _ _ _ _ _ _ Htrans F1 F2) F3).
Qed.

Lemma merge_index_members key a b k :
  keyed key a -> (forall k', length (members key k' b) <= 1) ->
  length (members key k (merge_index key a b)) <= length (members key k a) /\
  length (rows (merge_index key a b)) <= length (rows a) /\
  keyed key (merge_index key a b).
Proof.
  intros Ha Hb. unfold members, keyed, merge_index. cbn [rows].
  assert (forall l : gmap string json,
            length (filter (fun r => key_eqb (cell l key) (cell r key) = true) (rows b)) <= 1)
    as Hmatch.
  { intros l. specialize (Hb (cell l key)). unfold members in Hb.
    erewrite list_filter_iff; [exact Hb|]. intros r. cbn beta. by rewrite key_eqb_sym. }
  induction Ha as [|l la Hl _ IH]; [simpl; auto|].
  cbn [flat_map]. destruct IH as (IH1 & IH2 & IH3).
  assert (forall r : gmap string json, cell (l ∪ r) key = cell l key) as Hcell.
  { intros r. destruct Hl as [v Hv]. unfold cell.
    by rewrite (lookup_union_Some_l _ _ _ _ Hv), Hv. }
  split; [|split].
  - rewrite filter_app, length_app.
    rewrite (filter_cons _ l). destruct (decide (key_eqb (cell l key) k = true)) as [E|E].
    + cbn [length]. specialize (Hmatch l).
      match goal with
      | |- length (filter ?P (map ?f ?X)) + _ <= _ =>
          pose proof (length_filter P (map f X)) as H1; rewrite length_map in H1
      end.
      lia.
    + rewrite filter_none; [simpl; lia|].
      apply Forall_forall. intros ρ (r & -> & _)%list_elem_of_fmap. by rewrite Hcell.
  - rewrite length_app, length_map. specialize (Hmatch l). simpl. lia.
  - apply Forall_app. split; [|done].
    apply Forall_forall. intros ρ (r & -> & _)%list_elem_of_fmap.
    destruct Hl as [v Hv]. exists v. by apply lookup_union_Some_l.
Qed.

Section OneRow.

Variable argsort : list float -> list nat.
Hypothesis Hperm : argsort_perm argsort.
Hypothesis Hsorted : argsort_sorted argsort.

Lemma groupby_sum_members key cols df sums k :
  groupby_sum key cols df = Ok sums ->
  length (members key k sums) <= 1 /\ length (rows sums) <= length (rows df) /\
  keyed key sums.
Proof.
  intros (ks & Hks & F)%groupby_sum_inv.
  destruct (group_keys_count _ _ _ k Hks) as [Hc Hl]. split; [|split].
  - unfold members.
    erewrite <- (Forall2_filter_length _ (fun k' => key_eqb k' k = true)); [exact Hc|exact F|].
    intros k' s (m & _ & ->). cbn beta. by rewrite cell_insert_eq.
  - by rewrite <- (Forall2_length _ _ _ F).
  - unfold keyed. apply Forall_forall. intros s Hs.
    destruct (Forall2_elem_r _ _ _ _ F Hs) as (k' & _ & m & _ & ->).
    exists k'. by rewrite lookup_insert_eq.
Qed.

Lemma groupby_pick_members pick key c df picked k :
  groupby_pick pick key c df = Ok picked -> length (members key k picked) <= 1.
Proof.
  intros (ks & Hks & R)%groupby_pick_inv.
  destruct (group_keys_count _ _ _ k Hks) as [Hc _].
  unfold members. rewrite R.
  erewrite <- (Forall2_filter_length
                 (fun k' (s : gmap string json) => cell s key = k')
                 (fun k' => key_eqb k' k = true)); [exact Hc| |].
  - apply Forall2_fmap_r, Forall_Forall2_diag, Forall_forall. intros k' _. cbn beta.
    unfold compose. by rewrite cell_insert_eq.
  - intros k' s <-. done.
Qed.

Lemma road_groups_members df_total groups k :
  road_groups argsort df_total = Ok groups ->
  length (members "road" k groups) <= 1 /\
  length (rows groups) <= length (rows df_total).
Proof.
  unfold road_groups. intros H.
  apply res_bind_Ok in H as (sums & Hs & H).
  apply res_bind_Ok in H as (by_from & _ & H).
  apply res_bind_Ok in H as (fj & Hf & H).
  apply res_bind_Ok in H as (by_to & _ & H).
  apply res_bind_Ok in H as (lj & Hl & [= <-]).
  destruct (groupby_sum_members _ _ _ _ k Hs) as (S1 & S2 & S3).
  destruct (merge_index_members "road" sums fj k S3) as (M1 & M2 & M3).
  { intros k'. by eapply groupby_pick_members. }
  destruct (merge_index_members "road" (merge_index "road" sums fj) lj k M3) as (N1 & N2 & _).
  { intros k'. by eapply groupby_pick_members. }
  split; lia.
Qed.

Lemma road_table_members df_total df_roads k :
  road_table argsort df_total = Ok df_roads ->
  length (members "road" k df_roads) <= 1 /\
  length (rows df_roads) <= length (rows df_total).
Proof.
  unfold road_table. intros H.
  apply res_bind_Ok in H as (groups & Hg & H).
  apply res_bind_Ok in H as (d3 & H3 & H4).
  destruct (road_groups_members _ _ k Hg) as [G1 G2].
  pose proof (add_metrics_key_cells _ _ "road" H3 ltac:(by_compute)) as F.
  pose proof (sort_values_perm _ _ _ _ _ Hperm H4) as P. split.
  - assert (length (members "road" k df_roads) = length (members "road" k d3)) as ->.
    { unfold members. by rewrite P. }
    destruct groups as [cg rg], d3 as [c3 r3]. cbn [rows] in F.
    by rewrite <- (members_length_ext "road" k rg r3 cg c3 F).
  - rewrite P, <- (Forall2_length _ _ _ F). done.
Qed.

(** X16. The road table has at most one row for a road value, exactly one
    for every road value of the segment table that is not missing, and no
    more rows than the segment table. *)
Theorem one_row_per_road df_total df_roads :
  road_table argsort df_total = Ok df_roads ->
  (forall k, length (members "road" k df_roads) <= 1) /\
  (forall r, r ∈ rows df_total -> is_missing (cell r "road") = false ->
     length (members "road" (cell r "road") df_roads) = 1) /\
  length (rows df_roads) <= length (rows df_total).
Proof.
  intros H. split; [|split].
  - intros k. by destruct (road_table_members _ _ k H).
  - intros r Hr Hm.
    destruct (road_table_members _ _ (cell r "road") H) as [Hle _].
    destruct (road_table_cover argsort Hperm Hsorted _ _ _ H Hr Hm) as (ρ & Hρ & Hk).
    assert (ρ ∈ members "road" (cell r "road") df_roads) as Hin.
    { apply list_elem_of_filter. split; [|done]. by rewrite key_eqb_sym. }
    destruct (members "road" (cell r "road") df_roads); [by apply elem_of_nil in Hin|].
    simpl in *. lia.
  - by destruct (road_table_members _ _ (JInt 0) H).
Qed.

End OneRow.

(** ** The files of a report *)

Lemma triple_eq {A B C} (p : A * (B * C)) (b : B) : p.2.1 = b -> p = (p.1, (b, p.2.2)).
Proof. destruct p as [a [b' c]]. by intros <-. Qed.

Section Reports.

Variable json_loads : string -> option json.
Variable argsort : list float -> list nat.
Variable can_write : string -> bool.
Variable other_frame : json -> res DataFrame.

(** X17. A run that reaches the report leaves six files: the two source
    files, holding the tables [pd.DataFrame(rows)] of the two responses,
    and the four output tables. *)
Theorem report_leaves_six_files resp1 resp2 fs fs' s :
  run json_loads argsort can_write other_frame resp1 resp2 fs = (fs', Processed (Ok s)) ->
  exists data1 rs1 t1 data2 rs2 t2,
    resp1 = Ok data1 /\ response_rows data1 = Ok (Some rs1) /\
    DataFrame_rows other_frame rs1 = Ok t1 /\
    resp2 = Ok data2 /\ response_rows data2 = Ok (Some rs2) /\
    DataFrame_rows other_frame rs2 = Ok t2 /\
    fs' !! ROAD_SEGMENTS_CSV = Some t1 /\
    fs' !! INFOGRAPHICS_CSV = Some t2 /\
    forall p, p ∈ output_paths -> is_Some (fs' !! p).
Proof.
  unfold run.
  destruct (download_and_save_csv json_loads can_write other_frame resp1 ROAD_SEGMENTS_CSV fs)
    as [fs1 [ok1 md1]] eqn:H1.
  destruct (download_and_save_csv json_loads can_write other_frame resp2 INFOGRAPHICS_CSV fs1)
    as [fs2 [ok2 md2]] eqn:H2.
  destruct (ok1 && ok2) eqn:Hok; [|done].
  apply andb_true_iff in Hok as [-> ->].
  destruct (process_data json_loads argsort can_write md2 fs2) as [fs3 r] eqn:Hp.
  intros [= -> ->].
  apply download_cases in H1 as [[? _]|[_ (d1 & rs1 & t1 & ? & ? & ? & _ & ->)]]; [done|].
  apply download_cases in H2 as [[? _]|[_ (d2 & rs2 & t2 & ? & ? & ? & _ & ->)]]; [done|].
  exists d1, rs1, t1, d2, rs2, t2. repeat split; try done.
  - pose proof (process_data_output_only json_loads argsort can_write md2
                  (<[INFOGRAPHICS_CSV := t2]> (<[ROAD_SEGMENTS_CSV := t1]> fs))
                  ROAD_SEGMENTS_CSV ltac:(by_compute)) as E.
    rewrite Hp in E. cbn [fst] in E. rewrite E, lookup_insert_ne by done.
    by rewrite lookup_insert_eq.
  - pose proof (process_data_output_only json_loads argsort can_write md2
                  (<[INFOGRAPHICS_CSV := t2]> (<[ROAD_SEGMENTS_CSV := t1]> fs))
                  INFOGRAPHICS_CSV ltac:(by_compute)) as E.
    rewrite Hp in E. cbn [fst] in E. rewrite E. by rewrite lookup_insert_eq.
  - intros p Hp'.
    apply process_data_success in Hp
      as (? & ? & ? & ? & ? & ? & _ & _ & _ & _ & _ & L1 & L2 & L3 & L4 & _).
    unfold output_paths in Hp'.
    repeat (apply elem_of_cons in Hp' as [->|Hp']; [by eexists|]).
    by apply elem_of_nil in Hp'.
Qed.

End Reports.

(** ** The further properties on the worked data *)

(** [record_field_precedence] on the first row of the scenario. *)
Lemma record_field_precedence_witness :
  extract_record (statistics 1 "X - Y" 1 1) = Ok demo_record /\
  exists li id nm acc inj,
    location_info (statistics 1 "X - Y" 1 1) = Ok li /\
    getitem li "road_segment_id" = Ok id /\
    getitem li "road_segment_name" = Ok nm /\
    widget_dict "accident_count_by_severity" (statistics 1 "X - Y" 1 1) = Ok acc /\
    widget_dict "injured_count_by_severity" (statistics 1 "X - Y" 1 1) = Ok inj /\
    (NoDup acc.*1 -> NoDup inj.*1 ->
     forall k, dict_get k demo_record =
       rightmost k [("road_segment_id", id); ("road_segment_name", nm)] acc inj).
Proof.
  assert (extract_record (statistics 1 "X - Y" 1 1) = Ok demo_record) as H
    by (apply from_ok_eq; computed).
  split; [exact H|]. exact (record_field_precedence _ _ H).
Defined.


(** [metadata_only_from_statistics] on the road-segments file. *)
Lemma metadata_only_from_statistics_witness :
  is_infix "infographics" (lower ROAD_SEGMENTS_CSV) = false /\
  segments_download.2.2 = JObj [].
Proof.
  assert (is_infix "infographics" (lower ROAD_SEGMENTS_CSV) = false) as H by computed.
  split; [exact H|].
  exact (metadata_only_from_statistics demo_loads always no_frame demo_segments _ ∅ H).
Defined.

(** [empty_statistics_download_fails] on a response without rows. *)
Lemma empty_statistics_download_fails_witness :
  response_rows empty_response = Ok (Some (JArr [])) /\
  is_infix "infographics" (lower INFOGRAPHICS_CSV) = true /\
  download_and_save_csv demo_loads always no_frame (Ok empty_response) INFOGRAPHICS_CSV ∅
    = (∅, (false, JObj [])).
Proof.
  assert (response_rows empty_response = Ok (Some (JArr []))) as H1 by computed.
  assert (is_infix "infographics" (lower INFOGRAPHICS_CSV) = true) as H2 by computed.
  split; [exact H1|]. split; [exact H2|].
  exact (empty_statistics_download_fails demo_loads always no_frame _ _ ∅ H1 H2).
Defined.

(** [failed_download_skips_processing] when the first request fails. *)
Lemma failed_download_skips_processing_witness :
  statistics_download.2.1 = true /\
  run demo_loads merge_argsort always no_frame (Raise RequestException) demo_statistics ∅
    = (statistics_download.1, DownloadFailed) /\
  forall p, p ∈ output_paths -> statistics_download.1 !! p = ((∅ : Files) !! p).
Proof.
  assert (statistics_download.2.1 = true) as E by computed.
  split; [exact E|].
  exact (failed_download_skips_processing demo_loads merge_argsort always no_frame
           (Raise RequestException) demo_statistics ∅ ∅ false (JObj [])
           _ true _ eq_refl (triple_eq statistics_download true E) eq_refl).
Defined.

(** [empty_segments_response] on a response without rows. *)
Lemma empty_segments_response_witness :
  response_rows empty_response = Ok (Some (JArr [])) /\
  is_report (run demo_loads merge_argsort always no_frame (Ok empty_response) demo_statistics ∅).2
    = false.
Proof.
  assert (response_rows empty_response = Ok (Some (JArr []))) as H by computed.
  split; [exact H|].
  exact (proj1 (empty_segments_response demo_loads merge_argsort always no_frame _
                  demo_statistics ∅ H)).
Defined.

(** [process_keeps_other_files] on the run of the scenario. *)
Lemma process_keeps_other_files_witness :
  (ROAD_SEGMENTS_CSV ∉ output_paths) /\
  (demo_processed.1 !! ROAD_SEGMENTS_CSV = demo_sources !! ROAD_SEGMENTS_CSV).
Proof.
  assert (ROAD_SEGMENTS_CSV ∉ output_paths) as H by by_compute.
  split; [exact H|].
  exact (process_keeps_other_files demo_loads merge_argsort always demo_metadata
           demo_sources _ H).
Defined.

Lemma demo_processed_ok :
  process_data demo_loads merge_argsort always demo_metadata demo_sources
    = (demo_processed.1, Ok demo_summary).
Proof. apply (pair_snd_eq demo_processed). computed. Qed.

(** [success_returns_metadata_dates] on the run of the scenario. *)
Lemma success_returns_metadata_dates_witness :
  process_data demo_loads merge_argsort always demo_metadata demo_sources
    = (demo_processed.1, Ok demo_summary) /\
  exists dates_comment,
    get_method demo_metadata "dates_comment" (JObj []) = Ok dates_comment /\
    get_method dates_comment "date_range" (JArr []) = Ok (date_range demo_summary) /\
    get_method dates_comment "last_update" (JStr "") = Ok (last_update demo_summary) /\
    is_ok (getitem0 (date_range demo_summary)) = true.
Proof.
  split; [exact demo_processed_ok|].
  exact (success_returns_metadata_dates _ _ _ _ _ _ _ demo_processed_ok).
Defined.

(** [summary_counts] on the run of the scenario. *)
Lemma summary_counts_witness :
  process_data demo_loads merge_argsort always demo_metadata demo_sources
    = (demo_processed.1, Ok demo_summary) /\
  n_segments_1km demo_summary <= n_segments demo_summary /\
  n_roads_1km demo_summary <= n_roads demo_summary.
Proof.
  split; [exact demo_processed_ok|].
  destruct (summary_counts _ _ _ _ _ _ _ demo_processed_ok)
    as (? & ? & ? & ? & _ & _ & _ & _ & _ & _ & _ & _ & H1 & H2).
  exact (conj H1 H2).
Defined.

(** [success_reads_every_row] on the run of the scenario. *)
Lemma success_reads_every_row_witness :
  process_data demo_loads merge_argsort always demo_metadata demo_sources
    = (demo_processed.1, Ok demo_summary) /\
  exists statistics reference datas all_list df_total,
    demo_sources !! INFOGRAPHICS_CSV = Some statistics /\
    demo_sources !! ROAD_SEGMENTS_CSV = Some reference /\
    rows statistics ≠ [] /\
    Forall2 (fun r d => custom_parser demo_loads (cell r "data") = Ok d)
            (rows statistics) datas /\
    Forall2 (fun d rec => extract_record d = Ok rec) datas all_list /\
    segment_table merge_argsort all_list reference = Ok df_total /\
    demo_processed.1 !! ALL_SEGMENTS = Some df_total.
Proof.
  split; [exact demo_processed_ok|].
  exact (success_reads_every_row _ _ _ _ _ _ _ demo_processed_ok).
Defined.

(** [filtered_rows_at_least_1km] on the run of the scenario. *)
Lemma filtered_rows_at_least_1km_witness :
  process_data demo_loads merge_argsort always demo_metadata demo_sources
    = (demo_processed.1, Ok demo_summary) /\
  exists segments_1km roads_1km,
    demo_processed.1 !! ALL_SEGMENTS_1KM = Some segments_1km /\
    demo_processed.1 !! ALL_ROADS_1KM = Some roads_1km /\
    Forall at_least_1km (rows segments_1km) /\
    Forall at_least_1km (rows roads_1km).
Proof.
  split; [exact demo_processed_ok|].
  exact (filtered_rows_at_least_1km _ _ _ _ _ _ _ demo_processed_ok).
Defined.

(** [undecodable_row_fails_run] with a decoder that knows no document. *)
Lemma undecodable_row_fails_run_witness :
  is_ok (custom_parser (table_loads [])
           (cell (list_to_map [("data", JStr "doc1")]) "data")) = false /\
  exists e,
    process_data (table_loads []) merge_argsort always demo_metadata
      (<[INFOGRAPHICS_CSV := one_statistics_row]> ∅)
    = (<[INFOGRAPHICS_CSV := one_statistics_row]> ∅, Raise e).
Proof.
  assert (is_ok (custom_parser (table_loads [])
            (cell (list_to_map [("data", JStr "doc1")]) "data")) = false) as H by computed.
  split; [exact H|].
  refine (undecodable_row_fails_run (table_loads []) merge_argsort always demo_metadata
            _ one_statistics_row (list_to_map [("data", JStr "doc1")]) _ _ _ H).
  - apply lookup_insert_eq.
  - by_compute.
  - left.
Defined.

(** [segment_table_layout] on the tables of the scenario. *)
Lemma segment_table_layout_witness :
  segment_table merge_argsort demo_records demo_reference = Ok demo_total /\
  columns demo_total `sublist_of` segment_columns /\ NoDup (columns demo_total).
Proof.
  split; [exact demo_total_ok|].
  destruct (segment_table_layout _ _ _ _ demo_total_ok) as (H1 & H2 & _).
  exact (conj H1 H2).
Defined.


(** [preview_after_success] on the run of the scenario. *)
Lemma preview_after_success_witness :
  process_data demo_loads merge_argsort always demo_metadata demo_sources
    = (demo_processed.1, Ok demo_summary) /\
  exists segments roads shown_segments shown_roads,
    demo_processed.1 !! ALL_SEGMENTS = Some segments /\
    demo_processed.1 !! ALL_ROADS = Some roads /\
    preview merge_argsort demo_processed.1 = Some (Ok shown_segments, Ok shown_roads) /\
    shows segment_key_cols segments shown_segments /\
    shows road_key_cols roads shown_roads.
Proof.
  split; [exact demo_processed_ok|].
  exact (preview_after_success demo_loads merge_argsort always
           (proj1 merge_argsort_contract) (proj2 merge_argsort_contract)
           _ _ _ _ demo_processed_ok).
Defined.

(** [one_row_per_road] on the tables of the scenario. *)
Lemma one_row_per_road_witness :
  road_table merge_argsort demo_total = Ok demo_roads /\
  (forall k, length (members "road" k demo_roads) <= 1) /\
  length (rows demo_roads) <= length (rows demo_total).
Proof.
  split; [exact demo_roads_ok|].
  destruct (one_row_per_road merge_argsort (proj1 merge_argsort_contract)
              (proj2 merge_argsort_contract) _ _ demo_roads_ok) as (H1 & _ & H3).
  exact (conj H1 H3).
Defined.

(** [report_leaves_six_files] on the run of the scenario. *)
Lemma report_leaves_six_files_witness :
  run demo_loads merge_argsort always no_frame demo_segments demo_statistics ∅
    = ((demo_run always).1, Processed (Ok demo_summary)) /\
  forall p, p ∈ output_paths -> is_Some ((demo_run always).1 !! p).
Proof.
  assert (run demo_loads merge_argsort always no_frame demo_segments demo_statistics ∅
            = ((demo_run always).1, Processed (Ok demo_summary))) as H.
  { apply (pair_snd_eq (demo_run always)). computed. }
  split; [exact H|].
  destruct (report_leaves_six_files _ _ _ _ _ _ _ _ _ H)
    as (? & ? & ? & ? & ? & ? & _ & _ & _ & _ & _ & _ & _ & _ & Hp).
  exact Hp.
Defined.
